(** * env-guard: the validation and coercion engine of [src/index.ts]

    A shallow embedding of the schema compiler ([defineSchema]), the
    coercion function ([coerceValue]), the built-in validators and the
    validation engine ([validateEnv]), followed by the properties of the
    specification that concern them.  The parts of the command line
    ([bin/env-guard.js]) that work on text are embedded too: the reader
    of env files, the writer of example files and the counts of the
    check command.

    Conventions of the embedding.
    - JavaScript numbers are IEEE 754 binary64 values, represented by
      [spec_float] with precision 53 and [emax = 1024].
    - Strings are sequences of ASCII characters; case mapping and
      whitespace trimming act on the ASCII range.
    - Objects used as maps are lists of entries in the order of
      [Object.entries], under ordinary names: the name [__proto__], which
      an assignment does not store as an entry, is left out.
    - A function supplied by the schema author ([validate], [transform],
      a [default] producer) is a function to an [outcome]: it returns a
      value or throws.
    - What the JavaScript host provides and the repository does not define
      (number printing, the URL parser, [JSON.parse], [process.env]) is a
      record [Host] that the engine is parameterised by. *)

From Stdlib Require Import String Ascii List ZArith Lia Bool DecimalString.
From Stdlib Require Import Floats.SpecFloat.
Import ListNotations.
Open Scope string_scope.
Open Scope Z_scope.

Set Implicit Arguments.

(* ===================================================================== *)
(** ** Strings *)
(* ===================================================================== *)

Module Str.

Definition is_digit (c : ascii) : bool :=
  let n := nat_of_ascii c in (48 <=? n)%nat && (n <=? 57)%nat.

Definition is_upper (c : ascii) : bool :=
  let n := nat_of_ascii c in (65 <=? n)%nat && (n <=? 90)%nat.

Definition is_lower (c : ascii) : bool :=
  let n := nat_of_ascii c in (97 <=? n)%nat && (n <=? 122)%nat.

(** White space and line terminators of the ASCII range: TAB, LF, VT, FF,
    CR and SPACE. *)
Definition is_space (c : ascii) : bool :=
  let n := nat_of_ascii c in
  ((9 <=? n)%nat && (n <=? 13)%nat) || (n =? 32)%nat.

Definition upper_char (c : ascii) : ascii :=
  if is_lower c then ascii_of_nat (nat_of_ascii c - 32) else c.

Definition lower_char (c : ascii) : ascii :=
  if is_upper c then ascii_of_nat (nat_of_ascii c + 32) else c.

Fixpoint map (f : ascii -> ascii) (s : string) : string :=
  match s with
  | EmptyString => EmptyString
  | String c r => String (f c) (map f r)
  end.

(** [String.prototype.toUpperCase] and [toLowerCase]. *)
Definition toUpperCase (s : string) : string := map upper_char s.
Definition toLowerCase (s : string) : string := map lower_char s.

(** [String.prototype.trimStart]. *)
Fixpoint trimStart (s : string) : string :=
  match s with
  | EmptyString => EmptyString
  | String c r => if is_space c then trimStart r else s
  end.

(** [trimEnd]: a character is dropped when it is white space and all that
    follows it has been dropped. *)
Fixpoint trimEnd (s : string) : string :=
  match s with
  | EmptyString => EmptyString
  | String c r =>
      match trimEnd r with
      | EmptyString => if is_space c then EmptyString else String c EmptyString
      | r' => String c r'
      end
  end.

(** [String.prototype.trim]. *)
Definition trim (s : string) : string := trimEnd (trimStart s).

(** The longest prefix whose characters satisfy [p], and the rest. *)
Fixpoint span (p : ascii -> bool) (s : string) : string * string :=
  match s with
  | EmptyString => (EmptyString, EmptyString)
  | String c r =>
      if p c then let '(a, b) := span p r in (String c a, b)
      else (EmptyString, s)
  end.

(** [s] with the prefix [p] removed, when [p] is a prefix of [s]. *)
Fixpoint strip_prefix (p s : string) : option string :=
  match p, s with
  | EmptyString, _ => Some s
  | String a p', String b s' =>
      if Ascii.eqb a b then strip_prefix p' s' else None
  | String _ _, EmptyString => None
  end.

(** [Array.prototype.join] on strings. *)
Fixpoint join (sep : string) (l : list string) : string :=
  match l with
  | [] => EmptyString
  | [x] => x
  | x :: r => x ++ sep ++ join sep r
  end.

(** [Array.prototype.includes] on an array of strings. *)
Definition includes (l : list string) (s : string) : bool :=
  existsb (String.eqb s) l.

Definition is_empty (s : string) : bool :=
  match s with EmptyString => true | _ => false end.

Definition digit_value (c : ascii) : Z := Z.of_nat (nat_of_ascii c) - 48.

(** The value of a string of decimal digits, most significant first. *)
Fixpoint digits_value_from (acc : Z) (s : string) : Z :=
  match s with
  | EmptyString => acc
  | String c r => digits_value_from (10 * acc + digit_value c) r
  end.

Definition digits_value (s : string) : Z := digits_value_from 0 s.

End Str.

(* ===================================================================== *)
(** ** Numbers: IEEE 754 binary64 *)
(* ===================================================================== *)

Definition number : Type := spec_float.

Module Num.

Definition prec : Z := 53.
Definition emax : Z := 1024.

Definition NaN : number := S754_nan.
Definition Infinity : number := S754_infinity false.

(** The global [isNaN] and [isFinite] on a number. *)
Definition isNaN (x : number) : bool :=
  match x with S754_nan => true | _ => false end.

Definition isFinite (x : number) : bool :=
  match x with
  | S754_zero _ | S754_finite _ _ _ => true
  | S754_infinity _ | S754_nan => false
  end.

(** The binary64 value nearest to an integer (ties to even). *)
Definition of_Z (z : Z) : number := binary_normalize prec emax z 0 false.

(** The binary64 value nearest to [m * 10 ^ e10] for a natural number [m],
    with the sign [neg]; the quotient by a power of ten is rounded once,
    from the exact integers. *)
Definition of_decimal (neg : bool) (m : Z) (e10 : Z) : number :=
  match m with
  | Zpos p =>
      if 0 <=? e10 then binary_round prec emax neg (p * Z.to_pos (10 ^ e10))%positive 0
      else SFdiv prec emax (S754_finite neg p 0)
                            (S754_finite false (Z.to_pos (10 ^ (- e10))) 0)
  | _ => S754_zero neg
  end.

(** The comparisons [<] and [>] of JavaScript: false when either side is
    NaN. *)
Definition lt (x y : number) : bool := SFltb x y.
Definition gt (x y : number) : bool := SFltb y x.

(** Strict equality [===] on numbers: NaN differs from itself, the two
    zeros are equal. *)
Definition strict_eq (x y : number) : bool := SFeqb x y.

(** SameValueZero, the comparison of [Array.prototype.includes]. *)
Definition same_value_zero (x y : number) : bool :=
  match x, y with
  | S754_nan, S754_nan => true
  | _, _ => SFeqb x y
  end.

(** [Number.isInteger]. *)
Definition isInteger (x : number) : bool :=
  match x with
  | S754_zero _ => true
  | S754_finite _ m e =>
      if 0 <=? e then true else (Zpos m mod 2 ^ (- e) =? 0)
  | S754_infinity _ | S754_nan => false
  end.

(** Truthiness of a number: zero and NaN are falsy. *)
Definition truthy (x : number) : bool :=
  match x with
  | S754_zero _ | S754_nan => false
  | _ => true
  end.

End Num.

(** The decimal literal that [parseFloat] recognises at the start of a
    string (the grammar StrDecimalLiteral of ECMAScript). *)
Inductive StrDecimalLiteral : Type :=
| LitInfinity (neg : bool)
| LitDecimal (neg : bool) (int_digits frac_digits : string) (exponent : Z).

(** The numeric value of a literal, rounded to binary64. *)
Definition literal_value (l : StrDecimalLiteral) : number :=
  match l with
  | LitInfinity neg => S754_infinity neg
  | LitDecimal neg ip fp ex =>
      Num.of_decimal neg (Str.digits_value (ip ++ fp))
                     (ex - Z.of_nat (String.length fp))
  end.

(** An optional sign at the start of a string: whether it is a minus, and
    what follows it. *)
Definition scan_sign (s : string) : bool * string :=
  match s with
  | String c r =>
      if Ascii.eqb c "+" then (false, r)
      else if Ascii.eqb c "-" then (true, r)
      else (false, s)
  | EmptyString => (false, s)
  end.

(** The exponent part [e], [e+] or [e-] followed by digits; when no digit
    follows, there is no exponent part and nothing is consumed. *)
Definition scan_exponent (s : string) : Z * string :=
  match s with
  | String c r =>
      if Ascii.eqb c "e" || Ascii.eqb c "E" then
        let '(neg, r1) := scan_sign r in
        let '(ds, r2) := Str.span Str.is_digit r1 in
        if Str.is_empty ds then (0, s)
        else ((if neg then - Str.digits_value ds else Str.digits_value ds), r2)
      else (0, s)
  | EmptyString => (0, s)
  end.

(** The fraction part: a dot and the digits after it, which may be none. *)
Definition scan_fraction (s : string) : string * string :=
  match s with
  | String c r =>
      if Ascii.eqb c "." then Str.span Str.is_digit r
      else (EmptyString, s)
  | EmptyString => (EmptyString, s)
  end.

(** The longest prefix of [s] that is a StrDecimalLiteral, with what
    follows it; [None] when no prefix is one.  A literal has a digit
    before or after its dot. *)
Definition scan_literal (s : string) : option (StrDecimalLiteral * string) :=
  let '(neg, s1) := scan_sign s in
  match Str.strip_prefix "Infinity" s1 with
  | Some r => Some (LitInfinity neg, r)
  | None =>
      let '(ip, s2) := Str.span Str.is_digit s1 in
      let '(fp, s3) := scan_fraction s2 in
      if Str.is_empty ip && Str.is_empty fp then None
      else
        let '(ex, s4) := scan_exponent s3 in
        Some (LitDecimal neg ip fp ex, s4)
  end.

(** The global [parseFloat] on a string. *)
Definition parseFloat (s : string) : number :=
  match scan_literal (Str.trimStart s) with
  | Some (l, _) => literal_value l
  | None => Num.NaN
  end.

(** [parseInt(s, 10)]: optional sign, then the longest run of digits. *)
Definition parseInt10 (s : string) : number :=
  let '(neg, t) := scan_sign (Str.trimStart s) in
  let '(ds, _) := Str.span Str.is_digit t in
  if Str.is_empty ds then Num.NaN
  else Num.of_decimal neg (Str.digits_value ds) 0.

(* ===================================================================== *)
(** ** Values, errors and outcomes *)
(* ===================================================================== *)

(** The values that flow through the engine: the primitives and opaque
    objects, an object being known by its reference. *)
Inductive jsval : Type :=
| JUndefined
| JNull
| JBool (b : bool)
| JNum (n : number)
| JStr (s : string)
| JObj (ref : nat).

(** The results of [typeof] on these values. *)
Inductive jstype : Type :=
| TyUndefined | TyObject | TyBoolean | TyNumber | TyString.

Definition typeof (v : jsval) : jstype :=
  match v with
  | JUndefined => TyUndefined
  | JNull | JObj _ => TyObject
  | JBool _ => TyBoolean
  | JNum _ => TyNumber
  | JStr _ => TyString
  end.

(** Strict equality [===]. *)
Definition strict_eq (a b : jsval) : bool :=
  match a, b with
  | JUndefined, JUndefined => true
  | JNull, JNull => true
  | JBool x, JBool y => Bool.eqb x y
  | JNum x, JNum y => Num.strict_eq x y
  | JStr x, JStr y => String.eqb x y
  | JObj x, JObj y => Nat.eqb x y
  | _, _ => false
  end.

(** SameValueZero. *)
Definition same_value_zero (a b : jsval) : bool :=
  match a, b with
  | JNum x, JNum y => Num.same_value_zero x y
  | _, _ => strict_eq a b
  end.

(** [Array.prototype.includes]. *)
Definition includes (l : list jsval) (v : jsval) : bool :=
  existsb (same_value_zero v) l.

(** [v === true]. *)
Definition is_true (v : jsval) : bool :=
  match v with JBool true => true | _ => false end.

Definition is_undefined (v : jsval) : bool :=
  match v with JUndefined => true | _ => false end.

(** Truthiness (ToBoolean). *)
Definition truthy (v : jsval) : bool :=
  match v with
  | JUndefined | JNull => false
  | JBool b => b
  | JNum n => Num.truthy n
  | JStr s => negb (Str.is_empty s)
  | JObj _ => true
  end.

(** The [type] of a validation error. *)
Inductive ErrorType : Type :=
| TypeError | FormatError | RequiredError | TransformError.

(** An instance of the class [ValidationError]. *)
Record ValidationError : Type := mkValidationError {
  ve_field : string;
  ve_message : string;
  ve_value : jsval;
  ve_expected : option string;
  ve_received : option string;
  ve_envVarName : string;
  ve_type : ErrorType
}.

(** [a || b] on an optional string: an absent or empty [a] gives [b]. *)
Definition or_string (a : option string) (b : string) : string :=
  match a with
  | Some s => if Str.is_empty s then b else s
  | None => b
  end.

(** Truthiness of an optional string. *)
Definition some_nonempty (a : option string) : bool :=
  match a with
  | Some s => negb (Str.is_empty s)
  | None => false
  end.

(** The constructor of [ValidationError]; the last four parameters are
    optional, [type] defaulting to ['FormatError']. *)
Definition new_ValidationError (field message : string) (value : jsval)
    (expected received envVarName : option string) (type : option ErrorType)
  : ValidationError :=
  {| ve_field := field;
     ve_message := message;
     ve_value := value;
     ve_expected := expected;
     ve_received := received;
     ve_envVarName := or_string envVarName field;
     ve_type := match type with Some t => t | None => FormatError end |}.

(** What a [throw] carries. *)
Inductive exn : Type :=
| ThrownValidationError (e : ValidationError)
| ThrownSchemaError (message schemaPath : string)
| ThrownError (message : string)      (* any other instance of [Error] *)
| ThrownValue (v : jsval).            (* a thrown value that is no [Error] *)

(** [error instanceof Error ? error.message : fallback]. *)
Definition message_or (e : exn) (fallback : string) : string :=
  match e with
  | ThrownValidationError v => ve_message v
  | ThrownSchemaError m _ => m
  | ThrownError m => m
  | ThrownValue _ => fallback
  end.

(** A computation returns or throws. *)
Inductive outcome (A : Type) : Type :=
| Returns (a : A)
| Throws (e : exn).

Arguments Returns {A} a.
Arguments Throws {A} e.

Definition bind {A B : Type} (m : outcome A) (k : A -> outcome B) : outcome B :=
  match m with
  | Returns a => k a
  | Throws e => Throws e
  end.

Notation "'let*' x ':=' m 'in' k" := (bind m (fun x => k))
  (at level 10, x name, m at level 100, k at level 200).

(** Functions written by the schema author. *)
Definition userfn : Type := jsval -> outcome jsval.

(** A regular expression object, known by its [test] method.  The method
    is a function of the string: expressions with the flags [g] or [y],
    whose [test] depends on [lastIndex], are not covered. *)
Definition RegExp : Type := string -> bool.

(** A flat object with string keys, in the order of [Object.entries]. *)
Definition object (A : Type) : Type := list (string * A).

Fixpoint get {A : Type} (o : object A) (k : string) : option A :=
  match o with
  | [] => None
  | (k', a) :: r => if String.eqb k k' then Some a else get r k
  end.

(** [o[k] = a]: an existing key keeps its place, a new key goes last. *)
Fixpoint set {A : Type} (o : object A) (k : string) (a : A) : object A :=
  match o with
  | [] => [(k, a)]
  | (k', a') :: r =>
      if String.eqb k k' then (k, a) :: r else (k', a') :: set r k a
  end.

(** An env map; a key that is missing reads as [undefined]. *)
Definition envmap : Type := object jsval.

Definition env_get (env : envmap) (k : string) : jsval :=
  match get env k with
  | Some v => v
  | None => JUndefined
  end.

(* ===================================================================== *)
(** ** The host *)
(* ===================================================================== *)

(** A parsed URL, as far as [validateUrl] reads it.  The URL Standard
    defines the [protocol] getter of a URL object as its scheme followed by
    U+003A (:), and that is how [url_protocol] is defined. *)
Record URL : Type := mkURL {
  url_scheme : string;
  url_hostname : string
}.

Definition url_protocol (u : URL) : string := url_scheme u ++ ":".

Inductive json_result : Type :=
| JsonParsed
| JsonSyntaxError (message : string).

Record Host : Type := mkHost {
  (** [String(n)] for a number [n]. *)
  Number_toString : number -> string;
  (** [String(o)] for the object of a reference. *)
  Object_toString : nat -> string;
  (** [new URL(s)]: [None] when the constructor throws. *)
  URL_parse : string -> option URL;
  (** [JSON.parse(s)], its result dropped. *)
  JSON_parse : string -> json_result;
  (** The message of the [TypeError] raised by calling a method of
      [undefined]. *)
  undefined_method_message : string;
  (** [process.env]. *)
  process_env : envmap
}.

Definition dq : string := String (ascii_of_nat 34) EmptyString.

(* ===================================================================== *)
(** ** Regular expressions of the built-in validators *)
(* ===================================================================== *)

(** The three patterns that the source writes as literals are anchored at
    both ends, so [test] is a match of the whole string.  They are
    transcribed as terms and matched by derivatives. *)
Module Re.

Inductive re : Type :=
| Void
| Eps
| Chr (p : ascii -> bool)
| Seq (a b : re)
| Alt (a b : re)
| Star (a : re).

Fixpoint nullable (r : re) : bool :=
  match r with
  | Void => false
  | Eps => true
  | Chr _ => false
  | Seq a b => nullable a && nullable b
  | Alt a b => nullable a || nullable b
  | Star _ => true
  end.

Definition seq (a b : re) : re :=
  match a, b with
  | Void, _ | _, Void => Void
  | Eps, _ => b
  | _, Eps => a
  | _, _ => Seq a b
  end.

Definition alt (a b : re) : re :=
  match a, b with
  | Void, _ => b
  | _, Void => a
  | _, _ => Alt a b
  end.

Fixpoint deriv (c : ascii) (r : re) : re :=
  match r with
  | Void | Eps => Void
  | Chr p => if p c then Eps else Void
  | Seq a b =>
      if nullable a then alt (seq (deriv c a) b) (deriv c b)
      else seq (deriv c a) b
  | Alt a b => alt (deriv c a) (deriv c b)
  | Star a => seq (deriv c a) (Star a)
  end.

Fixpoint matches (r : re) (s : string) : bool :=
  match s with
  | EmptyString => nullable r
  | String c s' => matches (deriv c r) s'
  end.

(** [r{n}] *)
Fixpoint times (n : nat) (r : re) : re :=
  match n with
  | O => Eps
  | S n' => Seq r (times n' r)
  end.

(** [r{0,n}] *)
Fixpoint upto (n : nat) (r : re) : re :=
  match n with
  | O => Eps
  | S n' => Alt Eps (Seq r (upto n' r))
  end.

(** [r{lo,hi}] *)
Definition range (lo hi : nat) (r : re) : re :=
  Seq (times lo r) (upto (hi - lo) r).

Definition opt (r : re) : re := Alt Eps r.
Definition plus (r : re) : re := Seq r (Star r).

Definition char (c : ascii) : re := Chr (Ascii.eqb c).

Definition between (lo hi : ascii) : ascii -> bool :=
  fun c => (nat_of_ascii lo <=? nat_of_ascii c)%nat
           && (nat_of_ascii c <=? nat_of_ascii hi)%nat.

Fixpoint one_of (s : string) (c : ascii) : bool :=
  match s with
  | EmptyString => false
  | String a r => Ascii.eqb a c || one_of r c
  end.

Definition alnum (c : ascii) : bool :=
  Str.is_lower c || Str.is_upper c || Str.is_digit c.

(** [[a-zA-Z0-9](?:[a-zA-Z0-9-]{0,61}[a-zA-Z0-9])?] *)
Definition label : re :=
  Seq (Chr alnum)
      (opt (Seq (upto 61 (Chr (fun c => alnum c || Ascii.eqb c "-")))
                (Chr alnum))).

(** The [emailPattern] of [validateEmail]. *)
Definition emailPattern : re :=
  Seq (plus (Chr (fun c => alnum c || one_of ".!#$%&'*+/=?^_`{|}~-" c)))
      (Seq (char "@")
           (Seq label (Star (Seq (char ".") label)))).

(** [[0-9]|[1-9][0-9]|1[0-9]{2}|2[0-4][0-9]|25[0-5]] *)
Definition octet : re :=
  Alt (Chr Str.is_digit)
 (Alt (Seq (Chr (between "1" "9")) (Chr Str.is_digit))
 (Alt (Seq (char "1") (times 2 (Chr Str.is_digit)))
 (Alt (Seq (char "2") (Seq (Chr (between "0" "4")) (Chr Str.is_digit)))
      (Seq (char "2") (Seq (char "5") (Chr (between "0" "5"))))))).

(** The [ipv4Pattern] of [validateIp]. *)
Definition ipv4Pattern : re :=
  Seq (times 3 (Seq octet (char "."))) octet.

Definition hex (c : ascii) : bool :=
  Str.is_digit c || between "a" "f" c || between "A" "F" c.

(** [[0-9a-fA-F]{1,4}] *)
Definition h16 : re := range 1 4 (Chr hex).
(** [([0-9a-fA-F]{1,4}:)] and [(:[0-9a-fA-F]{1,4})] *)
Definition h16c : re := Seq h16 (char ":").
Definition ch16 : re := Seq (char ":") h16.

(** The [ipv6Pattern] of [validateIp], alternative by alternative. *)
Definition ipv6Pattern : re :=
  Alt (Seq (times 7 h16c) h16)
 (Alt (Seq (range 1 7 h16c) (char ":"))
 (Alt (Seq (range 1 6 h16c) ch16)
 (Alt (Seq (range 1 5 h16c) (range 1 2 ch16))
 (Alt (Seq (range 1 4 h16c) (range 1 3 ch16))
 (Alt (Seq (range 1 3 h16c) (range 1 4 ch16))
 (Alt (Seq (range 1 2 h16c) (range 1 5 ch16))
 (Alt (Seq h16c (range 1 6 ch16))
      (Seq (char ":") (Alt (range 1 7 ch16) (char ":")))))))))).

End Re.

(* ===================================================================== *)
(** ** Types of the schema *)
(* ===================================================================== *)

(** [EnvType] *)
Inductive EnvType : Type :=
| Tstring | Tnumber | Tboolean | Turl | Tport | Temail | Tip | Tjson | Tregex.

Definition EnvType_eqb (a b : EnvType) : bool :=
  match a, b with
  | Tstring, Tstring | Tnumber, Tnumber | Tboolean, Tboolean | Turl, Turl
  | Tport, Tport | Temail, Temail | Tip, Tip | Tjson, Tjson
  | Tregex, Tregex => true
  | _, _ => false
  end.

(** [StringValidatorOptions], [NumberValidatorOptions],
    [UrlValidatorOptions] and [IpValidatorOptions]. *)
Record StringValidatorOptions : Type := mkStringOptions {
  so_minLength : option number;
  so_maxLength : option number
}.

Record NumberValidatorOptions : Type := mkNumberOptions {
  no_min : option number;
  no_max : option number
}.

Record UrlValidatorOptions : Type := mkUrlOptions {
  uo_protocols : option (list string);
  uo_requireProtocol : option bool
}.

Record IpValidatorOptions : Type := mkIpOptions {
  io_version : option string
}.

(* ===================================================================== *)
(** ** Type coercion and the built-in validators *)
(* ===================================================================== *)

Section Engine.

Variable host : Host.

(** [String(v)], which is also [v.toString()] on a primitive that has
    the method. *)
Definition ToString (v : jsval) : string :=
  match v with
  | JUndefined => "undefined"
  | JNull => "null"
  | JBool true => "true"
  | JBool false => "false"
  | JNum n => Number_toString host n
  | JStr s => s
  | JObj r => Object_toString host r
  end.

(** An element of an array under [join]: [undefined] and [null] print as
    the empty string. *)
Definition join_element (v : jsval) : string :=
  match v with
  | JUndefined | JNull => EmptyString
  | _ => ToString v
  end.

Definition join_values (sep : string) (l : list jsval) : string :=
  Str.join sep (List.map join_element l).

(** [coerceValue(value, type)] *)
Definition coerceValue (value : jsval) (type : EnvType) : outcome jsval :=
  match value with
  | JUndefined | JNull => Returns value
  | JObj _ =>
      Throws (ThrownValidationError
        (new_ValidationError "value" "Cannot coerce object to primitive type"
           value (Some "string, number, or boolean") (Some "object")
           (Some "TypeError") None))
  | _ =>
      match type with
      | Tstring =>
          match value with
          | JStr s => Returns (JStr (Str.trim s))
          | _ => Returns (JStr (ToString value))
          end
      | Tnumber =>
          match value with
          | JNum n =>
              if Num.isNaN n || negb (Num.isFinite n) then
                Throws (ThrownValidationError
                  (new_ValidationError "value"
                     "Number value is invalid (NaN or infinite)" value
                     (Some "valid number") None None None))
              else Returns value
          | _ =>
              let numValue := parseFloat (ToString value) in
              if Num.isNaN numValue || negb (Num.isFinite numValue) then
                Throws (ThrownValidationError
                  (new_ValidationError "value" "Cannot coerce to number"
                     value (Some "numeric string") (Some (ToString value))
                     (Some "TypeError") None))
              else Returns (JNum numValue)
          end
      | Tboolean =>
          match value with
          | JBool _ => Returns value
          | _ =>
              let stringValue := Str.trim (Str.toLowerCase (ToString value)) in
              let truthyValues := ["true"; "1"; "yes"; "on"] in
              let falsyValues := ["false"; "0"; "no"; "off"] in
              if Str.includes truthyValues stringValue then Returns (JBool true)
              else if Str.includes falsyValues stringValue then Returns (JBool false)
              else
                Throws (ThrownValidationError
                  (new_ValidationError "value" "Cannot coerce to boolean"
                     value (Some "true/false/1/0/yes/no/on/off")
                     (Some stringValue) (Some "TypeError") None))
          end
      | Tport =>
          match value with
          | JNum n =>
              if Num.isNaN n || negb (Num.isFinite n) then
                Throws (ThrownValidationError
                  (new_ValidationError "value"
                     "Port value is invalid (NaN or infinite)" value
                     (Some "valid number") None None None))
              else Returns value
          | _ =>
              let numValue := parseFloat (ToString value) in
              if Num.isNaN numValue || negb (Num.isFinite numValue) then
                Throws (ThrownValidationError
                  (new_ValidationError "value" "Cannot coerce to port number"
                     value (Some "numeric string") (Some (ToString value))
                     (Some "TypeError") None))
              else Returns (JNum numValue)
          end
      | _ => Returns value
      end
  end.

(** [validateUrl(url, options)] *)
Definition validateUrl (url : jsval) (options : option UrlValidatorOptions)
  : jsval :=
  match url with
  | JStr url =>
      let trimmedUrl := Str.trim url in
      if Str.is_empty trimmedUrl then JStr "URL cannot be empty"
      else
        match URL_parse host trimmedUrl with
        | None => JStr "Invalid URL format"
        | Some parsedUrl =>
            let protocols :=
              match options with
              | Some {| uo_protocols := Some ps |} => ps
              | _ => ["http:"; "https:"; "ftp:"]
              end in
            if negb (Str.includes protocols (url_protocol parsedUrl)) then
              JStr ("Protocol must be one of: " ++ Str.join ", " protocols)
            else if
              negb (match options with
                    | Some {| uo_requireProtocol := Some false |} => true
                    | _ => false
                    end)
              && Str.is_empty (url_protocol parsedUrl)
            then JStr "URL must include protocol (http://, https://, etc.)"
            else if
              negb (Str.is_empty (url_hostname parsedUrl))
              && (253 <? String.length (url_hostname parsedUrl))%nat
            then JStr "Domain name is too long"
            else JBool true
        end
  | _ => JStr "Value must be a string"
  end.

(** [validatePort(port)] *)
Definition validatePort (port : jsval) : jsval :=
  let port :=
    match port with
    | JStr s => JNum (parseInt10 s)
    | _ => port
    end in
  match port with
  | JNum n =>
      if Num.isNaN n then JStr "Port must be a valid number"
      else if negb (Num.isInteger n) || Num.lt n (Num.of_Z 1)
              || Num.gt n (Num.of_Z 65535)
      then JStr "Port must be an integer between 1 and 65535"
      else JBool true
  | _ => JStr "Port must be a valid number"
  end.

Fixpoint count_char (c : ascii) (s : string) : nat :=
  match s with
  | EmptyString => O
  | String a r => ((if Ascii.eqb a c then 1 else 0) + count_char c r)%nat
  end.

(** [validateEmail(email)] *)
Definition validateEmail (email : jsval) : jsval :=
  match email with
  | JStr email =>
      let trimmedEmail := Str.trim email in
      if Str.is_empty trimmedEmail then JStr "Email cannot be empty"
      else if negb (Re.matches Re.emailPattern trimmedEmail) then
        JStr "Invalid email format"
      else if (0 <? count_char " " trimmedEmail)%nat then
        JStr "Email cannot contain spaces"
      else
        let atCount := count_char "@" trimmedEmail in
        if negb (atCount =? 1)%nat then
          JStr "Email must contain exactly one @ symbol"
        else JBool true
  | _ => JStr "Email must be a string"
  end.

(** [validateIp(ip, options)] *)
Definition validateIp (ip : jsval) (options : option IpValidatorOptions)
  : jsval :=
  match ip with
  | JStr ip =>
      let trimmedIp := Str.trim ip in
      if Str.is_empty trimmedIp then JStr "IP cannot be empty"
      else
        let version :=
          or_string (match options with
                     | Some o => io_version o
                     | None => None
                     end) "any" in
        if (String.eqb version "ipv4" || String.eqb version "any")
           && Re.matches Re.ipv4Pattern trimmedIp then JBool true
        else if (String.eqb version "ipv6" || String.eqb version "any")
                && Re.matches Re.ipv6Pattern trimmedIp then JBool true
        else if String.eqb version "ipv4" then
          JStr "Invalid IPv4 address format"
        else if String.eqb version "ipv6" then
          JStr "Invalid IPv6 address format"
        else JStr "Invalid IP address format (must be IPv4 or IPv6)"
  | _ => JStr "IP must be a string"
  end.

(** [validateJson(jsonString)] *)
Definition validateJson (jsonString : jsval) : jsval :=
  match jsonString with
  | JStr jsonString =>
      let trimmedJson := Str.trim jsonString in
      if Str.is_empty trimmedJson then JStr "JSON cannot be empty"
      else
        match JSON_parse host trimmedJson with
        | JsonParsed => JBool true
        | JsonSyntaxError m => JStr ("Invalid JSON format: " ++ m)
        end
  | _ => JStr "JSON must be a string"
  end.

(** [validateRegex(value, pattern)]; with no [pattern] the call of
    [pattern.test] raises a [TypeError]. *)
Definition validateRegex (value : jsval) (pattern : option RegExp)
  : outcome jsval :=
  match value with
  | JStr s =>
      match pattern with
      | None => Throws (ThrownError (undefined_method_message host))
      | Some p =>
          if negb (p s) then
            Returns (JStr "Value does not match the required pattern")
          else Returns (JBool true)
      end
  | _ => Returns (JStr "Value must be a string for regex validation")
  end.

(** [validators.string(value, options)] *)
Definition validators_string (value : jsval)
    (options : option StringValidatorOptions) : jsval :=
  match value with
  | JStr s =>
      let len := Num.of_Z (Z.of_nat (String.length s)) in
      let too_short :=
        match options with
        | Some {| so_minLength := Some m |} =>
            if Num.lt len m then Some m else None
        | _ => None
        end in
      let too_long :=
        match options with
        | Some {| so_maxLength := Some M |} =>
            if Num.gt len M then Some M else None
        | _ => None
        end in
      match too_short, too_long with
      | Some m, _ =>
          JStr ("String must be at least " ++ Number_toString host m
                ++ " characters long")
      | None, Some M =>
          JStr ("String must be no more than " ++ Number_toString host M
                ++ " characters long")
      | None, None => JBool true
      end
  | _ => JStr "Value must be a string"
  end.

(** [validators.number(value, options)] *)
Definition validators_number (value : jsval)
    (options : option NumberValidatorOptions) : jsval :=
  match value with
  | JNum n =>
      if Num.isNaN n then JStr "Value must be a valid number"
      else
        let too_small :=
          match options with
          | Some {| no_min := Some m |} =>
              if Num.lt n m then Some m else None
          | _ => None
          end in
        let too_large :=
          match options with
          | Some {| no_max := Some M |} =>
              if Num.gt n M then Some M else None
          | _ => None
          end in
        match too_small, too_large with
        | Some m, _ =>
            JStr ("Number must be at least " ++ Number_toString host m)
        | None, Some M =>
            JStr ("Number must be no more than " ++ Number_toString host M)
        | None, None => JBool true
        end
  | _ => JStr "Value must be a valid number"
  end.

(** [validators.boolean(value)] *)
Definition validators_boolean (value : jsval) : jsval :=
  match value with
  | JBool _ => JBool true
  | _ => JStr "Value must be a boolean"
  end.

(** [validators[type](value)]: the entry of the collection [validators]
    for a type, called with the value alone, as [validateEnv] does. *)
Definition builtInValidator (type : EnvType) (value : jsval)
  : outcome jsval :=
  match type with
  | Turl => Returns (validateUrl value None)
  | Tport => Returns (validatePort value)
  | Temail => Returns (validateEmail value)
  | Tip => Returns (validateIp value None)
  | Tjson => Returns (validateJson value)
  | Tregex => validateRegex value None
  | Tstring => Returns (validators_string value None)
  | Tnumber => Returns (validators_number value None)
  | Tboolean => Returns (validators_boolean value)
  end.

End Engine.

(* ===================================================================== *)
(** ** Schema definitions and compiled schemas *)
(* ===================================================================== *)

(** The [default] of a field: a value, or a function of no argument, known
    by what a call of it does. *)
Inductive defaultv : Type :=
| DefaultValue (v : jsval)
| DefaultProducer (call : outcome jsval).

(** [d !== undefined] *)
Definition default_defined (d : option defaultv) : bool :=
  match d with
  | None => false
  | Some (DefaultValue v) => negb (is_undefined v)
  | Some (DefaultProducer _) => true
  end.

(** [SchemaDefinition]: the keys of [BaseSchemaDefinition] and the options
    of the nine types, each present or absent.  A [Partial] of it, as an
    environment override, is the same record. *)
Record SchemaDefinition : Type := mkSchemaDefinition {
  def_type : option EnvType;
  def_required : option bool;
  def_default : option defaultv;
  def_enum : option (list jsval);
  def_validate : option userfn;
  def_transform : option userfn;
  def_description : option string;
  def_minLength : option number;
  def_maxLength : option number;
  def_min : option number;
  def_max : option number;
  def_protocols : option (list string);
  def_requireProtocol : option bool;
  def_common : option (list string);
  def_allowPlus : option bool;
  def_version : option string;
  def_pattern : option RegExp
}.

(** What a schema holds under a field name: a definition, or a value that
    is no definition. *)
Inductive SchemaEntry : Type :=
| EntryDefinition (d : SchemaDefinition)
| EntryValue (v : jsval).

(** [EnvironmentOverrides] *)
Definition EnvironmentOverrides : Type := object (object SchemaDefinition).

(** [SchemaWithEnvironments]: the fields in the order of [Object.entries],
    and the block [_environments]. *)
Record SchemaWithEnvironments : Type := mkSchema {
  sch_fields : object SchemaEntry;
  sch_environments : option EnvironmentOverrides
}.

(** [CompiledFieldSchema] *)
Record CompiledFieldSchema : Type := mkCompiledField {
  cf_type : EnvType;
  cf_required : bool;
  cf_default : option defaultv;
  cf_validator : option userfn;
  cf_transform : option userfn;
  cf_enum : option (list jsval);
  cf_description : option string
}.

Definition CompiledSchema : Type := object CompiledFieldSchema.

(** [CompiledSchemaWithEnvironments] *)
Record CompiledSchemaWithEnvironments : Type := mkCompiled {
  schema : CompiledSchema;
  _environments : option EnvironmentOverrides
}.

(** [ValidationErrorResult] *)
Record ValidationErrorResult : Type := mkError {
  err_field : string;
  err_message : string;
  err_value : jsval;
  err_expected : option string;
  err_received : option string;
  err_envVarName : string;
  err_type : ErrorType
}.

Definition ValidatedEnv : Type := object jsval.

(** [ValidationResult] *)
Record ValidationResult : Type := mkResult {
  success : bool;
  data : option ValidatedEnv;
  errors : list ValidationErrorResult;
  hasErrors : bool
}.

(* ===================================================================== *)
(** ** defineSchema *)
(* ===================================================================== *)

Section Compiler.

Variable host : Host.

(** The validator set up for a [validate] key:
    [result === true ? true : result || 'Custom validation failed']. *)
Definition customValidator (validate : userfn) : userfn :=
  fun val =>
    let* result := validate val in
    Returns (if is_true result then JBool true
             else if truthy result then result
             else JStr "Custom validation failed").

(** The shape shared by the type-specific validators: the built-in check
    first, its failure returned, then the validator that was there
    before, if any. *)
Definition checkThen (check : jsval -> outcome jsval)
    (originalValidator : option userfn) : userfn :=
  fun value =>
    let* result := check value in
    if negb (is_true result) then Returns result
    else
      match originalValidator with
      | Some original => original value
      | None => Returns (JBool true)
      end.

(** The validator that the [switch] on the type installs, given the one
    set up before it. *)
Definition typeSpecificValidator (fieldDef : SchemaDefinition)
    (type : EnvType) (validator : option userfn) : option userfn :=
  match type with
  | Tstring =>
      match def_minLength fieldDef, def_maxLength fieldDef with
      | None, None => validator
      | _, _ =>
          Some (checkThen
            (fun value => Returns (validators_string host value
               (Some {| so_minLength := def_minLength fieldDef;
                        so_maxLength := def_maxLength fieldDef |})))
            validator)
      end
  | Tnumber =>
      match def_min fieldDef, def_max fieldDef with
      | None, None => validator
      | _, _ =>
          Some (checkThen
            (fun value => Returns (validators_number host value
               (Some {| no_min := def_min fieldDef;
                        no_max := def_max fieldDef |})))
            validator)
      end
  | Turl =>
      match def_protocols fieldDef, def_requireProtocol fieldDef with
      | None, None => validator
      | _, _ =>
          Some (checkThen
            (fun value => Returns (validateUrl host value
               (Some {| uo_protocols := def_protocols fieldDef;
                        uo_requireProtocol := def_requireProtocol fieldDef |})))
            validator)
      end
  | Tport =>
      match def_common fieldDef with
      | None => validator
      | Some _ =>
          Some (checkThen (fun value => Returns (validatePort value))
                          validator)
      end
  | Temail =>
      match def_allowPlus fieldDef with
      | None => validator
      | Some _ =>
          Some (checkThen (fun value => Returns (validateEmail value))
                          validator)
      end
  | Tip =>
      if some_nonempty (def_version fieldDef) then
        Some (checkThen
          (fun value => Returns (validateIp value
             (Some {| io_version := def_version fieldDef |})))
          validator)
      else validator
  | Tregex =>
      match def_pattern fieldDef with
      | None => validator
      | Some pattern =>
          Some (fun value => validateRegex host value (Some pattern))
      end
  | Tboolean | Tjson => validator
  end.

(** The validator that the [enum] key adds around the one built so
    far. *)
Definition enumValidator (enumValues : list jsval)
    (originalValidator : option userfn) : userfn :=
  fun value =>
    if negb (includes enumValues value) then
      Returns (JStr ("Value must be one of: "
                     ++ join_values host ", " enumValues))
    else
      match originalValidator with
      | Some original => original value
      | None => Returns (JBool true)
      end.

(** The body of the loop of [defineSchema] for one definition that has a
    type. *)
Definition compileField (fieldDef : SchemaDefinition) (type : EnvType)
  : CompiledFieldSchema :=
  let validator0 :=
    match def_validate fieldDef with
    | Some validate => Some (customValidator validate)
    | None => None
    end in
  let validator1 := typeSpecificValidator fieldDef type validator0 in
  let validator2 :=
    match def_enum fieldDef with
    | Some (v :: l) => Some (enumValidator (v :: l) validator1)
    | _ => validator1
    end in
  {| cf_type := type;
     cf_required := match def_required fieldDef with
                    | Some b => b
                    | None => false
                    end;
     cf_default := def_default fieldDef;
     cf_validator := validator2;
     cf_transform := def_transform fieldDef;
     cf_enum := def_enum fieldDef;
     cf_description := def_description fieldDef |}.

Fixpoint compileFields (entries : object SchemaEntry)
    (compiledSchema : CompiledSchema) : outcome CompiledSchema :=
  match entries with
  | [] => Returns compiledSchema
  | (fieldName, entry) :: rest =>
      if String.eqb fieldName "_environments" then
        compileFields rest compiledSchema
      else
        match entry with
        | EntryValue (JObj _) =>
            Throws (ThrownSchemaError
              ("Field " ++ dq ++ fieldName ++ dq ++ " must specify a type")
              fieldName)
        | EntryValue _ =>
            Throws (ThrownSchemaError
              ("Invalid schema definition for field " ++ dq ++ fieldName ++ dq)
              fieldName)
        | EntryDefinition fieldDef =>
            match def_type fieldDef with
            | None =>
                Throws (ThrownSchemaError
                  ("Field " ++ dq ++ fieldName ++ dq ++ " must specify a type")
                  fieldName)
            | Some type =>
                compileFields rest
                  (set compiledSchema fieldName (compileField fieldDef type))
            end
        end
  end.

(** [defineSchema(schema)] *)
Definition defineSchema (schema : SchemaWithEnvironments)
  : outcome CompiledSchemaWithEnvironments :=
  let envOverrides := sch_environments schema in
  let* compiledSchema := compileFields (sch_fields schema) [] in
  Returns {| schema := compiledSchema; _environments := envOverrides |}.

End Compiler.

(* ===================================================================== *)
(** ** validateEnv *)
(* ===================================================================== *)

(** The per-call copy [effectiveSchema] of a compiled field: its seven
    keys, and the keys of a definition that only an override can put
    there. *)
Record EffectiveSchema : Type := mkEffective {
  eff_type : EnvType;
  eff_required : bool;
  eff_default : option defaultv;
  eff_validator : option userfn;
  eff_transform : option userfn;
  eff_enum : option (list jsval);
  eff_description : option string;
  eff_validate : option userfn;
  eff_minLength : option number;
  eff_maxLength : option number;
  eff_min : option number;
  eff_max : option number;
  eff_protocols : option (list string);
  eff_requireProtocol : option bool;
  eff_common : option (list string);
  eff_allowPlus : option bool;
  eff_version : option string;
  eff_pattern : option RegExp
}.

(** [{ ...fieldSchema }] *)
Definition spread (fieldSchema : CompiledFieldSchema) : EffectiveSchema :=
  {| eff_type := cf_type fieldSchema;
     eff_required := cf_required fieldSchema;
     eff_default := cf_default fieldSchema;
     eff_validator := cf_validator fieldSchema;
     eff_transform := cf_transform fieldSchema;
     eff_enum := cf_enum fieldSchema;
     eff_description := cf_description fieldSchema;
     eff_validate := None;
     eff_minLength := None;
     eff_maxLength := None;
     eff_min := None;
     eff_max := None;
     eff_protocols := None;
     eff_requireProtocol := None;
     eff_common := None;
     eff_allowPlus := None;
     eff_version := None;
     eff_pattern := None |}.

(** A key of the source of [Object.assign] replaces the target's when it is
    present. *)
Definition assigned {A : Type} (target source : option A) : option A :=
  match source with
  | Some a => Some a
  | None => target
  end.

Definition assigned_or {A : Type} (target : A) (source : option A) : A :=
  match source with
  | Some a => a
  | None => target
  end.

(** [Object.assign(effectiveSchema, override)] *)
Definition assign (e : EffectiveSchema) (o : SchemaDefinition)
  : EffectiveSchema :=
  {| eff_type := assigned_or (eff_type e) (def_type o);
     eff_required := assigned_or (eff_required e) (def_required o);
     eff_default := assigned (eff_default e) (def_default o);
     eff_validator := eff_validator e;
     eff_transform := assigned (eff_transform e) (def_transform o);
     eff_enum := assigned (eff_enum e) (def_enum o);
     eff_description := assigned (eff_description e) (def_description o);
     eff_validate := assigned (eff_validate e) (def_validate o);
     eff_minLength := assigned (eff_minLength e) (def_minLength o);
     eff_maxLength := assigned (eff_maxLength e) (def_maxLength o);
     eff_min := assigned (eff_min e) (def_min o);
     eff_max := assigned (eff_max e) (def_max o);
     eff_protocols := assigned (eff_protocols e) (def_protocols o);
     eff_requireProtocol :=
       assigned (eff_requireProtocol e) (def_requireProtocol o);
     eff_common := assigned (eff_common e) (def_common o);
     eff_allowPlus := assigned (eff_allowPlus e) (def_allowPlus o);
     eff_version := assigned (eff_version e) (def_version o);
     eff_pattern := assigned (eff_pattern e) (def_pattern o) |}.

Section Validation.

Variable host : Host.

(** The two accumulators of [validateEnv]. *)
Definition accumulators : Type :=
  (list ValidationErrorResult * ValidatedEnv)%type.

Definition push (acc : accumulators) (e : ValidationErrorResult)
  : accumulators :=
  ((fst acc ++ [e])%list, snd acc).

(** [environment && compiledSchema._environments?.[environment] || {}] *)
Definition resolveOverrides (compiledSchema : CompiledSchemaWithEnvironments)
    (environment : option string) : object SchemaDefinition :=
  if some_nonempty environment then
    match environment, _environments compiledSchema with
    | Some name, Some table =>
        match get table name with
        | Some block => block
        | None => []
        end
    | _, _ => []
    end
  else [].

(** The copy of the field with the override of the environment merged
    in. *)
Definition effectiveSchemaOf (envOverrides : object SchemaDefinition)
    (fieldName : string) (fieldSchema : CompiledFieldSchema)
  : EffectiveSchema :=
  let effectiveSchema := spread fieldSchema in
  match get envOverrides fieldName with
  | Some override => assign effectiveSchema override
  | None => effectiveSchema
  end.

(** [typeof r === 'string' ? r : fallback] *)
Definition string_or (r : jsval) (fallback : string) : string :=
  match r with
  | JStr s => s
  | _ => fallback
  end.

(** The [catch] clause that closes the [try] block. *)
Definition caught (fieldName envVarName : string) (value : jsval)
    (error : exn) : ValidationErrorResult :=
  match error with
  | ThrownValidationError error =>
      {| err_field := ve_field error;
         err_message := ve_message error;
         err_value := ve_value error;
         err_expected := ve_expected error;
         err_received := ve_received error;
         err_envVarName := ve_envVarName error;
         err_type := ve_type error |}
  | _ =>
      {| err_field := fieldName;
         err_message := message_or error "Unknown error during validation";
         err_value := value;
         err_expected := None;
         err_received := None;
         err_envVarName := envVarName;
         err_type := TypeError |}
  end.

(** [['string', 'number', 'boolean', 'port'].includes(type)] *)
Definition coercible (type : EnvType) : bool :=
  match type with
  | Tstring | Tnumber | Tboolean | Tport => true
  | _ => false
  end.

(** The [try] block with its [catch]: coercion, transform, built-in
    validator, the field's validator, and the value written to
    [validatedData].  [value] is the variable of that name, read by the
    [catch] clause as it stands when the exception is thrown. *)
Definition tryBlock (fieldName envVarName : string)
    (effectiveSchema : EffectiveSchema) (value : jsval)
    (acc : accumulators) : accumulators :=
  match (if coercible (eff_type effectiveSchema)
         then coerceValue host value (eff_type effectiveSchema)
         else Returns value) with
  | Throws error => push acc (caught fieldName envVarName value error)
  | Returns value =>
      match (match eff_transform effectiveSchema with
             | Some transform => transform value
             | None => Returns value
             end) with
      | Throws error =>
          push acc
            {| err_field := fieldName;
               err_message :=
                 "Transform failed: " ++ message_or error "Unknown error";
               err_value := value;
               err_expected := None;
               err_received := None;
               err_envVarName := envVarName;
               err_type := TransformError |}
      | Returns value =>
          match builtInValidator host (eff_type effectiveSchema) value with
          | Throws error => push acc (caught fieldName envVarName value error)
          | Returns validatorResult =>
              if negb (is_true validatorResult) then
                push acc
                  {| err_field := fieldName;
                     err_message :=
                       string_or validatorResult "Validation failed";
                     err_value := value;
                     err_expected := None;
                     err_received := None;
                     err_envVarName := envVarName;
                     err_type := FormatError |}
              else
                match (match eff_validator effectiveSchema with
                       | Some validator => validator value
                       | None => Returns (JBool true)
                       end) with
                | Throws error =>
                    push acc (caught fieldName envVarName value error)
                | Returns validatorResult =>
                    if negb (is_true validatorResult) then
                      push acc
                        {| err_field := fieldName;
                           err_message :=
                             string_or validatorResult
                                       "Custom validation failed";
                           err_value := value;
                           err_expected := None;
                           err_received := None;
                           err_envVarName := envVarName;
                           err_type := FormatError |}
                    else (fst acc, set (snd acc) fieldName value)
                end
          end
      end
  end.

(** [typeof d === 'function' ? d() : d] *)
Definition invokeDefault (d : option defaultv) : outcome jsval :=
  match d with
  | Some (DefaultProducer call) => call
  | Some (DefaultValue v) => Returns v
  | None => Returns JUndefined
  end.

(** One turn of the loop over the fields.  A [default] producer is called
    before the [try] block, so what it throws leaves [validateEnv]. *)
Definition validateField (envOverrides : object SchemaDefinition)
    (env : envmap) (acc : accumulators)
    (fieldName : string) (fieldSchema : CompiledFieldSchema)
  : outcome accumulators :=
  let effectiveSchema := effectiveSchemaOf envOverrides fieldName fieldSchema in
  let envVarName := Str.toUpperCase fieldName in
  let value := env_get env envVarName in
  if is_undefined value then
    if eff_required effectiveSchema then
      Returns (push acc
        {| err_field := fieldName;
           err_message :=
             "Required environment variable " ++ dq ++ envVarName ++ dq
             ++ " is missing";
           err_value := JUndefined;
           err_expected := None;
           err_received := None;
           err_envVarName := envVarName;
           err_type := RequiredError |})
    else if default_defined (eff_default effectiveSchema) then
      let* value := invokeDefault (eff_default effectiveSchema) in
      Returns (tryBlock fieldName envVarName effectiveSchema value acc)
    else Returns acc
  else Returns (tryBlock fieldName envVarName effectiveSchema value acc).

Fixpoint validateFields (envOverrides : object SchemaDefinition)
    (env : envmap) (entries : CompiledSchema) (acc : accumulators)
  : outcome accumulators :=
  match entries with
  | [] => Returns acc
  | (fieldName, fieldSchema) :: rest =>
      let* acc := validateField envOverrides env acc fieldName fieldSchema in
      validateFields envOverrides env rest acc
  end.

(** [errors.length === 0] *)
Definition is_nil {A : Type} (l : list A) : bool :=
  match l with [] => true | _ => false end.

(** [validateEnv(compiledSchema, envVars, environment)] *)
Definition validateEnv (compiledSchema : CompiledSchemaWithEnvironments)
    (envVars : option envmap) (environment : option string)
  : outcome ValidationResult :=
  let env := match envVars with
             | Some e => e
             | None => process_env host
             end in
  let envOverrides := resolveOverrides compiledSchema environment in
  let* acc := validateFields envOverrides env (schema compiledSchema) ([], []) in
  let '(errors, validatedData) := acc in
  Returns {| success := is_nil errors;
             data := if is_nil errors then Some validatedData else None;
             errors := errors;
             hasErrors := negb (is_nil errors) |}.

End Validation.

(* ===================================================================== *)
(** ** Writing schemas *)
(* ===================================================================== *)

(** The definition with no key, and the definitions obtained by giving a
    value to one key of a definition. *)
Definition emptyDefinition : SchemaDefinition :=
  {| def_type := None; def_required := None; def_default := None;
     def_enum := None; def_validate := None; def_transform := None;
     def_description := None; def_minLength := None; def_maxLength := None;
     def_min := None; def_max := None; def_protocols := None;
     def_requireProtocol := None; def_common := None; def_allowPlus := None;
     def_version := None; def_pattern := None |}.

Definition with_type (d : SchemaDefinition) (x : option EnvType) :=
  {| def_type := x; def_required := def_required d;
     def_default := def_default d; def_enum := def_enum d;
     def_validate := def_validate d; def_transform := def_transform d;
     def_description := def_description d; def_minLength := def_minLength d;
     def_maxLength := def_maxLength d; def_min := def_min d;
     def_max := def_max d; def_protocols := def_protocols d;
     def_requireProtocol := def_requireProtocol d; def_common := def_common d;
     def_allowPlus := def_allowPlus d; def_version := def_version d;
     def_pattern := def_pattern d |}.

Definition with_required (d : SchemaDefinition) (x : option bool) :=
  {| def_type := def_type d; def_required := x;
     def_default := def_default d; def_enum := def_enum d;
     def_validate := def_validate d; def_transform := def_transform d;
     def_description := def_description d; def_minLength := def_minLength d;
     def_maxLength := def_maxLength d; def_min := def_min d;
     def_max := def_max d; def_protocols := def_protocols d;
     def_requireProtocol := def_requireProtocol d; def_common := def_common d;
     def_allowPlus := def_allowPlus d; def_version := def_version d;
     def_pattern := def_pattern d |}.

Definition with_default (d : SchemaDefinition) (x : option defaultv) :=
  {| def_type := def_type d; def_required := def_required d;
     def_default := x; def_enum := def_enum d;
     def_validate := def_validate d; def_transform := def_transform d;
     def_description := def_description d; def_minLength := def_minLength d;
     def_maxLength := def_maxLength d; def_min := def_min d;
     def_max := def_max d; def_protocols := def_protocols d;
     def_requireProtocol := def_requireProtocol d; def_common := def_common d;
     def_allowPlus := def_allowPlus d; def_version := def_version d;
     def_pattern := def_pattern d |}.

Definition with_enum (d : SchemaDefinition) (x : option (list jsval)) :=
  {| def_type := def_type d; def_required := def_required d;
     def_default := def_default d; def_enum := x;
     def_validate := def_validate d; def_transform := def_transform d;
     def_description := def_description d; def_minLength := def_minLength d;
     def_maxLength := def_maxLength d; def_min := def_min d;
     def_max := def_max d; def_protocols := def_protocols d;
     def_requireProtocol := def_requireProtocol d; def_common := def_common d;
     def_allowPlus := def_allowPlus d; def_version := def_version d;
     def_pattern := def_pattern d |}.

Definition with_validate (d : SchemaDefinition) (x : option userfn) :=
  {| def_type := def_type d; def_required := def_required d;
     def_default := def_default d; def_enum := def_enum d;
     def_validate := x; def_transform := def_transform d;
     def_description := def_description d; def_minLength := def_minLength d;
     def_maxLength := def_maxLength d; def_min := def_min d;
     def_max := def_max d; def_protocols := def_protocols d;
     def_requireProtocol := def_requireProtocol d; def_common := def_common d;
     def_allowPlus := def_allowPlus d; def_version := def_version d;
     def_pattern := def_pattern d |}.

Definition with_pattern (d : SchemaDefinition) (x : option RegExp) :=
  {| def_type := def_type d; def_required := def_required d;
     def_default := def_default d; def_enum := def_enum d;
     def_validate := def_validate d; def_transform := def_transform d;
     def_description := def_description d; def_minLength := def_minLength d;
     def_maxLength := def_maxLength d; def_min := def_min d;
     def_max := def_max d; def_protocols := def_protocols d;
     def_requireProtocol := def_requireProtocol d; def_common := def_common d;
     def_allowPlus := def_allowPlus d; def_version := def_version d;
     def_pattern := x |}.

(** [{ type: t }] *)
Definition field (t : EnvType) : SchemaDefinition :=
  with_type emptyDefinition (Some t).

(* ===================================================================== *)
(** ** A host to run the engine on concrete inputs *)
(* ===================================================================== *)

Module Sample.

(** *** Printing a number *)

(** For [v = m * 2 ^ e]: the quotient and the remainder of [v] by
    [10 ^ scale], with the divisor, all as integers. *)
Definition scaled (m : positive) (e scale : Z) : Z * Z * Z :=
  let A := Zpos m * 2 ^ (Z.max e 0) * 10 ^ (Z.max (- scale) 0) in
  let B := 2 ^ (Z.max (- e) 0) * 10 ^ (Z.max scale 0) in
  (A / B, A mod B, B).

(** The [n] with [10 ^ (n - 1) <= v < 10 ^ n], reached from a guess. *)
Fixpoint magnitude (fuel : nat) (m : positive) (e n : Z) : Z :=
  match fuel with
  | O => n
  | S fuel' =>
      let '(q, _, _) := scaled m e (n - 1) in
      if q =? 0 then magnitude fuel' m e (n - 1)
      else if 10 <=? q then magnitude fuel' m e (n + 1)
      else n
  end.

Definition digits_of (z : Z) : string :=
  NilZero.string_of_uint (N.to_uint (Z.to_N z)).

Fixpoint strip_zeros_rev (s : list ascii) : list ascii :=
  match s with
  | "0"%char :: r => strip_zeros_rev r
  | _ => s
  end.

Definition strip_trailing_zeros (s : string) : string :=
  string_of_list_ascii
    (rev (strip_zeros_rev (rev (list_ascii_of_string s)))).

Fixpoint zeros (n : nat) : string :=
  match n with
  | O => EmptyString
  | S n' => String "0" (zeros n')
  end.

(** The shortest digits [s] and the [n] with [s * 10 ^ (n - k)] read back
    as [x], for [k] digits from [k0] on; of two candidates the closer
    one, and the even one when they are as close. *)
Fixpoint shortest (fuel : nat) (m : positive) (e n k : Z) : string * Z :=
  let scale := n - k in
  let '(q, r, B) := scaled m e scale in
  let x := S754_finite false m e in
  let reads_back s := SFeqb (Num.of_decimal false s scale) x in
  let pick s :=
    if s =? 10 ^ k then ("1", n + 1)
    else (strip_trailing_zeros (digits_of s), n) in
  match fuel with
  | O => pick q
  | S fuel' =>
      match reads_back q && (0 <? q), reads_back (q + 1) with
      | true, true =>
          match 2 * r ?= B with
          | Lt => pick q
          | Gt => pick (q + 1)
          | Eq => if Z.even q then pick q else pick (q + 1)
          end
      | true, false => pick q
      | false, true => pick (q + 1)
      | false, false => shortest fuel' m e n (k + 1)
      end
  end.

Definition substring_from (n : nat) (s : string) : string :=
  String.substring n (String.length s - n) s.

(** Number::toString of ECMAScript, radix 10. *)
Definition Number_toString (x : number) : string :=
  match x with
  | S754_nan => "NaN"
  | S754_zero _ => "0"
  | S754_infinity neg => if neg then "-Infinity" else "Infinity"
  | S754_finite neg m e =>
      let guess := (Zpos (digits2_pos m) + e) * 30103 / 100000 + 1 in
      let n0 := magnitude 8 m e guess in
      let '(ds, n) := shortest 17 m e n0 1 in
      let k := Z.of_nat (String.length ds) in
      let body :=
        if (k <=? n) && (n <=? 21) then ds ++ zeros (Z.to_nat (n - k))
        else if (0 <? n) && (n <=? 21) then
          String.substring 0 (Z.to_nat n) ds ++ "."
          ++ substring_from (Z.to_nat n) ds
        else if (-6 <? n) && (n <=? 0) then
          "0." ++ zeros (Z.to_nat (- n)) ++ ds
        else
          let sign := if 0 <=? n - 1 then "+" else "-" in
          let mantissa :=
            if k =? 1 then ds
            else String.substring 0 1 ds ++ "." ++ substring_from 1 ds in
          mantissa ++ "e" ++ sign ++ digits_of (Z.abs (n - 1)) in
      if neg then "-" ++ body else body
  end.

(** *** Parsing a URL *)

Definition scheme_char (c : ascii) : bool :=
  Re.alnum c || Re.one_of "+-." c.

Definition host_char (c : ascii) : bool :=
  Re.alnum c || Re.one_of "-." c.

(** The absolute URLs [scheme://host], with an optional [:port] and an
    optional path, query or fragment; the scheme and the host are
    lower-cased.  Every other string is refused. *)
Definition URL_parse (s : string) : option URL :=
  let '(scheme, r) := Str.span scheme_char s in
  match scheme, Str.strip_prefix "://" r with
  | String c _, Some r1 =>
      if Str.is_lower c || Str.is_upper c then
        let '(hostname, r2) := Str.span host_char r1 in
        let r3 :=
          match r2 with
          | String ":" p => snd (Str.span Str.is_digit p)
          | _ => r2
          end in
        let ends :=
          match r3 with
          | EmptyString => true
          | String c' _ => Re.one_of "/?#" c'
          end in
        if negb (Str.is_empty hostname) && ends then
          Some {| url_scheme := Str.toLowerCase scheme;
                  url_hostname := Str.toLowerCase hostname |}
        else None
      else None
  | _, _ => None
  end.

(** *** Parsing JSON *)

Definition quote : ascii := ascii_of_nat 34.

Definition json_space (c : ascii) : bool :=
  Re.one_of (String (ascii_of_nat 9) (String (ascii_of_nat 10)
            (String (ascii_of_nat 13) " "))) c.

Definition skip_space (s : string) : string := snd (Str.span json_space s).

(** The characters of a string after its opening quote; [Some] of what
    follows the closing quote. *)
Fixpoint json_chars (s : string) : option string :=
  match s with
  | EmptyString => None
  | String c r =>
      if Ascii.eqb c quote then Some r
      else if Ascii.eqb c "\" then
        match r with
        | String "u" (String a (String b (String c' (String d r')))) =>
            if Re.hex a && Re.hex b && Re.hex c' && Re.hex d
            then json_chars r' else None
        | String e r' =>
            if Ascii.eqb e quote || Re.one_of "\/bfnrt" e
            then json_chars r' else None
        | EmptyString => None
        end
      else if (nat_of_ascii c <? 32)%nat then None
      else json_chars r
  end.

Definition json_number (s : string) : option string :=
  let s1 := match s with String "-" r => r | _ => s end in
  let '(ip, s2) := Str.span Str.is_digit s1 in
  match ip with
  | EmptyString => None
  | String "0" (String _ _) => None
  | _ =>
      let after_fraction :=
        match s2 with
        | String "." r =>
            let '(fp, r') := Str.span Str.is_digit r in
            if Str.is_empty fp then None else Some r'
        | _ => Some s2
        end in
      match after_fraction with
      | Some (String c r as s3) =>
          if Ascii.eqb c "e" || Ascii.eqb c "E" then
            let r1 := match r with
                      | String "+" r' | String "-" r' => r'
                      | _ => r
                      end in
            let '(ds, r2) := Str.span Str.is_digit r1 in
            if Str.is_empty ds then None else Some r2
          else Some s3
      | other => other
      end
  end.

(** A JSON value at the start of [s]; [Some] of what follows it. *)
Fixpoint json_value (fuel : nat) (s : string) : option string :=
  match fuel with
  | O => None
  | S fuel' =>
      let elements :=
        fix elements (n : nat) (s : string) : option string :=
          match n with
          | O => None
          | S n' =>
              match json_value fuel' (skip_space s) with
              | Some r =>
                  match skip_space r with
                  | String "," r' => elements n' r'
                  | String "]" r' => Some r'
                  | _ => None
                  end
              | None => None
              end
          end in
      let members :=
        fix members (n : nat) (s : string) : option string :=
          match n with
          | O => None
          | S n' =>
              match skip_space s with
              | String c r =>
                  if Ascii.eqb c quote then
                    match json_chars r with
                    | Some r1 =>
                        match skip_space r1 with
                        | String ":" r2 =>
                            match json_value fuel' (skip_space r2) with
                            | Some r3 =>
                                match skip_space r3 with
                                | String "," r' => members n' r'
                                | String "}" r' => Some r'
                                | _ => None
                                end
                            | None => None
                            end
                        | _ => None
                        end
                    | None => None
                    end
                  else None
              | EmptyString => None
              end
          end in
      match s with
      | String "[" r =>
          match skip_space r with
          | String "]" r' => Some r'
          | _ => elements (String.length s) r
          end
      | String "{" r =>
          match skip_space r with
          | String "}" r' => Some r'
          | _ => members (String.length s) r
          end
      | String c r =>
          if Ascii.eqb c quote then json_chars r
          else
            match Str.strip_prefix "true" s, Str.strip_prefix "false" s,
                  Str.strip_prefix "null" s with
            | Some r', _, _ | _, Some r', _ | _, _, Some r' => Some r'
            | None, None, None => json_number s
            end
      | EmptyString => None
      end
  end.

(** [JSON.parse]; the message of the [SyntaxError] is the same for every
    text that is not JSON. *)
Definition JSON_parse (s : string) : json_result :=
  match json_value (S (String.length s)) (skip_space s) with
  | Some r =>
      if Str.is_empty (skip_space r) then JsonParsed
      else JsonSyntaxError "Unexpected token in JSON"
  | None => JsonSyntaxError "Unexpected token in JSON"
  end.

Definition host : Host :=
  mkHost Number_toString
         (fun _ => "[object Object]")
         URL_parse
         JSON_parse
         "Cannot read properties of undefined (reading 'test')"
         [].

End Sample.

(* ===================================================================== *)
(** ** Vocabulary of the statements *)
(* ===================================================================== *)

(** [validator ? validator(value) : true] *)
Definition callValidator (validator : option userfn) (value : jsval)
  : outcome jsval :=
  match validator with
  | Some validator => validator value
  | None => Returns (JBool true)
  end.

(** The first two stages of the [try] block: coercion, then transform. *)
Definition coerced_value (host : Host) (effectiveSchema : EffectiveSchema)
    (value : jsval) : outcome jsval :=
  if coercible (eff_type effectiveSchema)
  then coerceValue host value (eff_type effectiveSchema)
  else Returns value.

Definition transformed_value (effectiveSchema : EffectiveSchema)
    (value : jsval) : outcome jsval :=
  match eff_transform effectiveSchema with
  | Some transform => transform value
  | None => Returns value
  end.

(** Every stage of the [try] block lets [value] through, and [final] is
    what is left of it after coercion and transform. *)
Definition all_stages_pass (host : Host) (effectiveSchema : EffectiveSchema)
    (value final : jsval) : Prop :=
  exists coerced,
    coerced_value host effectiveSchema value = Returns coerced
    /\ transformed_value effectiveSchema coerced = Returns final
    /\ builtInValidator host (eff_type effectiveSchema) final
       = Returns (JBool true)
    /\ callValidator (eff_validator effectiveSchema) final
       = Returns (JBool true).

(** The error of a required variable that is missing. *)
Definition missing (fieldName : string) : ValidationErrorResult :=
  {| err_field := fieldName;
     err_message :=
       "Required environment variable " ++ dq ++ Str.toUpperCase fieldName
       ++ dq ++ " is missing";
     err_value := JUndefined;
     err_expected := None;
     err_received := None;
     err_envVarName := Str.toUpperCase fieldName;
     err_type := RequiredError |}.

(** The error recorded for a transform that throws [error] on [value]. *)
Definition transform_error (fieldName envVarName : string) (value : jsval)
    (error : exn) : ValidationErrorResult :=
  {| err_field := fieldName;
     err_message := "Transform failed: " ++ message_or error "Unknown error";
     err_value := value;
     err_expected := None;
     err_received := None;
     err_envVarName := envVarName;
     err_type := TransformError |}.

(** The error recorded for a validator that answers [validatorResult], not
    [true], on [value]. *)
Definition format_error (fieldName envVarName : string) (value : jsval)
    (validatorResult : jsval) (fallback : string) : ValidationErrorResult :=
  {| err_field := fieldName;
     err_message := string_or validatorResult fallback;
     err_value := value;
     err_expected := None;
     err_received := None;
     err_envVarName := envVarName;
     err_type := FormatError |}.

(** The error that [coerceValue] throws for a string that gives no finite
    number. *)
Definition cannot_coerce (host : Host) (type : EnvType) (value : jsval) : exn :=
  ThrownValidationError
    (new_ValidationError "value"
       (match type with
        | Tport => "Cannot coerce to port number"
        | _ => "Cannot coerce to number"
        end)
       value (Some "numeric string") (Some (ToString host value))
       (Some "TypeError") None).

(** The result of a call that accepted the values [validatedData]. *)
Definition accepted (validatedData : ValidatedEnv) : ValidationResult :=
  {| success := true; data := Some validatedData; errors := [];
     hasErrors := false |}.

(** The result of a call that recorded the errors [errs], of which there
    is one at least. *)
Definition rejected (errs : list ValidationErrorResult) : ValidationResult :=
  {| success := false; data := None; errors := errs; hasErrors := true |}.

(** The keys of [effectiveSchema] that [validateEnv] reads. *)
Definition reads_same (a b : EffectiveSchema) : Prop :=
  eff_type a = eff_type b
  /\ eff_required a = eff_required b
  /\ eff_default a = eff_default b
  /\ eff_validator a = eff_validator b
  /\ eff_transform a = eff_transform b.

(** An optional key of an override, or of no override. *)
Definition override_key {A : Type} (key : SchemaDefinition -> option A)
    (override : option SchemaDefinition) : option A :=
  match override with
  | Some o => key o
  | None => None
  end.

(** Two overrides of a field, each there or not, that give the same keys
    to [Object.assign] when the key [validate] is left aside. *)
Definition same_but_validate (a b : option SchemaDefinition) : Prop :=
  override_key def_type a = override_key def_type b
  /\ override_key def_required a = override_key def_required b
  /\ override_key def_default a = override_key def_default b
  /\ override_key def_enum a = override_key def_enum b
  /\ override_key def_transform a = override_key def_transform b
  /\ override_key def_description a = override_key def_description b
  /\ override_key def_minLength a = override_key def_minLength b
  /\ override_key def_maxLength a = override_key def_maxLength b
  /\ override_key def_min a = override_key def_min b
  /\ override_key def_max a = override_key def_max b
  /\ override_key def_protocols a = override_key def_protocols b
  /\ override_key def_requireProtocol a = override_key def_requireProtocol b
  /\ override_key def_common a = override_key def_common b
  /\ override_key def_allowPlus a = override_key def_allowPlus b
  /\ override_key def_version a = override_key def_version b
  /\ override_key def_pattern a = override_key def_pattern b.

(** [options] with the key [requireProtocol] set, or removed. *)
Definition set_requireProtocol (options : option UrlValidatorOptions)
    (requireProtocol : option bool) : option UrlValidatorOptions :=
  Some {| uo_protocols := match options with
                          | Some o => uo_protocols o
                          | None => None
                          end;
          uo_requireProtocol := requireProtocol |}.

(** The built-in check that the [switch] of [defineSchema] puts in front of
    the validator of a field whose type is not [regex]. *)
Definition typeSpecificCheck (host : Host) (fieldDef : SchemaDefinition)
    (type : EnvType) : option (jsval -> jsval) :=
  match type with
  | Tstring =>
      match def_minLength fieldDef, def_maxLength fieldDef with
      | None, None => None
      | _, _ =>
          Some (fun value => validators_string host value
                  (Some {| so_minLength := def_minLength fieldDef;
                           so_maxLength := def_maxLength fieldDef |}))
      end
  | Tnumber =>
      match def_min fieldDef, def_max fieldDef with
      | None, None => None
      | _, _ =>
          Some (fun value => validators_number host value
                  (Some {| no_min := def_min fieldDef;
                           no_max := def_max fieldDef |}))
      end
  | Turl =>
      match def_protocols fieldDef, def_requireProtocol fieldDef with
      | None, None => None
      | _, _ =>
          Some (fun value => validateUrl host value
                  (Some {| uo_protocols := def_protocols fieldDef;
                           uo_requireProtocol := def_requireProtocol fieldDef |}))
      end
  | Tport =>
      match def_common fieldDef with
      | None => None
      | Some _ => Some validatePort
      end
  | Temail =>
      match def_allowPlus fieldDef with
      | None => None
      | Some _ => Some validateEmail
      end
  | Tip =>
      if some_nonempty (def_version fieldDef) then
        Some (fun value => validateIp value
                (Some {| io_version := def_version fieldDef |}))
      else None
  | Tregex | Tboolean | Tjson => None
  end.

(** The types that [coerceValue] turns into a number. *)
Definition numeric_target (type : EnvType) : bool :=
  match type with
  | Tnumber | Tport => true
  | _ => false
  end.

(** [t] is empty or starts with a character that [p] refuses. *)
Definition stops (p : ascii -> bool) (t : string) : Prop :=
  match t with
  | EmptyString => True
  | String c _ => p c = false
  end.

(** The errors [added] that the stages of the [try] block leave for the
    working value [value] of a field: the error of the first stage that
    fails (a coercion that throws, a transform that throws, a built-in
    validator that throws or refuses, a field validator that throws or
    refuses), and none when every stage passes. *)
Definition stage_report (host : Host) (fieldName envVarName : string)
    (effectiveSchema : EffectiveSchema) (value : jsval)
    (added : list ValidationErrorResult) : Prop :=
  (forall e,
     coerced_value host effectiveSchema value = Throws e ->
     added = [caught fieldName envVarName value e])
  /\ forall coerced,
       coerced_value host effectiveSchema value = Returns coerced ->
       (forall e,
          transformed_value effectiveSchema coerced = Throws e ->
          added = [transform_error fieldName envVarName coerced e])
       /\ forall final,
            transformed_value effectiveSchema coerced = Returns final ->
            (forall e,
               builtInValidator host (eff_type effectiveSchema) final
               = Throws e ->
               added = [caught fieldName envVarName final e])
            /\ (forall r,
                  builtInValidator host (eff_type effectiveSchema) final
                  = Returns r ->
                  r <> JBool true ->
                  added = [format_error fieldName envVarName final r
                             "Validation failed"])
            /\ (builtInValidator host (eff_type effectiveSchema) final
                = Returns (JBool true) ->
                (forall e,
                   callValidator (eff_validator effectiveSchema) final
                   = Throws e ->
                   added = [caught fieldName envVarName final e])
                /\ (forall r,
                      callValidator (eff_validator effectiveSchema) final
                      = Returns r ->
                      r <> JBool true ->
                      added = [format_error fieldName envVarName final r
                                 "Custom validation failed"])
                /\ (callValidator (eff_validator effectiveSchema) final
                    = Returns (JBool true) ->
                    added = [])).

(** The errors [added] that a field of the schema leaves in the result:
    one at most; that of a required variable that is missing; none for a
    missing variable with neither requirement nor default; otherwise what
    the stages make of the variable, or of the default that stands for
    it. *)
Definition field_report (host : Host) (envOverrides : object SchemaDefinition)
    (env : envmap) (entry : string * CompiledFieldSchema)
    (added : list ValidationErrorResult) : Prop :=
  let fieldName := fst entry in
  let effectiveSchema := effectiveSchemaOf envOverrides fieldName (snd entry) in
  let envVarName := Str.toUpperCase fieldName in
  let variable := env_get env envVarName in
  (length added <= 1)%nat
  /\ (variable <> JUndefined ->
      stage_report host fieldName envVarName effectiveSchema variable added)
  /\ (variable = JUndefined ->
      (eff_required effectiveSchema = true -> added = [missing fieldName])
      /\ (eff_required effectiveSchema = false ->
          (default_defined (eff_default effectiveSchema) = false ->
           added = [])
          /\ (default_defined (eff_default effectiveSchema) = true ->
              forall value,
                invokeDefault (eff_default effectiveSchema) = Returns value ->
                stage_report host fieldName envVarName effectiveSchema value
                             added))).

(* ===================================================================== *)
(** ** Two readings of the specification *)
(* ===================================================================== *)

(** The pipeline that the specification gives to a default: from the
    transform stage on, with neither [coerceValue] nor the built-in
    validator of the type. *)
Definition spec_defaultFromTransform (fieldName envVarName : string)
    (effectiveSchema : EffectiveSchema) (value : jsval) (acc : accumulators)
  : accumulators :=
  match transformed_value effectiveSchema value with
  | Throws error => push acc (transform_error fieldName envVarName value error)
  | Returns value =>
      match callValidator (eff_validator effectiveSchema) value with
      | Throws error => push acc (caught fieldName envVarName value error)
      | Returns validatorResult =>
          if negb (is_true validatorResult) then
            push acc (format_error fieldName envVarName value validatorResult
                        "Custom validation failed")
          else (fst acc, set (snd acc) fieldName value)
      end
  end.

(** The order that the specification gives to the checks of a field with
    an [enum] and a [validate]: membership in the enum, then the check of
    the type, then the custom predicate. *)
Definition spec_enumTypeCustom (host : Host) (enumValues : list jsval)
    (check : option (jsval -> outcome jsval)) (validate : userfn) : userfn :=
  fun value =>
    if negb (includes enumValues value) then
      Returns (JStr ("Value must be one of: "
                     ++ join_values host ", " enumValues))
    else
      match check with
      | Some check =>
          let* result := check value in
          if negb (is_true result) then Returns result
          else customValidator validate value
      | None => customValidator validate value
      end.

(* ===================================================================== *)
(** ** Schemas and inputs of the examples *)
(* ===================================================================== *)

(** [{ schema: { PORT: {type:'port'}, DEBUG: {type:'boolean'} } }] *)
Definition port_and_debug : CompiledSchemaWithEnvironments :=
  {| schema := [("PORT", compileField Sample.host (field Tport) Tport);
                ("DEBUG", compileField Sample.host (field Tboolean) Tboolean)];
     _environments := None |}.

(** [{ PORT: '3000', DEBUG: 'maybe' }] *)
Definition port_ok_debug_bad : envmap :=
  [("PORT", JStr "3000"); ("DEBUG", JStr "maybe")].

(** The error that the value ['maybe'] of a boolean field leaves in the
    result. *)
Definition debug_maybe : ValidationErrorResult :=
  {| err_field := "value";
     err_message := "Cannot coerce to boolean";
     err_value := JStr "maybe";
     err_expected := Some "true/false/1/0/yes/no/on/off";
     err_received := Some "maybe";
     err_envVarName := "TypeError";
     err_type := FormatError |}.

(** [{ required: true }] *)
Definition required_override : SchemaDefinition :=
  with_required emptyDefinition (Some true).

(** [{ DATABASE_URL: definition,
       _environments: { production: { DATABASE_URL: { required: true } } } }] *)
Definition database_url_schema (definition : SchemaDefinition)
  : SchemaWithEnvironments :=
  {| sch_fields := [("DATABASE_URL", EntryDefinition definition)];
     sch_environments :=
       Some [("production", [("DATABASE_URL", required_override)])] |}.

(** [{ schema: { PORT: {type:'number'} } }] *)
Definition port_number (host : Host) : CompiledSchemaWithEnvironments :=
  {| schema := [("PORT", compileField host (field Tnumber) Tnumber)];
     _environments := None |}.

(** [{ type: 'number', default: '8080' }], compiled. *)
Definition number_default_8080 : CompiledFieldSchema :=
  compileField Sample.host
    (with_default (field Tnumber) (Some (DefaultValue (JStr "8080"))))
    Tnumber.

(** A predicate that refuses every value: [() => 'never']. *)
Definition refuse_all : userfn := fun _ => Returns (JStr "never").

(** The field [PORT] of type [number] with the override
    [{ production: { PORT: { validate: refuse_all } } }]. *)
Definition port_number_overridden : CompiledSchemaWithEnvironments :=
  {| schema := schema (port_number Sample.host);
     _environments :=
       Some [("production",
              [("PORT", with_validate emptyDefinition (Some refuse_all))])] |}.

(** The pattern [/^abc$/]. *)
Definition abc_only : RegExp := fun s => String.eqb s "abc".

(** [{ type: 'regex', pattern: /^abc$/, enum: ['abc'], validate: refuse_all }] *)
Definition regex_enum_validate : SchemaDefinition :=
  with_validate
    (with_enum (with_pattern (field Tregex) (Some abc_only))
               (Some [JStr "abc"]))
    (Some refuse_all).

(** A pattern that matches every string. *)
Definition any_string : RegExp := fun _ => true.

(** [{ type: 'regex', pattern: any_string, enum: ['a'] }] *)
Definition regex_enum_a : SchemaDefinition :=
  with_enum (with_pattern (field Tregex) (Some any_string)) (Some [JStr "a"]).

(* ===================================================================== *)
(** ** More ways of writing schemas, and what compiling gives *)
(* ===================================================================== *)

Definition with_common (d : SchemaDefinition) (x : option (list string)) :=
  {| def_type := def_type d; def_required := def_required d;
     def_default := def_default d; def_enum := def_enum d;
     def_validate := def_validate d; def_transform := def_transform d;
     def_description := def_description d; def_minLength := def_minLength d;
     def_maxLength := def_maxLength d; def_min := def_min d;
     def_max := def_max d; def_protocols := def_protocols d;
     def_requireProtocol := def_requireProtocol d; def_common := x;
     def_allowPlus := def_allowPlus d; def_version := def_version d;
     def_pattern := def_pattern d |}.

Definition with_allowPlus (d : SchemaDefinition) (x : option bool) :=
  {| def_type := def_type d; def_required := def_required d;
     def_default := def_default d; def_enum := def_enum d;
     def_validate := def_validate d; def_transform := def_transform d;
     def_description := def_description d; def_minLength := def_minLength d;
     def_maxLength := def_maxLength d; def_min := def_min d;
     def_max := def_max d; def_protocols := def_protocols d;
     def_requireProtocol := def_requireProtocol d; def_common := def_common d;
     def_allowPlus := x; def_version := def_version d;
     def_pattern := def_pattern d |}.

(** [fieldName !== '_environments'] *)
Definition is_field (fieldName : string) : bool :=
  negb (String.eqb fieldName "_environments").

(** The definition and the type of an entry that has both. *)
Definition typed_definition (entry : SchemaEntry)
  : option (SchemaDefinition * EnvType) :=
  match entry with
  | EntryDefinition d =>
      match def_type d with
      | Some t => Some (d, t)
      | None => None
      end
  | EntryValue _ => None
  end.

(** The compiled fields of a list of entries that all compile. *)
Definition compiledEntries (host : Host) (entries : object SchemaEntry)
  : CompiledSchema :=
  flat_map
    (fun '(fieldName, entry) =>
       if is_field fieldName then
         match typed_definition entry with
         | Some (d, t) => [(fieldName, compileField host d t)]
         | None => []
         end
       else [])
    entries.

(** What [defineSchema] throws for an entry that does not compile. *)
Definition schemaErrorOf (fieldName : string) (entry : SchemaEntry) : exn :=
  match entry with
  | EntryValue (JObj _) | EntryDefinition _ =>
      ThrownSchemaError
        ("Field " ++ dq ++ fieldName ++ dq ++ " must specify a type") fieldName
  | EntryValue _ =>
      ThrownSchemaError
        ("Invalid schema definition for field " ++ dq ++ fieldName ++ dq)
        fieldName
  end.


Definition with_description (d : SchemaDefinition) (x : option string) :=
  {| def_type := def_type d; def_required := def_required d;
     def_default := def_default d; def_enum := def_enum d;
     def_validate := def_validate d; def_transform := def_transform d;
     def_description := x; def_minLength := def_minLength d;
     def_maxLength := def_maxLength d; def_min := def_min d;
     def_max := def_max d; def_protocols := def_protocols d;
     def_requireProtocol := def_requireProtocol d; def_common := def_common d;
     def_allowPlus := def_allowPlus d; def_version := def_version d;
     def_pattern := def_pattern d |}.

Definition with_transform (d : SchemaDefinition) (x : option userfn) :=
  {| def_type := def_type d; def_required := def_required d;
     def_default := def_default d; def_enum := def_enum d;
     def_validate := def_validate d; def_transform := x;
     def_description := def_description d; def_minLength := def_minLength d;
     def_maxLength := def_maxLength d; def_min := def_min d;
     def_max := def_max d; def_protocols := def_protocols d;
     def_requireProtocol := def_requireProtocol d; def_common := def_common d;
     def_allowPlus := def_allowPlus d; def_version := def_version d;
     def_pattern := def_pattern d |}.

(* ===================================================================== *)
(** ** The command line: [bin/env-guard.js] *)
(* ===================================================================== *)

(** The line feed, as a character and as a string. *)
Definition lf : ascii := ascii_of_nat 10.
Definition newline : string := String lf EmptyString.

(** [s.split(sep)] for a separator of one character: the pieces between
    the occurrences of [sep], of which there is always one at least. *)
Fixpoint split (sep : ascii) (s : string) : list string :=
  match s with
  | EmptyString => [EmptyString]
  | String c r =>
      if Ascii.eqb c sep then EmptyString :: split sep r
      else
        match split sep r with
        | piece :: pieces => String c piece :: pieces
        | [] => [String c EmptyString]
        end
  end.

(** [s.startsWith(c)] and [s.includes(c)] for a string [c] of one
    character. *)
Definition startsWith (s : string) (c : ascii) : bool :=
  match s with
  | String a _ => Ascii.eqb a c
  | EmptyString => false
  end.

Fixpoint has_char (s : string) (c : ascii) : bool :=
  match s with
  | String a r => Ascii.eqb a c || has_char r c
  | EmptyString => false
  end.

(** The body of the loop of [EnvFileLoader.load] over the lines of the
    file. *)
Definition loadLine (envVars : object string) (line : string)
  : object string :=
  let line := Str.trim line in
  if negb (Str.is_empty line) && negb (startsWith line "#")
     && has_char line "="
  then
    match split "=" line with
    | key :: valueParts =>
        set envVars (Str.trim key) (Str.trim (Str.join "=" valueParts))
    | [] => envVars
    end
  else envVars.

(** [EnvFileLoader.load(filePath)], given what the file system holds at
    the path: the text of the file, or nothing. *)
Definition EnvFileLoader_load (filePath : string) (file : option string)
  : outcome (object string) :=
  match file with
  | None => Throws (ThrownError ("Environment file not found: " ++ filePath))
  | Some content => Returns (fold_left loadLine (split lf content) [])
  end.

(** [GenerateCommand.generateExampleValue(fieldSchema)] *)
Definition generateExampleValue (fieldSchema : CompiledFieldSchema) : jsval :=
  match cf_type fieldSchema with
  | Tstring => JStr "example"
  | Tnumber => JNum (Num.of_Z 3000)
  | Tboolean => JStr "false"
  | Turl => JStr "https://example.com"
  | Tport => JNum (Num.of_Z 3000)
  | Temail => JStr "user@example.com"
  | Tip => JStr "127.0.0.1"
  | Tjson => JStr ("{" ++ dq ++ "key" ++ dq ++ ": " ++ dq ++ "value" ++ dq ++ "}")
  | Tregex => JStr "example"
  end.

(** The example value of a field: its default, called when it is a
    function, or the example of its type. *)
Definition exampleValue (fieldSchema : CompiledFieldSchema) : outcome jsval :=
  if default_defined (cf_default fieldSchema)
  then invokeDefault (cf_default fieldSchema)
  else Returns (generateExampleValue fieldSchema).

(** The body of the loop of [generateExampleContent] over the fields. *)
Definition exampleLines (host : Host) (includeComments : bool)
    (content : string) (fieldName : string) (fieldSchema : CompiledFieldSchema)
  : outcome string :=
  if startsWith fieldName "_" then Returns content
  else
    let content :=
      match cf_description fieldSchema with
      | Some description =>
          if includeComments && negb (Str.is_empty description)
          then content ++ "# " ++ description ++ newline
          else content
      | None => content
      end in
    let* exampleValue := exampleValue fieldSchema in
    Returns (content ++ fieldName ++ "=" ++ ToString host exampleValue
                     ++ newline ++ newline).

Fixpoint exampleFields (host : Host) (includeComments : bool)
    (entries : CompiledSchema) (content : string) : outcome string :=
  match entries with
  | [] => Returns content
  | (fieldName, fieldSchema) :: rest =>
      let* content :=
        exampleLines host includeComments content fieldName fieldSchema in
      exampleFields host includeComments rest content
  end.

(** [GenerateCommand.generateExampleContent(compiledSchema, options)] *)
Definition generateExampleContent (host : Host)
    (compiledSchema : CompiledSchemaWithEnvironments) (includeComments : bool)
  : outcome string :=
  exampleFields host includeComments (schema compiledSchema)
    ("# Environment Variables Example" ++ newline
     ++ "# Generated by env-guard" ++ newline ++ newline).

(** The name of a variable that a line of an env file can give: no [=],
    no line feed, no whitespace around it, no [#] in front. *)
Definition plain_name (fieldName : string) : bool :=
  negb (has_char fieldName "=") && negb (has_char fieldName lf)
  && String.eqb (Str.trim fieldName) fieldName
  && negb (startsWith fieldName "#").

(** A field whose lines in the generated file are lines: neither its
    example value nor its description holds a line feed. *)
Definition one_line_each (host : Host) (fieldSchema : CompiledFieldSchema)
  : bool :=
  match exampleValue fieldSchema with
  | Returns v => negb (has_char (ToString host v) lf)
  | Throws _ => true
  end
  && match cf_description fieldSchema with
     | Some description => negb (has_char description lf)
     | None => true
     end.

(** The variables that the example file of a schema gives: each field
    whose name does not start with [_], bound to the text of its example
    value without the whitespace around it. *)
Definition exampleVariables (host : Host) (entries : CompiledSchema)
  : object string :=
  fold_left
    (fun envVars '(fieldName, fieldSchema) =>
       if startsWith fieldName "_" then envVars
       else
         match exampleValue fieldSchema with
         | Returns v => set envVars fieldName (Str.trim (ToString host v))
         | Throws _ => envVars
         end)
    entries [].

(** The object of strings that [EnvFileLoader.load] returns, as the
    variables that [ValidateCommand.execute] hands to [validateEnv]. *)
Definition asVariables (envVars : object string) : envmap :=
  List.map (fun '(name, value) => (name, JStr value)) envVars.

(** A field with a type other than [regex] and nothing else: no default,
    no validator, no transform. *)
Definition plain_field (fieldSchema : CompiledFieldSchema) : bool :=
  negb (EnvType_eqb (cf_type fieldSchema) Tregex)
  && negb (default_defined (cf_default fieldSchema))
  && match cf_validator fieldSchema with Some _ => false | None => true end
  && match cf_transform fieldSchema with Some _ => false | None => true end.

(** [Object.keys(compiledField).length]: the five keys that [defineSchema]
    always writes, and the keys [validator] and [transform] when it has
    set them. *)
Definition keyCount (fieldSchema : CompiledFieldSchema) : nat :=
  5 + (match cf_validator fieldSchema with Some _ => 1 | None => 0 end)
    + (match cf_transform fieldSchema with Some _ => 1 | None => 0 end).

(** The number that [CheckCommand.execute] prints for the environments
    under [--detailed]: [details.environments.length]. *)
Definition CheckCommand_environmentCount
    (compiledSchemaResult : CompiledSchemaWithEnvironments) : nat :=
  let compiledSchema := schema compiledSchemaResult in
  match get compiledSchema "_environments" with
  | Some compiledField => keyCount compiledField
  | None => 0
  end.

(* ===================================================================== *)
(** ** The strings that a pattern matches *)
(* ===================================================================== *)

(** The language of a pattern, and bounds on how often a character occurs
    in a string of it. *)
Module ReLang.

Inductive lang : Re.re -> string -> Prop :=
| lang_eps : lang Re.Eps EmptyString
| lang_chr : forall p c, p c = true -> lang (Re.Chr p) (String c EmptyString)
| lang_seq : forall a b s t,
    lang a s -> lang b t -> lang (Re.Seq a b) (s ++ t)
| lang_alt_l : forall a b s, lang a s -> lang (Re.Alt a b) s
| lang_alt_r : forall a b s, lang b s -> lang (Re.Alt a b) s
| lang_star_nil : forall a, lang (Re.Star a) EmptyString
| lang_star_cons : forall a s t,
    lang a s -> lang (Re.Star a) t -> lang (Re.Star a) (s ++ t).

(** The 256 characters. *)
Definition all_ascii : list ascii := List.map ascii_of_nat (seq 0 256).

(** The class [p] holds the character [c] and no other. *)
Definition only (c : ascii) (p : ascii -> bool) : bool :=
  forallb (fun a => implb (p a) (Ascii.eqb a c)) all_ascii.

(** The least number of occurrences of [c] in a string of [r]. *)
Fixpoint at_least (c : ascii) (r : Re.re) : nat :=
  match r with
  | Re.Void | Re.Eps | Re.Star _ => 0
  | Re.Chr p => if only c p then 1 else 0
  | Re.Seq a b => at_least c a + at_least c b
  | Re.Alt a b => Nat.min (at_least c a) (at_least c b)
  end.

(** The greatest number of occurrences of [c] in a string of [r], when
    there is one. *)
Fixpoint at_most (c : ascii) (r : Re.re) : option nat :=
  match r with
  | Re.Void | Re.Eps => Some 0%nat
  | Re.Chr p => if p c then Some 1%nat else Some 0%nat
  | Re.Seq a b =>
      match at_most c a, at_most c b with
      | Some m, Some n => Some (m + n)%nat
      | _, _ => None
      end
  | Re.Alt a b =>
      match at_most c a, at_most c b with
      | Some m, Some n => Some (Nat.max m n)
      | _, _ => None
      end
  | Re.Star a =>
      match at_most c a with
      | Some O => Some 0%nat
      | _ => None
      end
  end.

End ReLang.

(* ===================================================================== *)
(** ** Properties *)
(* ===================================================================== *)

(** *** The tests of the repository, on the model *)

(** From [tests/coerce-value.test.ts]. *)
Example test_coerce_string :
  coerceValue Sample.host (JStr "  trimmed  ") Tstring = Returns (JStr "trimmed")
  /\ coerceValue Sample.host (JNum (Num.of_Z 123)) Tstring = Returns (JStr "123")
  /\ coerceValue Sample.host (JBool true) Tstring = Returns (JStr "true")
  /\ coerceValue Sample.host JUndefined Tstring = Returns JUndefined
  /\ coerceValue Sample.host JNull Tstring = Returns JNull.
Proof. repeat split. Qed.

Example test_coerce_number :
  coerceValue Sample.host (JStr "42") Tnumber = Returns (JNum (Num.of_Z 42))
  /\ coerceValue Sample.host (JStr "-5") Tnumber = Returns (JNum (Num.of_Z (-5)))
  /\ coerceValue Sample.host (JStr "1e6") Tnumber
     = Returns (JNum (Num.of_Z 1000000))
  /\ coerceValue Sample.host (JStr "3.14") Tnumber
     = Returns (JNum (Num.of_decimal false 314 (-2)))
  /\ coerceValue Sample.host (JStr "abc") Tnumber
     = Throws (cannot_coerce Sample.host Tnumber (JStr "abc"))
  /\ coerceValue Sample.host (JNum Num.NaN) Tnumber
     <> Returns (JNum Num.NaN)
  /\ coerceValue Sample.host (JNum Num.Infinity) Tnumber
     <> Returns (JNum Num.Infinity).
Proof. repeat split; discriminate. Qed.

Example test_coerce_boolean :
  coerceValue Sample.host (JStr "TRUE") Tboolean = Returns (JBool true)
  /\ coerceValue Sample.host (JStr "Yes") Tboolean = Returns (JBool true)
  /\ coerceValue Sample.host (JStr "on") Tboolean = Returns (JBool true)
  /\ coerceValue Sample.host (JStr "1") Tboolean = Returns (JBool true)
  /\ coerceValue Sample.host (JStr "No") Tboolean = Returns (JBool false)
  /\ coerceValue Sample.host (JStr "off") Tboolean = Returns (JBool false)
  /\ coerceValue Sample.host (JStr "0") Tboolean = Returns (JBool false)
  /\ coerceValue Sample.host (JStr "yesno") Tboolean
     <> Returns (JBool true)
  /\ coerceValue Sample.host (JStr "2") Tboolean <> Returns (JBool true).
Proof. repeat split; discriminate. Qed.

(** From the tests of the built-in validators. *)
Example test_validatePort :
  validatePort (JNum (Num.of_Z 65535)) = JBool true
  /\ validatePort (JStr "443") = JBool true
  /\ validatePort (JNum (Num.of_Z 0))
     = JStr "Port must be an integer between 1 and 65535"
  /\ validatePort (JNum (Num.of_Z 65536))
     = JStr "Port must be an integer between 1 and 65535"
  /\ validatePort (JNum (Num.of_decimal false 805 (-1)))
     = JStr "Port must be an integer between 1 and 65535"
  /\ validatePort (JStr "not-a-number") = JStr "Port must be a valid number".
Proof. repeat split. Qed.

Example test_validateEmail :
  validateEmail (JStr "test.email@domain.co.uk") = JBool true
  /\ validateEmail (JStr "user123@test-domain.org") = JBool true
  /\ validateEmail (JStr "user@") = JStr "Invalid email format"
  /\ validateEmail (JStr "user space@domain.com") = JStr "Invalid email format"
  /\ validateEmail (JStr "user@domain@com") = JStr "Invalid email format"
  /\ validateEmail (JStr "user@domain..com") = JStr "Invalid email format"
  /\ validateEmail (JStr "user@domain.com.") = JStr "Invalid email format".
Proof. repeat split. Qed.

Example test_validateIp :
  validateIp (JStr "255.255.255.255") None = JBool true
  /\ validateIp (JStr "2001:0db8:85a3:0000:0000:8a2e:0370:7334") None
     = JBool true
  /\ validateIp (JStr "fe80::1") None = JBool true
  /\ validateIp (JStr "192.168.1.1") (Some {| io_version := Some "ipv6" |})
     = JStr "Invalid IPv6 address format"
  /\ validateIp (JStr "2001:db8::1") (Some {| io_version := Some "ipv4" |})
     = JStr "Invalid IPv4 address format"
  /\ validateIp (JStr "999.999.999.999") None
     = JStr "Invalid IP address format (must be IPv4 or IPv6)".
Proof. repeat split. Qed.

(** From [tests/core-functions.test.ts]: a field of type [regex] with a
    value that does not match ends in a [TypeError]. *)
Example test_validateEnv_regex :
  exists message,
    validateEnv Sample.host
      {| schema :=
           [("API_KEY",
             compileField Sample.host
               (with_required (with_pattern (field Tregex) (Some abc_only))
                              (Some true))
               Tregex)];
         _environments := None |}
      (Some [("API_KEY", JStr "wronglength")]) None
    = Returns (rejected
        [ {| err_field := "API_KEY";
             err_message := message;
             err_value := JStr "wronglength";
             err_expected := None;
             err_received := None;
             err_envVarName := "API_KEY";
             err_type := TypeError |} ]).
Proof. eexists; reflexivity. Qed.

(** *** The shape of a result *)

(** C5. In the result of every call, [success] holds exactly when [errors]
    is empty, [hasErrors] exactly when it is not, and [data] is there
    exactly when [errors] is empty; so one failing field among valid ones
    gives [success = false] and no [data] at all. *)
Theorem validateEnv_fail_closed :
  forall host compiledSchema envVars environment r,
    validateEnv host compiledSchema envVars environment = Returns r ->
    (success r = true <-> errors r = []) /\
    (hasErrors r = true <-> errors r <> []) /\
    (data r <> None <-> errors r = []) /\
    (errors r <> [] -> success r = false /\ data r = None).
Proof.
  intros host compiledSchema envVars environment r H.
  unfold validateEnv in H.
  destruct (validateFields _ _ _ _ _) as [[errs validatedData] | e];
    simpl in H; [ | discriminate ].
  injection H as <-; simpl.
  destruct errs as [ | e errs ]; simpl;
    repeat split; intros; try congruence; try discriminate.
Qed.

(** Two fields, [PORT] valid and [DEBUG] not: the call fails and the port
    is not given out. *)
Lemma validateEnv_fail_closed_witness :
  validateEnv Sample.host port_and_debug (Some port_ok_debug_bad) None
  = Returns (rejected [debug_maybe])
  /\ success (rejected [debug_maybe]) = false
  /\ data (rejected [debug_maybe]) = None.
Proof.
  split; [ vm_compute; reflexivity | ].
  refine (proj2 (proj2 (proj2
    (validateEnv_fail_closed Sample.host port_and_debug
       (Some port_ok_debug_bad) None _))) _);
    [ vm_compute; reflexivity | discriminate ].
Defined.

(** *** The URL validator *)

Lemma url_protocol_nonempty (u : URL) : Str.is_empty (url_protocol u) = false.
Proof.
  unfold url_protocol. destruct (url_scheme u); reflexivity.
Qed.

(** C9. [validateUrl] never answers that the URL must include a protocol:
    the protocol of a parsed URL is not empty, so the key [requireProtocol]
    of the options changes nothing. *)
Theorem validateUrl_requireProtocol_inert :
  forall host url options,
    validateUrl host url options
    <> JStr "URL must include protocol (http://, https://, etc.)"
    /\ forall requireProtocol,
         validateUrl host url (set_requireProtocol options requireProtocol)
         = validateUrl host url options.
Proof.
  intros host url options.
  unfold validateUrl.
  destruct url as [ | | b | n | s | r ]; try (split; [discriminate | reflexivity]).
  destruct (Str.is_empty (Str.trim s)); [ split; [discriminate | reflexivity] | ].
  destruct (URL_parse host (Str.trim s)) as [u | ];
    [ | split; [discriminate | reflexivity] ].
  rewrite url_protocol_nonempty, !andb_false_r.
  split.
  - destruct (negb (Str.includes _ _)); [ simpl; discriminate | ].
    destruct (_ && _); discriminate.
  - intros requireProtocol.
    rewrite ?url_protocol_nonempty, ?andb_false_r.
    destruct options as [[[ps | ] rp] | ]; reflexivity.
Qed.

(** *** Environment overrides *)

(** C7. [DATABASE_URL] is declared optional, with no default, and the
    environment [production] makes it required.  When the env map has no
    [DATABASE_URL], validating under [production] gives one error, a
    [RequiredError]; validating under no environment, or under an
    environment that has no block, succeeds and leaves the field out of
    [data]. *)
Theorem production_requires_database_url :
  forall host definition type envVars,
    def_type definition = Some type ->
    def_required definition <> Some true ->
    default_defined (def_default definition) = false ->
    env_get (match envVars with
             | Some e => e
             | None => process_env host
             end) "DATABASE_URL" = JUndefined ->
    exists compiled,
      defineSchema host (database_url_schema definition) = Returns compiled
      /\ validateEnv host compiled envVars (Some "production")
         = Returns (rejected [missing "DATABASE_URL"])
      /\ validateEnv host compiled envVars None = Returns (accepted [])
      /\ forall name,
           name <> "production" ->
           validateEnv host compiled envVars (Some name)
           = Returns (accepted []).
Proof.
  intros host definition type envVars Htype Hreq Hdef Henv.
  unfold defineSchema, database_url_schema; simpl.
  rewrite Htype; simpl.
  eexists; split; [ reflexivity | ].
  assert (Hopt : (match def_required definition with
                  | Some b => b
                  | None => false
                  end) = false).
  { destruct (def_required definition) as [[ | ] | ]; congruence. }
  assert (Hup : Str.toUpperCase "DATABASE_URL" = "DATABASE_URL") by reflexivity.
  repeat split.
  - unfold validateEnv, resolveOverrides; simpl.
    unfold validateField, effectiveSchemaOf; simpl.
    rewrite Hup, Henv; reflexivity.
  - unfold validateEnv, resolveOverrides; simpl.
    unfold validateField, effectiveSchemaOf; simpl.
    rewrite Hup, Henv, Hopt, Hdef; reflexivity.
  - intros name Hname.
    unfold validateEnv, resolveOverrides; simpl.
    apply String.eqb_neq in Hname; rewrite Hname.
    destruct (negb (Str.is_empty name));
      unfold validateField, effectiveSchemaOf; simpl;
      rewrite Hup, Henv, Hopt, Hdef; reflexivity.
Qed.

(** The schema of the example with a field of type [url], on the empty env
    map. *)
Lemma production_requires_database_url_witness :
  exists compiled,
    defineSchema Sample.host (database_url_schema (field Turl))
    = Returns compiled
    /\ validateEnv Sample.host compiled (Some []) (Some "production")
       = Returns (rejected [missing "DATABASE_URL"])
    /\ validateEnv Sample.host compiled (Some []) None = Returns (accepted [])
    /\ forall name,
         name <> "production" ->
         validateEnv Sample.host compiled (Some []) (Some name)
         = Returns (accepted []).
Proof.
  apply (@production_requires_database_url Sample.host (field Turl) Turl
           (Some [])).
  - reflexivity.
  - simpl; discriminate.
  - reflexivity.
  - reflexivity.
Defined.

(** *** The name of the variable in an error *)

(** C2. The error of a value that cannot be coerced: for the field [PORT]
    of type [number] and the value ['abc'], the error names the variable
    ['TypeError'] and the field ['value'], where the variable looked up is
    [PORT]. *)
Theorem coercion_error_names_TypeError :
  forall host,
    validateEnv host (port_number host) (Some [("PORT", JStr "abc")]) None
    = Returns (rejected
        [ {| err_field := "value";
             err_message := "Cannot coerce to number";
             err_value := JStr "abc";
             err_expected := Some "numeric string";
             err_received := Some "abc";
             err_envVarName := "TypeError";
             err_type := FormatError |} ])
    /\ Str.toUpperCase "PORT" = "PORT"
    /\ "TypeError" <> Str.toUpperCase "PORT".
Proof.
  intros host.
  repeat split.
  vm_compute; discriminate.
Qed.

(** *** Defaults *)

Lemma get_set_same {A : Type} (o : object A) (k : string) (a : A) :
  get (set o k a) k = Some a.
Proof.
  induction o as [ | [k' a'] o IH ]; simpl.
  - now rewrite String.eqb_refl.
  - destruct (String.eqb k k') eqn:E; simpl.
    + now rewrite String.eqb_refl.
    + now rewrite E.
Qed.

Lemma is_undefined_false (v : jsval) : v <> JUndefined -> is_undefined v = false.
Proof. destruct v; simpl; congruence. Qed.

(** C1, as the specification has it, fails: the default ['8080'] of a
    field of type [number] reaches [data] as the number 8080, which is the
    work of [coerceValue], where a default that went straight to the
    transform stage would reach it as the string. *)
Lemma default_string_is_coerced :
  validateEnv Sample.host
    {| schema := [("PORT", number_default_8080)]; _environments := None |}
    (Some []) None
  = Returns (accepted [("PORT", JNum (Num.of_Z 8080))])
  /\ spec_defaultFromTransform "PORT" "PORT" (spread number_default_8080)
       (JStr "8080") ([], [])
     = ([], [("PORT", JStr "8080")])
  /\ JNum (Num.of_Z 8080) <> JStr "8080".
Proof.
  repeat split; discriminate.
Qed.

(** C1, amended.  A field that the env map lacks, that is not required
    once the override is merged, and whose default is defined: the default,
    called when it is a producer, is the working value of the whole [try]
    block.  It is coerced (for the types [string], [number], [boolean] and
    [port]), and a coercion that throws is the error of the field; what
    coercion returns is transformed; what the transform returns is given
    to the built-in validator of the type, and then to the field's
    validator; the value written to [validatedData] is the one that left
    the transform.  The field is treated as if the env map held the
    default. *)
Theorem default_runs_whole_pipeline :
  forall host envOverrides env acc fieldName fieldSchema,
    let effectiveSchema := effectiveSchemaOf envOverrides fieldName fieldSchema in
    let envVarName := Str.toUpperCase fieldName in
    env_get env envVarName = JUndefined ->
    eff_required effectiveSchema = false ->
    default_defined (eff_default effectiveSchema) = true ->
    let turn := validateField host envOverrides env acc fieldName fieldSchema in
    turn
    = (let* value := invokeDefault (eff_default effectiveSchema) in
       Returns (tryBlock host fieldName envVarName effectiveSchema value acc))
    /\ (forall value,
          invokeDefault (eff_default effectiveSchema) = Returns value ->
          value <> JUndefined ->
          turn
          = validateField host envOverrides (set env envVarName value) acc
              fieldName fieldSchema)
    /\ forall value,
         invokeDefault (eff_default effectiveSchema) = Returns value ->
         (forall e,
            (if coercible (eff_type effectiveSchema)
             then coerceValue host value (eff_type effectiveSchema)
             else Returns value) = Throws e ->
            turn = Returns (push acc (caught fieldName envVarName value e)))
         /\ forall coerced,
              (if coercible (eff_type effectiveSchema)
               then coerceValue host value (eff_type effectiveSchema)
               else Returns value) = Returns coerced ->
              (forall e,
                 transformed_value effectiveSchema coerced = Throws e ->
                 turn
                 = Returns (push acc (transform_error fieldName envVarName
                                        coerced e)))
              /\ forall final,
                   transformed_value effectiveSchema coerced = Returns final ->
                   (forall e,
                      builtInValidator host (eff_type effectiveSchema) final
                      = Throws e ->
                      turn
                      = Returns (push acc (caught fieldName envVarName final e)))
                   /\ (forall r,
                         builtInValidator host (eff_type effectiveSchema) final
                         = Returns r ->
                         r <> JBool true ->
                         turn
                         = Returns (push acc
                                      (format_error fieldName envVarName final r
                                         "Validation failed")))
                   /\ (builtInValidator host (eff_type effectiveSchema) final
                       = Returns (JBool true) ->
                       (forall e,
                          callValidator (eff_validator effectiveSchema) final
                          = Throws e ->
                          turn
                          = Returns (push acc
                                       (caught fieldName envVarName final e)))
                       /\ (forall r,
                             callValidator (eff_validator effectiveSchema) final
                             = Returns r ->
                             r <> JBool true ->
                             turn
                             = Returns (push acc
                                          (format_error fieldName envVarName
                                             final r
                                             "Custom validation failed")))
                       /\ (callValidator (eff_validator effectiveSchema) final
                           = Returns (JBool true) ->
                           turn
                           = Returns (fst acc,
                                      set (snd acc) fieldName final))).
Proof.
  intros host envOverrides env acc fieldName fieldSchema effectiveSchema
         envVarName Henv Hreq Hdef turn.
  assert (Hfield :
    turn
    = (let* value := invokeDefault (eff_default effectiveSchema) in
       Returns (tryBlock host fieldName envVarName effectiveSchema value acc))).
  { unfold turn, validateField.
    fold effectiveSchema; fold envVarName.
    now rewrite Henv, Hreq, Hdef. }
  split; [ exact Hfield | ].
  split.
  - intros value Hcall Hvalue.
    rewrite Hfield, Hcall; simpl.
    unfold validateField.
    fold effectiveSchema; fold envVarName.
    unfold env_get; rewrite get_set_same.
    now rewrite (is_undefined_false Hvalue).
  - intros value Hcall. rewrite Hfield, Hcall. cbn [bind].
    assert (Hnot : forall r, r <> JBool true -> negb (is_true r) = true).
    { intros r Hr. destruct r as [ | | [ | ] | | | ]; try reflexivity.
      now contradiction Hr. }
    unfold tryBlock, transformed_value, callValidator.
    split; [ intros e ->; reflexivity | ].
    intros coerced ->.
    split; [ intros e ->; reflexivity | ].
    intros final ->.
    split; [ intros e ->; reflexivity | ].
    split; [ intros r -> Hr; now rewrite (Hnot r Hr) | ].
    intros ->. cbn [is_true negb].
    split; [ intros e ->; reflexivity | ].
    split; [ intros r -> Hr; now rewrite (Hnot r Hr) | ].
    intros ->. reflexivity.
Qed.

(** The field [{ type: 'number', default: '8080' }] on the empty env
    map: the default is coerced to the number 8080, which the validator of
    numbers accepts and which is written to [validatedData]. *)
Lemma default_runs_whole_pipeline_witness :
  env_get [] (Str.toUpperCase "PORT") = JUndefined
  /\ validateField Sample.host [] [] ([], []) "PORT" number_default_8080
     = Returns (tryBlock Sample.host "PORT" (Str.toUpperCase "PORT")
                  (effectiveSchemaOf [] "PORT" number_default_8080)
                  (JStr "8080") ([], []))
  /\ validateField Sample.host [] [] ([], []) "PORT" number_default_8080
     = validateField Sample.host [] [("PORT", JStr "8080")] ([], []) "PORT"
         number_default_8080
  /\ coerceValue Sample.host (JStr "8080") Tnumber
     = Returns (JNum (Num.of_Z 8080))
  /\ validateField Sample.host [] [] ([], []) "PORT" number_default_8080
     = Returns ([], [("PORT", JNum (Num.of_Z 8080))]).
Proof.
  destruct (@default_runs_whole_pipeline Sample.host [] [] ([], []) "PORT"
              number_default_8080 eq_refl eq_refl eq_refl) as (H1 & H2 & H3).
  split; [ reflexivity | ].
  split; [ exact H1 | ].
  split; [ exact (H2 (JStr "8080") eq_refl ltac:(discriminate)) | ].
  split; [ reflexivity | ].
  destruct (H3 (JStr "8080") eq_refl) as (_ & H4).
  destruct (H4 (JNum (Num.of_Z 8080)) eq_refl) as (_ & H5).
  destruct (H5 (JNum (Num.of_Z 8080)) eq_refl) as (_ & _ & H6).
  destruct (H6 eq_refl) as (_ & _ & H7).
  exact (H7 eq_refl).
Defined.

(** *** The key [validate] of an override *)

Lemma effectiveSchemaOf_same_but_validate :
  forall overrides1 overrides2 fieldName fieldSchema,
    same_but_validate (get overrides1 fieldName) (get overrides2 fieldName) ->
    reads_same (effectiveSchemaOf overrides1 fieldName fieldSchema)
               (effectiveSchemaOf overrides2 fieldName fieldSchema).
Proof.
  intros overrides1 overrides2 fieldName fieldSchema H.
  unfold effectiveSchemaOf.
  destruct H as (Ht & Hr & Hd & _ & Htr & _).
  destruct (get overrides1 fieldName) as [o1 | ],
           (get overrides2 fieldName) as [o2 | ];
    simpl in Ht, Hr, Hd, Htr; unfold reads_same; simpl.
  - rewrite Ht, Hr, Hd, Htr; repeat split.
  - rewrite Ht, Hr, Hd, Htr; repeat split.
  - rewrite <- Ht, <- Hr, <- Hd, <- Htr; repeat split.
  - repeat split.
Qed.

Lemma validateField_reads :
  forall host overrides1 overrides2 env acc fieldName fieldSchema,
    reads_same (effectiveSchemaOf overrides1 fieldName fieldSchema)
               (effectiveSchemaOf overrides2 fieldName fieldSchema) ->
    validateField host overrides1 env acc fieldName fieldSchema
    = validateField host overrides2 env acc fieldName fieldSchema.
Proof.
  intros host overrides1 overrides2 env acc fieldName fieldSchema.
  unfold validateField, tryBlock.
  generalize (effectiveSchemaOf overrides1 fieldName fieldSchema),
             (effectiveSchemaOf overrides2 fieldName fieldSchema).
  intros a b (Ht & Hr & Hd & Hv & Htr).
  now rewrite Ht, Hr, Hd, Hv, Htr.
Qed.

Lemma validateFields_same_but_validate :
  forall host overrides1 overrides2 env entries acc,
    (forall fieldName,
       same_but_validate (get overrides1 fieldName) (get overrides2 fieldName)) ->
    validateFields host overrides1 env entries acc
    = validateFields host overrides2 env entries acc.
Proof.
  intros host overrides1 overrides2 env entries acc H.
  revert acc.
  induction entries as [ | [fieldName fieldSchema] rest IH ]; intros acc;
    simpl; [ reflexivity | ].
  rewrite (@validateField_reads host overrides1 overrides2);
    [ | apply effectiveSchemaOf_same_but_validate, H ].
  destruct (validateField host overrides2 env acc fieldName fieldSchema);
    simpl; [ apply IH | reflexivity ].
Qed.

(** C10. The key [validate] of an override is merged into the copy of the
    field and never read: two compiled schemas with the same fields, whose
    overrides for the environment in force give every field the same keys
    but [validate] (an override with that key alone counting as none),
    validate every env map to the same result. *)
Theorem override_validate_is_not_read :
  forall host compiled1 compiled2 envVars environment,
    schema compiled1 = schema compiled2 ->
    (forall fieldName,
       same_but_validate
         (get (resolveOverrides compiled1 environment) fieldName)
         (get (resolveOverrides compiled2 environment) fieldName)) ->
    validateEnv host compiled1 envVars environment
    = validateEnv host compiled2 envVars environment.
Proof.
  intros host compiled1 compiled2 envVars environment Hschema H.
  unfold validateEnv.
  rewrite Hschema.
  now rewrite (@validateFields_same_but_validate host _ _ _ _ _ H).
Qed.

(** The field [PORT] with the value ['8080'] under [production]: the
    override brings a [validate] that refuses every value, and the result
    is that of the schema without override. *)
Lemma override_validate_is_not_read_witness :
  validateEnv Sample.host port_number_overridden
    (Some [("PORT", JStr "8080")]) (Some "production")
  = validateEnv Sample.host (port_number Sample.host)
      (Some [("PORT", JStr "8080")]) (Some "production")
  /\ validateEnv Sample.host port_number_overridden
       (Some [("PORT", JStr "8080")]) (Some "production")
     = Returns (accepted [("PORT", JNum (Num.of_Z 8080))]).
Proof.
  split; [ | reflexivity ].
  apply override_validate_is_not_read; [ reflexivity | ].
  intros fieldName; simpl.
  destruct (String.eqb fieldName "PORT"); repeat split.
Defined.

(** *** Problems met while validating *)

Lemma is_true_spec (v : jsval) : is_true v = true <-> v = JBool true.
Proof.
  destruct v as [ | | [ | ] | | | ]; simpl; split; congruence.
Qed.

Lemma push_injective (acc : accumulators) (a b : ValidationErrorResult) :
  push acc a = push acc b -> a = b.
Proof.
  unfold push. intros H. injection H as H.
  apply app_inv_head in H. now injection H.
Qed.

(** The [try] block either writes the value, every stage having passed,
    or records one error and leaves [validatedData] as it was. *)
Lemma tryBlock_outcome :
  forall host fieldName envVarName effectiveSchema value acc,
    (exists final,
       all_stages_pass host effectiveSchema value final
       /\ tryBlock host fieldName envVarName effectiveSchema value acc
          = (fst acc, set (snd acc) fieldName final))
    \/ ((forall final, ~ all_stages_pass host effectiveSchema value final)
        /\ exists e,
             tryBlock host fieldName envVarName effectiveSchema value acc
             = push acc e).
Proof.
  intros host fieldName envVarName effectiveSchema value acc.
  unfold tryBlock, all_stages_pass, coerced_value, transformed_value,
    callValidator.
  destruct (if coercible (eff_type effectiveSchema)
            then coerceValue host value (eff_type effectiveSchema)
            else Returns value) as [coerced | e1] eqn:E1.
  2: { right; split; [ intros final (c & H & _); discriminate
                     | eexists; reflexivity ]. }
  destruct (match eff_transform effectiveSchema with
            | Some transform => transform coerced
            | None => Returns coerced
            end) as [transformed | e2] eqn:E2.
  2: { right; split; [ | eexists; reflexivity ].
       intros final (c & H1 & H2 & _).
       injection H1 as <-. rewrite E2 in H2; discriminate. }
  destruct (builtInValidator host (eff_type effectiveSchema) transformed)
    as [r3 | e3] eqn:E3.
  2: { right; split; [ | eexists; reflexivity ].
       intros final (c & H1 & H2 & H3 & _).
       injection H1 as <-. rewrite E2 in H2; injection H2 as <-.
       rewrite E3 in H3; discriminate. }
  destruct (is_true r3) eqn:T3; simpl.
  2: { right; split; [ | eexists; reflexivity ].
       intros final (c & H1 & H2 & H3 & _).
       injection H1 as <-. rewrite E2 in H2; injection H2 as <-.
       rewrite E3 in H3; injection H3 as ->. discriminate. }
  apply is_true_spec in T3; subst r3.
  destruct (match eff_validator effectiveSchema with
            | Some validator => validator transformed
            | None => Returns (JBool true)
            end) as [r4 | e4] eqn:E4.
  2: { right; split; [ | eexists; reflexivity ].
       intros final (c & H1 & H2 & _ & H4).
       injection H1 as <-. rewrite E2 in H2; injection H2 as <-.
       rewrite E4 in H4; discriminate. }
  destruct (is_true r4) eqn:T4; simpl.
  2: { right; split; [ | eexists; reflexivity ].
       intros final (c & H1 & H2 & _ & H4).
       injection H1 as <-. rewrite E2 in H2; injection H2 as <-.
       rewrite E4 in H4; injection H4 as ->. discriminate. }
  apply is_true_spec in T4; subst r4.
  left; exists transformed; split; [ | reflexivity ].
  exists coerced; repeat split; assumption.
Qed.

(** The error that the [try] block records is that of the first stage
    that fails. *)
Lemma tryBlock_first_failure :
  forall host fieldName envVarName effectiveSchema value acc,
    let run := tryBlock host fieldName envVarName effectiveSchema value acc in
    (forall e,
       coerced_value host effectiveSchema value = Throws e ->
       run = push acc (caught fieldName envVarName value e))
    /\ forall coerced,
         coerced_value host effectiveSchema value = Returns coerced ->
         (forall e,
            transformed_value effectiveSchema coerced = Throws e ->
            run = push acc (transform_error fieldName envVarName coerced e))
         /\ forall final,
              transformed_value effectiveSchema coerced = Returns final ->
              (forall e,
                 builtInValidator host (eff_type effectiveSchema) final
                 = Throws e ->
                 run = push acc (caught fieldName envVarName final e))
              /\ (forall r,
                    builtInValidator host (eff_type effectiveSchema) final
                    = Returns r ->
                    r <> JBool true ->
                    run = push acc (format_error fieldName envVarName final r
                                      "Validation failed"))
              /\ (builtInValidator host (eff_type effectiveSchema) final
                  = Returns (JBool true) ->
                  (forall e,
                     callValidator (eff_validator effectiveSchema) final
                     = Throws e ->
                     run = push acc (caught fieldName envVarName final e))
                  /\ (forall r,
                        callValidator (eff_validator effectiveSchema) final
                        = Returns r ->
                        r <> JBool true ->
                        run = push acc
                                (format_error fieldName envVarName final r
                                   "Custom validation failed"))).
Proof.
  intros host fieldName envVarName effectiveSchema value acc run.
  subst run.
  unfold tryBlock, coerced_value, transformed_value, callValidator.
  split; [ intros e ->; reflexivity | ].
  intros coerced ->.
  split; [ intros e ->; reflexivity | ].
  intros final ->.
  split; [ intros e ->; reflexivity | ].
  split.
  - intros r -> Hr.
    destruct (is_true r) eqn:T; [ apply is_true_spec in T; contradiction | ].
    reflexivity.
  - intros ->; simpl.
    split; [ intros e ->; reflexivity | ].
    intros r -> Hr.
    destruct (is_true r) eqn:T; [ apply is_true_spec in T; contradiction | ].
    reflexivity.
Qed.

(** The errors after the [try] block are those before it and one more at
    most. *)
Lemma tryBlock_errors :
  forall host fieldName envVarName effectiveSchema value acc,
    exists added,
      (length added <= 1)%nat
      /\ fst (tryBlock host fieldName envVarName effectiveSchema value acc)
         = (fst acc ++ added)%list.
Proof.
  intros host fieldName envVarName effectiveSchema value acc.
  destruct (tryBlock_outcome host fieldName envVarName effectiveSchema value acc)
    as [(final & _ & ->) | (_ & e & ->)].
  - exists []; simpl; split; [ lia | now rewrite app_nil_r ].
  - exists [e]; simpl; split; [ lia | reflexivity ].
Qed.

(** One turn of the loop adds one error at most, and throws only what the
    default producer of the field throws. *)
Lemma validateField_outcome :
  forall host envOverrides env acc fieldName fieldSchema,
    (exists acc' added,
       validateField host envOverrides env acc fieldName fieldSchema
       = Returns acc'
       /\ (length added <= 1)%nat
       /\ fst acc' = (fst acc ++ added)%list)
    \/ (exists e,
          eff_default (effectiveSchemaOf envOverrides fieldName fieldSchema)
          = Some (DefaultProducer (Throws e))
          /\ validateField host envOverrides env acc fieldName fieldSchema
             = Throws e).
Proof.
  intros host envOverrides env acc fieldName fieldSchema.
  unfold validateField.
  set (effectiveSchema := effectiveSchemaOf envOverrides fieldName fieldSchema).
  set (envVarName := Str.toUpperCase fieldName).
  destruct (is_undefined (env_get env envVarName)).
  - destruct (eff_required effectiveSchema).
    + left; eexists; eexists [_]; repeat split; simpl; lia.
    + destruct (default_defined (eff_default effectiveSchema)).
      * destruct (eff_default effectiveSchema) as [[v | [v | e]] | ]; simpl.
        -- destruct (tryBlock_errors host fieldName envVarName effectiveSchema
                       v acc) as (added & Hlen & Hfst).
           left; eexists; exists added; repeat split; assumption.
        -- destruct (tryBlock_errors host fieldName envVarName effectiveSchema
                       v acc) as (added & Hlen & Hfst).
           left; eexists; exists added; repeat split; assumption.
        -- right; exists e; split; reflexivity.
        -- destruct (tryBlock_errors host fieldName envVarName effectiveSchema
                       JUndefined acc) as (added & Hlen & Hfst).
           left; eexists; exists added; repeat split; assumption.
      * left; eexists; exists []; repeat split; simpl;
          [ lia | now rewrite app_nil_r ].
  - destruct (tryBlock_errors host fieldName envVarName effectiveSchema
                (env_get env envVarName) acc) as (added & Hlen & Hfst).
    left; eexists; exists added; repeat split; assumption.
Qed.

Lemma validateFields_outcome :
  forall host envOverrides env entries acc,
    (exists acc' per_field,
       validateFields host envOverrides env entries acc = Returns acc'
       /\ length per_field = length entries
       /\ Forall (fun added => (length added <= 1)%nat) per_field
       /\ fst acc' = (fst acc ++ concat per_field)%list)
    \/ (exists fieldName fieldSchema e,
          In (fieldName, fieldSchema) entries
          /\ eff_default (effectiveSchemaOf envOverrides fieldName fieldSchema)
             = Some (DefaultProducer (Throws e))
          /\ validateFields host envOverrides env entries acc = Throws e).
Proof.
  intros host envOverrides env entries.
  induction entries as [ | [fieldName fieldSchema] rest IH ]; intros acc; simpl.
  - left; exists acc, []; repeat split; simpl;
      [ constructor | now rewrite app_nil_r ].
  - destruct (validateField_outcome host envOverrides env acc fieldName
                fieldSchema) as [(acc1 & added & -> & Hlen & Hfst) | (e & Hd & ->)];
      simpl.
    + destruct (IH acc1) as [(acc' & per & -> & Hper & Hall & Hacc)
                            | (n & fs & e & Hin & Hd & ->)].
      * left; exists acc', (added :: per); repeat split; simpl.
        -- now rewrite Hper.
        -- constructor; assumption.
        -- now rewrite Hacc, Hfst, app_assoc.
      * right; exists n, fs, e; repeat split; [ now right | assumption ].
    + right; exists fieldName, fieldSchema, e; repeat split;
        [ now left | assumption ].
Qed.

(** What the [try] block adds to the errors is what its stages report. *)
Lemma tryBlock_report :
  forall host fieldName envVarName effectiveSchema value acc,
    exists added,
      fst (tryBlock host fieldName envVarName effectiveSchema value acc)
      = (fst acc ++ added)%list
      /\ (length added <= 1)%nat
      /\ stage_report host fieldName envVarName effectiveSchema value added.
Proof.
  intros host fieldName envVarName effectiveSchema value acc.
  pose proof (tryBlock_first_failure host fieldName envVarName effectiveSchema
                value acc) as F. cbv zeta in F.
  destruct (tryBlock_outcome host fieldName envVarName effectiveSchema value acc)
    as [(final & (coerced & Hc & Hx & Hb & Hv) & Hrun) | (Hfail & e & Hrun)].
  - exists []. rewrite Hrun. simpl. rewrite app_nil_r.
    split; [ reflexivity | ]. split; [ lia | ].
    unfold stage_report.
    split; [ intros x Hx'; congruence | ].
    intros c Hc'. assert (c = coerced) by congruence. subst c.
    split; [ intros x Hx'; congruence | ].
    intros f Hf'. assert (f = final) by congruence. subst f.
    split; [ intros x Hx'; congruence | ].
    split; [ intros r Hr Hne; congruence | ].
    intros _.
    split; [ intros x Hx'; congruence | ].
    split; [ intros r Hr Hne; congruence | reflexivity ].
  - exists [e]. rewrite Hrun. split; [ reflexivity | ]. split; [ simpl; lia | ].
    assert (P : forall x,
              tryBlock host fieldName envVarName effectiveSchema value acc
              = push acc x -> [e] = [x]).
    { intros x Hx. rewrite Hrun in Hx. apply push_injective in Hx.
      now subst x. }
    destruct F as (F1 & F2). unfold stage_report.
    split; [ intros x Hx; exact (P _ (F1 x Hx)) | ].
    intros c Hc. destruct (F2 c Hc) as (F3 & F4).
    split; [ intros x Hx; exact (P _ (F3 x Hx)) | ].
    intros f Hf. destruct (F4 f Hf) as (F5 & F6 & F7).
    split; [ intros x Hx; exact (P _ (F5 x Hx)) | ].
    split; [ intros r Hr Hne; exact (P _ (F6 r Hr Hne)) | ].
    intros Hb. destruct (F7 Hb) as (F8 & F9).
    split; [ intros x Hx; exact (P _ (F8 x Hx)) | ].
    split; [ intros r Hr Hne; exact (P _ (F9 r Hr Hne)) | ].
    intros Hv. exfalso. apply (Hfail f). exists c. repeat split; assumption.
Qed.

(** What one turn of the loop adds to the errors is what the field
    reports. *)
Lemma validateField_report :
  forall host envOverrides env acc fieldName fieldSchema acc',
    validateField host envOverrides env acc fieldName fieldSchema
    = Returns acc' ->
    exists added,
      fst acc' = (fst acc ++ added)%list
      /\ field_report host envOverrides env (fieldName, fieldSchema) added.
Proof.
  intros host envOverrides env acc fieldName fieldSchema acc' H.
  unfold validateField in H. unfold field_report. cbn [fst snd]. cbv zeta.
  set (effectiveSchema := effectiveSchemaOf envOverrides fieldName fieldSchema)
    in *.
  set (envVarName := Str.toUpperCase fieldName) in *.
  destruct (is_undefined (env_get env envVarName)) eqn:U.
  - assert (V : env_get env envVarName = JUndefined)
      by (destruct (env_get env envVarName); try discriminate U; reflexivity).
    destruct (eff_required effectiveSchema) eqn:R.
    + injection H as <-. exists [missing fieldName].
      split; [ reflexivity | ]. split; [ simpl; lia | ].
      split; [ intros C; now contradiction C | ]. intros _.
      split; [ reflexivity | discriminate ].
    + destruct (default_defined (eff_default effectiveSchema)) eqn:D.
      * destruct (invokeDefault (eff_default effectiveSchema))
          as [value | ] eqn:I; [ | discriminate ].
        cbn [bind] in H. injection H as <-.
        destruct (tryBlock_report host fieldName envVarName effectiveSchema
                    value acc) as (added & Hfst & Hlen & Hrep).
        exists added. split; [ exact Hfst | ]. split; [ exact Hlen | ].
        split; [ intros C; now contradiction C | ]. intros _.
        split; [ discriminate | ]. intros _.
        split; [ discriminate | ]. intros _ v Hv.
        assert (v = value) by congruence. now subst v.
      * injection H as <-. exists []. rewrite app_nil_r.
        split; [ reflexivity | ]. split; [ simpl; lia | ].
        split; [ intros C; now contradiction C | ]. intros _.
        split; [ discriminate | ]. intros _.
        split; [ reflexivity | discriminate ].
  - injection H as <-.
    destruct (tryBlock_report host fieldName envVarName effectiveSchema
                (env_get env envVarName) acc) as (added & Hfst & Hlen & Hrep).
    exists added. split; [ exact Hfst | ]. split; [ exact Hlen | ].
    split; [ intros _; exact Hrep | ].
    intros C. rewrite C in U. discriminate U.
Qed.

(** The errors of a run of the loop are those of its fields, in their
    order. *)
Lemma validateFields_report :
  forall host envOverrides env entries acc acc',
    validateFields host envOverrides env entries acc = Returns acc' ->
    exists per_field,
      Forall2 (field_report host envOverrides env) entries per_field
      /\ fst acc' = (fst acc ++ concat per_field)%list.
Proof.
  intros host envOverrides env entries.
  induction entries as [ | [n fs] rest IH ]; intros acc acc' H.
  - injection H as <-. exists []. split; [ constructor | ].
    simpl. now rewrite app_nil_r.
  - simpl in H.
    destruct (validateField host envOverrides env acc n fs) as [acc1 | ] eqn:F;
      [ | discriminate ].
    simpl in H.
    destruct (@validateField_report _ _ _ _ _ _ _ F) as (added & Hfst & Hrep).
    destruct (IH acc1 acc' H) as (per & Hper & Hacc).
    exists (added :: per). split; [ constructor; assumption | ].
    simpl. now rewrite Hacc, Hfst, app_assoc.
Qed.

(** C6. A call of [validateEnv] returns a result whose errors are, field
    by field in the order of the schema, the errors that the fields
    report: for each field one error at most, which is that of the first
    stage that fails on its variable or on the default that stands for it
    (a coercion that throws, a transform that throws, a built-in or
    composed validator that refuses the value or throws), that of a
    required variable that is missing, and none when every stage passes.
    Inside the [try] block each such failure leaves that one error in the
    list and nothing in [validatedData].  The one exception that leaves
    [validateEnv] is that of a default producer, which is called before the
    [try] block. *)
Theorem validateEnv_captures_problems :
  forall host compiledSchema envVars environment,
    ((exists r per_field,
        validateEnv host compiledSchema envVars environment = Returns r
        /\ length per_field = length (schema compiledSchema)
        /\ Forall (fun added => (length added <= 1)%nat) per_field
        /\ Forall2
             (field_report host (resolveOverrides compiledSchema environment)
                (match envVars with
                 | Some e => e
                 | None => process_env host
                 end))
             (schema compiledSchema) per_field
        /\ errors r = concat per_field)
     \/ (exists fieldName fieldSchema e,
           In (fieldName, fieldSchema) (schema compiledSchema)
           /\ eff_default
                (effectiveSchemaOf
                   (resolveOverrides compiledSchema environment)
                   fieldName fieldSchema)
              = Some (DefaultProducer (Throws e))
           /\ validateEnv host compiledSchema envVars environment = Throws e))
    /\ forall fieldName envVarName effectiveSchema value acc,
         (exists final,
            all_stages_pass host effectiveSchema value final
            /\ tryBlock host fieldName envVarName effectiveSchema value acc
               = (fst acc, set (snd acc) fieldName final))
         \/ ((forall final, ~ all_stages_pass host effectiveSchema value final)
             /\ exists e,
                  tryBlock host fieldName envVarName effectiveSchema value acc
                  = push acc e
                  /\ (forall x,
                        coerced_value host effectiveSchema value = Throws x ->
                        e = caught fieldName envVarName value x)
                  /\ (forall coerced x,
                        coerced_value host effectiveSchema value
                        = Returns coerced ->
                        transformed_value effectiveSchema coerced = Throws x ->
                        e = transform_error fieldName envVarName coerced x)
                  /\ (forall coerced final r,
                        coerced_value host effectiveSchema value
                        = Returns coerced ->
                        transformed_value effectiveSchema coerced
                        = Returns final ->
                        builtInValidator host (eff_type effectiveSchema) final
                        = Returns r ->
                        r <> JBool true ->
                        e = format_error fieldName envVarName final r
                              "Validation failed")).
Proof.
  intros host compiledSchema envVars environment.
  split.
  2: { intros fieldName envVarName effectiveSchema value acc.
       destruct (tryBlock_outcome host fieldName envVarName effectiveSchema
                   value acc) as [Hpass | (Hfail & e & He)];
         [ left; exact Hpass | right ].
       split; [ exact Hfail | ].
       exists e; split; [ exact He | ].
       destruct (tryBlock_first_failure host fieldName envVarName
                   effectiveSchema value acc) as (H1 & H2).
       repeat split.
       - intros x Hx. apply H1 in Hx. rewrite He in Hx.
         now apply push_injective in Hx.
       - intros coerced x Hc Hx.
         apply H2 in Hc as (H3 & _). apply H3 in Hx. rewrite He in Hx.
         now apply push_injective in Hx.
       - intros coerced final r Hc Hf Hr Hne.
         apply H2 in Hc as (_ & H4). apply H4 in Hf as (_ & H5 & _).
         apply (H5 r Hr) in Hne. rewrite He in Hne.
         now apply push_injective in Hne. }
  unfold validateEnv.
  set (env := match envVars with
              | Some e => e
              | None => process_env host
              end).
  set (envOverrides := resolveOverrides compiledSchema environment).
  destruct (validateFields host envOverrides env (schema compiledSchema)
              ([], [])) as [[errs validatedData] | x] eqn:E.
  - left.
    destruct (@validateFields_report _ _ _ _ _ _ E) as (per & Hper & Hacc).
    simpl in Hacc. eexists; exists per. cbn [bind].
    split; [ reflexivity | ].
    split; [ symmetry; exact (Forall2_length Hper) | ].
    split.
    + clear - Hper. induction Hper as [ | ? ? ? ? (Hlen & _) ];
        constructor; assumption.
    + split; [ exact Hper | exact Hacc ].
  - right.
    destruct (validateFields_outcome host envOverrides env
                (schema compiledSchema) ([], []))
      as [(acc' & per & Hret & _) | (n & fs & e & Hin & Hd & Hthrow)];
      rewrite E in *; [ discriminate | ].
    injection Hthrow as ->.
    exists n, fs, e. repeat split; assumption.
Qed.

(** *** The order of the checks of a composed validator *)

Lemma typeSpecificValidator_spec :
  forall host fieldDef type validator,
    typeSpecificValidator host fieldDef type validator
    = match type, def_pattern fieldDef with
      | Tregex, Some pattern =>
          Some (fun value => validateRegex host value (Some pattern))
      | _, _ =>
          match typeSpecificCheck host fieldDef type with
          | Some check =>
              Some (checkThen (fun value => Returns (check value)) validator)
          | None => validator
          end
      end.
Proof.
  intros host fieldDef type validator.
  destruct type; simpl.
  - destruct (def_minLength fieldDef), (def_maxLength fieldDef); reflexivity.
  - destruct (def_min fieldDef), (def_max fieldDef); reflexivity.
  - reflexivity.
  - destruct (def_protocols fieldDef), (def_requireProtocol fieldDef);
      reflexivity.
  - destruct (def_common fieldDef); reflexivity.
  - destruct (def_allowPlus fieldDef); reflexivity.
  - destruct (some_nonempty (def_version fieldDef)); reflexivity.
  - reflexivity.
  - destruct (def_pattern fieldDef); reflexivity.
Qed.

(** C3. The validator composed for a field with a non-empty [enum] and a
    [validate]: membership in the enum is checked first and its failure is
    the answer; then, for a type other than [regex] with a pattern, the
    check of the type and after it the custom predicate.  For [regex] with
    a pattern the [switch] replaces the validator: the pattern is checked
    and the custom predicate is not called, so the field of type [regex]
    with the enum [['abc']] and a predicate that refuses every value
    accepts ['abc']. *)
Theorem enum_then_type_then_custom :
  forall host fieldDef type e es validate value,
    let enumValues := e :: es in
    let definition :=
      with_validate (with_enum fieldDef (Some enumValues)) (Some validate) in
    let composed := cf_validator (compileField host definition type) in
    (includes enumValues value = false ->
     callValidator composed value
     = Returns (JStr ("Value must be one of: "
                      ++ join_values host ", " enumValues)))
    /\ callValidator composed value
       = match type, def_pattern fieldDef with
         | Tregex, Some pattern =>
             if negb (includes enumValues value) then
               Returns (JStr ("Value must be one of: "
                              ++ join_values host ", " enumValues))
             else validateRegex host value (Some pattern)
         | _, _ =>
             spec_enumTypeCustom host enumValues
               (match typeSpecificCheck host fieldDef type with
                | Some check => Some (fun value => Returns (check value))
                | None => None
                end)
               validate value
         end
    /\ callValidator
         (cf_validator (compileField host regex_enum_validate Tregex))
         (JStr "abc")
       = Returns (JBool true)
    /\ spec_enumTypeCustom host [JStr "abc"]
         (Some (fun value => validateRegex host value (Some abc_only)))
         refuse_all (JStr "abc")
       = Returns (JStr "never").
Proof.
  intros host fieldDef type e es validate value enumValues definition composed.
  assert (Hc : callValidator composed value
               = enumValidator host enumValues
                   (typeSpecificValidator host definition type
                      (Some (customValidator validate))) value)
    by reflexivity.
  split; [ | split; [ | split; reflexivity ] ].
  - intros Hout. rewrite Hc. unfold enumValidator. now rewrite Hout.
  - rewrite Hc, typeSpecificValidator_spec.
    unfold enumValidator, spec_enumTypeCustom.
    change (def_pattern definition) with (def_pattern fieldDef).
    change (typeSpecificCheck host definition type)
      with (typeSpecificCheck host fieldDef type).
    destruct (negb (includes enumValues value)).
    + destruct type; try reflexivity.
      destruct (def_pattern fieldDef); reflexivity.
    + destruct type; try (destruct (typeSpecificCheck _ _ _); reflexivity).
      destruct (def_pattern fieldDef); reflexivity.
Qed.

(** *** The validator of a field of type [regex] *)

(** C4, as the specification has it, fails: with the enum [['a']] the
    validator compiled for a field of type [regex] refuses ['b'], which
    the pattern matches. *)
Lemma regex_validator_checks_enum :
  callValidator (cf_validator (compileField Sample.host regex_enum_a Tregex))
                (JStr "b")
  = Returns (JStr "Value must be one of: a")
  /\ validateRegex Sample.host (JStr "b") (Some any_string)
     = Returns (JBool true)
  /\ any_string "b" = true.
Proof.
  repeat split.
Qed.

(** C4, amended.  For a field of type [regex] with a pattern, the compiled
    validator is the pattern check of [validateRegex], behind the
    membership check when the field has a non-empty [enum]; with no such
    [enum] it answers [true] on a string exactly when the pattern matches
    it.  A [validate] of the same field is not part of it: every
    [validate], or none, compiles to the same answers. *)
Theorem regex_validator_is_pattern_check :
  forall host fieldDef pattern value,
    let definition := with_pattern fieldDef (Some pattern) in
    let composed := cf_validator (compileField host definition Tregex) in
    callValidator composed value
    = match def_enum fieldDef with
      | Some (e :: es) =>
          if negb (includes (e :: es) value) then
            Returns (JStr ("Value must be one of: "
                           ++ join_values host ", " (e :: es)))
          else validateRegex host value (Some pattern)
      | _ => validateRegex host value (Some pattern)
      end
    /\ match def_enum fieldDef with
       | Some (_ :: _) => True
       | _ =>
           forall s,
             callValidator composed (JStr s) = Returns (JBool true)
             <-> pattern s = true
       end
    /\ forall validate,
         callValidator
           (cf_validator
              (compileField host (with_validate definition validate) Tregex))
           value
         = callValidator composed value.
Proof.
  intros host fieldDef pattern value definition composed.
  assert (Hc : forall validate v,
            callValidator
              (cf_validator
                 (compileField host (with_validate definition validate) Tregex))
              v
            = match def_enum fieldDef with
              | Some (e :: es) =>
                  if negb (includes (e :: es) v) then
                    Returns (JStr ("Value must be one of: "
                                   ++ join_values host ", " (e :: es)))
                  else validateRegex host v (Some pattern)
              | _ => validateRegex host v (Some pattern)
              end).
  { intros validate v.
    unfold compileField; simpl.
    destruct (def_enum fieldDef) as [[ | e es] | ]; reflexivity. }
  assert (Hd : forall v,
            callValidator composed v
            = callValidator
                (cf_validator
                   (compileField host
                      (with_validate definition (def_validate fieldDef))
                      Tregex)) v)
    by reflexivity.
  split; [ rewrite Hd; apply Hc | ].
  split.
  - destruct (def_enum fieldDef) as [[ | e es] | ] eqn:He; [ | exact I | ];
      intros s; rewrite Hd, Hc, ?He; simpl;
      destruct (pattern s); simpl; split; congruence.
  - intros validate. rewrite Hc, Hd, Hc. reflexivity.
Qed.

(** *** Coercion to a number *)

Lemma append_empty (s : string) : s ++ EmptyString = s.
Proof.
  induction s as [ | c s IH ]; simpl; [ reflexivity | now rewrite IH ].
Qed.

Lemma append_assoc (a b c : string) : (a ++ b) ++ c = a ++ (b ++ c).
Proof.
  induction a as [ | x a IH ]; simpl; [ reflexivity | now rewrite IH ].
Qed.

Lemma span_app (p : ascii -> bool) (s a b : string) :
  Str.span p s = (a, b) -> s = a ++ b.
Proof.
  revert a b; induction s as [ | c s IH ]; simpl; intros a b H.
  - now injection H as <- <-.
  - destruct (p c).
    + destruct (Str.span p s) as [a' b'].
      injection H as <- <-. simpl. now rewrite (IH a' b' eq_refl).
    + now injection H as <- <-.
Qed.

Lemma span_prefix (p : ascii -> bool) (s a b t : string) :
  Str.span p s = (a, b) -> stops p t -> Str.span p (a ++ t) = (a, t).
Proof.
  revert a b; induction s as [ | c s IH ]; simpl; intros a b H Ht.
  - injection H as <- <-; simpl.
    destruct t as [ | x t ]; simpl in *; [ reflexivity | now rewrite Ht ].
  - destruct (p c) eqn:E.
    + destruct (Str.span p s) as [a' b'].
      injection H as <- <-. simpl. rewrite E.
      now rewrite (IH a' b' eq_refl Ht).
    + injection H as <- <-; simpl.
      destruct t as [ | x t ]; simpl in *; [ reflexivity | now rewrite Ht ].
Qed.

Lemma scan_sign_prefix (s : string) (neg : bool) (r : string) :
  scan_sign s = (neg, r) ->
  exists sign,
    s = sign ++ r
    /\ forall x b b',
         r = String x b ->
         scan_sign (sign ++ String x b') = (neg, String x b').
Proof.
  unfold scan_sign.
  destruct s as [ | c s' ].
  - intros H; injection H as <- <-. exists EmptyString; split; [ reflexivity | ].
    intros x b b' Hx; discriminate.
  - destruct (Ascii.eqb_spec c "+") as [-> | Hp].
    { intros H; injection H as <- <-. exists "+"; split; reflexivity. }
    destruct (Ascii.eqb_spec c "-") as [-> | Hm].
    { intros H; injection H as <- <-. exists "-"; split; reflexivity. }
    intros H; injection H as <- <-.
    exists EmptyString; split; [ reflexivity | ].
    intros x b b' Hx; injection Hx as <- <-; simpl.
    apply Ascii.eqb_neq in Hp, Hm. now rewrite Hp, Hm.
Qed.

(** What [scan_exponent] consumes is an exponent part by itself. *)
Lemma scan_exponent_prefix (s : string) (ex : Z) (rest : string) :
  scan_exponent s = (ex, rest) ->
  exists text,
    s = text ++ rest
    /\ scan_exponent text = (ex, EmptyString)
    /\ stops (fun c => Str.is_digit c || Ascii.eqb c ".") text.
Proof.
  unfold scan_exponent.
  destruct s as [ | c r ].
  - intros H; injection H as <- <-. exists EmptyString; repeat split.
  - destruct (Ascii.eqb c "e" || Ascii.eqb c "E") eqn:Ec.
    2: { intros H; injection H as <- <-. exists EmptyString; repeat split. }
    assert (Hc : Str.is_digit c || Ascii.eqb c "." = false).
    { apply orb_true_iff in Ec as [Ec | Ec];
        apply Ascii.eqb_eq in Ec; subst; reflexivity. }
    destruct (scan_sign r) as [neg r1] eqn:Es.
    destruct (Str.span Str.is_digit r1) as [ds r2] eqn:Ed.
    destruct (Str.is_empty ds) eqn:Ee.
    { intros H; injection H as <- <-. exists EmptyString; repeat split. }
    intros H; injection H as <- <-.
    pose proof (span_app _ _ Ed) as Hr1.
    pose proof (@span_prefix _ _ _ _ EmptyString Ed I) as Hds.
    rewrite append_empty in Hds.
    destruct (scan_sign_prefix _ Es) as (sign & Hr & Hs).
    destruct ds as [ | d ds' ]; [ discriminate | ].
    specialize (Hs d (ds' ++ r2) ds' Hr1).
    exists (String c (sign ++ String d ds')); repeat split.
    + simpl. rewrite append_assoc, <- Hr1, <- Hr. reflexivity.
    + simpl. rewrite Ec, Hs, Hds, Ee. reflexivity.
    + exact Hc.
Qed.

Lemma stops_digit (t : string) :
  stops (fun c => Str.is_digit c || Ascii.eqb c ".") t -> stops Str.is_digit t.
Proof.
  destruct t as [ | c t ]; simpl; [ trivial | ].
  intros H; now apply orb_false_iff in H.
Qed.

Lemma stops_dot (t : string) :
  stops (fun c => Str.is_digit c || Ascii.eqb c ".") t ->
  scan_fraction t = (EmptyString, t).
Proof.
  destruct t as [ | c t ]; simpl; [ reflexivity | ].
  intros H; apply orb_false_iff in H as [_ H]. now rewrite H.
Qed.

(** What [scan_fraction] consumes is a fraction part whatever follows it,
    as long as that is neither a digit nor a dot. *)
Lemma scan_fraction_prefix (s fp rest : string) :
  scan_fraction s = (fp, rest) ->
  exists text,
    s = text ++ rest
    /\ stops Str.is_digit text
    /\ (Str.is_empty fp = false -> Str.is_empty text = false)
    /\ forall t,
         stops (fun c => Str.is_digit c || Ascii.eqb c ".") t ->
         scan_fraction (text ++ t) = (fp, t).
Proof.
  unfold scan_fraction.
  destruct s as [ | c r ].
  - intros H; injection H as <- <-.
    exists EmptyString; repeat split; try (intros; assumption).
    intros t Ht; apply (stops_dot _ Ht).
  - destruct (Ascii.eqb_spec c ".") as [-> | Hc].
    + intros H.
      exists (String "." fp); repeat split.
      * simpl. now rewrite <- (span_app _ _ H).
      * intros t Ht; simpl.
        apply (@span_prefix _ _ _ _ _ H), stops_digit, Ht.
    + intros H; injection H as <- <-.
      exists EmptyString; repeat split; try (intros; assumption).
      intros t Ht; apply (stops_dot _ Ht).
Qed.

Lemma strip_prefix_app (q s r : string) :
  Str.strip_prefix q s = Some r -> s = q ++ r.
Proof.
  revert s; induction q as [ | a q IH ]; simpl; intros s H.
  - now injection H as <-.
  - destruct s as [ | b s ]; [ discriminate | ].
    destruct (Ascii.eqb_spec a b) as [<- | ]; [ | discriminate ].
    now rewrite (IH _ H).
Qed.

Lemma strip_prefix_none (q b t : string) :
  Str.strip_prefix q (b ++ t) = None -> Str.strip_prefix q b = None.
Proof.
  revert b; induction q as [ | a q IH ]; simpl; intros b H.
  - discriminate.
  - destruct b as [ | c b ]; [ reflexivity | ].
    simpl in H. destruct (Ascii.eqb a c); [ now apply IH | reflexivity ].
Qed.

Lemma is_empty_append (a b : string) :
  Str.is_empty a = false -> exists x r, a ++ b = String x (r ++ b) /\ a = String x r.
Proof.
  destruct a as [ | x r ]; [ discriminate | ].
  intros _; exists x, r; split; reflexivity.
Qed.

(** [scan_literal] reads a prefix of the string and nothing of what
    follows it: the prefix alone scans to the same literal. *)
Lemma scan_literal_prefix (s : string) (lit : StrDecimalLiteral) (rest : string) :
  scan_literal s = Some (lit, rest) ->
  exists prefix,
    s = prefix ++ rest /\ scan_literal prefix = Some (lit, EmptyString).
Proof.
  unfold scan_literal.
  destruct (scan_sign s) as [neg s1] eqn:Es.
  destruct (scan_sign_prefix _ Es) as (sign & Hs & Hsign).
  destruct (Str.strip_prefix "Infinity" s1) as [r | ] eqn:Ei.
  - intros H; injection H as <- <-.
    apply strip_prefix_app in Ei.
    exists (sign ++ "Infinity"); split.
    + now rewrite append_assoc, <- Ei.
    + rewrite (Hsign "I"%char ("nfinity" ++ r) "nfinity" Ei). reflexivity.
  - destruct (Str.span Str.is_digit s1) as [ip s2] eqn:Eip.
    destruct (scan_fraction s2) as [fp s3] eqn:Efp.
    destruct (Str.is_empty ip && Str.is_empty fp) eqn:Eempty; [ discriminate | ].
    destruct (scan_exponent s3) as [ex s4] eqn:Eex.
    intros H; injection H as <- <-.
    pose proof (span_app _ _ Eip) as H1.
    destruct (scan_fraction_prefix _ Efp) as (ftext & H2 & Hfd & Hfe & Hf).
    destruct (scan_exponent_prefix _ Eex) as (etext & H3 & He & Hestop).
    assert (Hbody : s1 = (ip ++ ftext ++ etext) ++ s4).
    { now rewrite !append_assoc, <- H3, <- H2. }
    assert (Hne : Str.is_empty (ip ++ ftext ++ etext) = false).
    { apply andb_false_iff in Eempty as [E | E].
      - destruct ip; [ discriminate | reflexivity ].
      - apply Hfe in E. destruct ip; simpl; [ | reflexivity ].
        destruct ftext; [ discriminate | reflexivity ]. }
    destruct (@is_empty_append _ s4 Hne) as (x & b & Hx & Hb).
    exists (sign ++ ip ++ ftext ++ etext); split.
    + now rewrite append_assoc, <- Hbody.
    + rewrite Hb, (Hsign x (b ++ s4) b) by now rewrite Hbody, Hx.
      rewrite <- Hb.
      rewrite Hbody in Ei. rewrite (@strip_prefix_none _ _ _ Ei).
      assert (Hstop : stops Str.is_digit (ftext ++ etext)).
      { destruct ftext; simpl; [ apply stops_digit, Hestop | exact Hfd ]. }
      rewrite (@span_prefix _ _ _ _ _ Eip Hstop), (Hf _ Hestop), Eempty, He.
      reflexivity.
Qed.

(** C8, as the specification has it, fails: ['1e999'] is a decimal literal
    from its first character to its last, and it is refused, because its
    value is [Infinity]. *)
Lemma overflowing_literal_is_refused :
  scan_literal "1e999" = Some (LitDecimal false "1" EmptyString 999, EmptyString)
  /\ literal_value (LitDecimal false "1" EmptyString 999) = Num.Infinity
  /\ coerceValue Sample.host (JStr "1e999") Tnumber
     = Throws (cannot_coerce Sample.host Tnumber (JStr "1e999"))
  /\ coerceValue Sample.host (JStr "1e999") Tport
     = Throws (cannot_coerce Sample.host Tport (JStr "1e999")).
Proof.
  repeat split; vm_compute; reflexivity.
Qed.

Lemma finite_guard (A : Type) (v : number) (a b : A) :
  (if Num.isNaN v || negb (Num.isFinite v) then a else b)
  = (if Num.isFinite v then b else a).
Proof.
  destruct v; reflexivity.
Qed.

(** C8, amended.  On a string, [coerceValue] with the target [number] or
    [port] skips leading white space and reads the longest prefix that is
    a decimal literal; what follows the prefix is not looked at.  When the
    value of the literal is finite the string coerces to it, so
    ['12.34.56'] coerces to 12.34; when it is not (a literal that
    overflows, or [Infinity]) or when there is no such prefix, as for the
    empty string, the coercion throws.  A number passes through unchanged
    exactly when it is finite and not NaN. *)
Theorem coerceValue_number_reads_prefix :
  forall host type s,
    numeric_target type = true ->
    (forall lit rest,
       scan_literal (Str.trimStart s) = Some (lit, rest) ->
       (exists prefix,
          Str.trimStart s = prefix ++ rest
          /\ scan_literal prefix = Some (lit, EmptyString))
       /\ coerceValue host (JStr s) type
          = if Num.isFinite (literal_value lit)
            then Returns (JNum (literal_value lit))
            else Throws (cannot_coerce host type (JStr s)))
    /\ (scan_literal (Str.trimStart s) = None ->
        coerceValue host (JStr s) type
        = Throws (cannot_coerce host type (JStr s)))
    /\ coerceValue host (JStr "12.34.56") type
       = Returns (JNum (S754_finite false 6946802425218990 (-49)))
    /\ coerceValue host (JStr "12.34") type
       = Returns (JNum (S754_finite false 6946802425218990 (-49)))
    /\ coerceValue host (JStr EmptyString) type
       = Throws (cannot_coerce host type (JStr EmptyString))
    /\ forall n,
         (coerceValue host (JNum n) type = Returns (JNum n)
          <-> Num.isNaN n = false /\ Num.isFinite n = true)
         /\ (Num.isFinite n = false ->
             exists e, coerceValue host (JNum n) type = Throws e).
Proof.
  intros host type s Htype.
  assert (Hs : forall t,
            coerceValue host (JStr t) type
            = if Num.isFinite (parseFloat t)
              then Returns (JNum (parseFloat t))
              else Throws (cannot_coerce host type (JStr t))).
  { intros t. destruct type; try discriminate;
      unfold coerceValue, cannot_coerce, ToString; apply finite_guard. }
  split; [ intros lit rest H; split | ].
  - now apply scan_literal_prefix.
  - rewrite Hs. unfold parseFloat. now rewrite H.
  - split; [ | repeat split ].
    + intros Hnone. rewrite Hs. unfold parseFloat. now rewrite Hnone.
    + now rewrite Hs.
    + now rewrite Hs.
    + now rewrite Hs.
    + destruct type; try discriminate; destruct n; simpl in *; congruence.
    + destruct type; try discriminate; destruct n; simpl in *; congruence.
    + intros [Hnan Hfin].
      destruct type; try discriminate; destruct n; try discriminate;
        reflexivity.
    + intros Hn. destruct type; try discriminate;
        destruct n; try discriminate; simpl; eexists; reflexivity.
Qed.

(** The string ['12.34.56'] under the target [number]: the literal read is
    [12.34] and what follows it is ['.56']. *)
Lemma coerceValue_number_reads_prefix_witness :
  numeric_target Tnumber = true
  /\ scan_literal (Str.trimStart "12.34.56")
     = Some (LitDecimal false "12" "34" 0, ".56")
  /\ coerceValue Sample.host (JStr "12.34.56") Tnumber
     = Returns (JNum (S754_finite false 6946802425218990 (-49))).
Proof.
  split; [ reflexivity | ].
  split; [ reflexivity | ].
  exact (proj2 (proj1 (@coerceValue_number_reads_prefix Sample.host Tnumber
                         "12.34.56" eq_refl)
                      (LitDecimal false "12" "34" 0) ".56" eq_refl)).
Defined.

(* ===================================================================== *)
(** ** Further properties of the validators *)
(* ===================================================================== *)

(** *** Matching by derivatives is sound *)

Import ReLang.

Lemma nullable_lang (r : Re.re) : Re.nullable r = true -> lang r EmptyString.
Proof.
  induction r; simpl; intros H; try discriminate.
  - constructor.
  - apply andb_true_iff in H as [Ha Hb].
    change EmptyString with (EmptyString ++ EmptyString).
    constructor; auto.
  - apply orb_true_iff in H as [H | H];
      [ apply lang_alt_l | apply lang_alt_r ]; auto.
  - constructor.
Qed.

Lemma lang_void (s : string) : lang Re.Void s -> False.
Proof. intros H; inversion H. Qed.

Lemma seq_lang (a b : Re.re) (s : string) :
  lang (Re.seq a b) s -> lang (Re.Seq a b) s.
Proof.
  assert (Hl : forall x t, lang x t -> lang (Re.Seq Re.Eps x) t).
  { intros x t H. change t with (EmptyString ++ t).
    constructor; [ constructor | exact H ]. }
  assert (Hr : forall x t, lang x t -> lang (Re.Seq x Re.Eps) t).
  { intros x t H. rewrite <- (append_empty t).
    constructor; [ exact H | constructor ]. }
  destruct a, b; simpl; intros H;
    solve [ exact H | destruct (lang_void H) | apply Hl, H | apply Hr, H ].
Qed.

Lemma alt_lang (a b : Re.re) (s : string) :
  lang (Re.alt a b) s -> lang (Re.Alt a b) s.
Proof.
  destruct a, b; simpl; intros H;
    solve [ exact H | apply lang_alt_r, H | apply lang_alt_l, H ].
Qed.

Lemma deriv_lang (c : ascii) (r : Re.re) :
  forall s, lang (Re.deriv c r) s -> lang r (String c s).
Proof.
  induction r as [ | | p | a IHa b IHb | a IHa b IHb | a IHa ];
    simpl; intros s H.
  - destruct (lang_void H).
  - destruct (lang_void H).
  - destruct (p c) eqn:E; [ | destruct (lang_void H) ].
    inversion H; subst. now constructor.
  - assert (Hseq : forall t, lang (Re.seq (Re.deriv c a) b) t ->
                             lang (Re.Seq a b) (String c t)).
    { intros t Ht. apply seq_lang in Ht. inversion Ht; subst.
      change (String c (s0 ++ t0)) with (String c s0 ++ t0).
      constructor; auto. }
    destruct (Re.nullable a) eqn:N; [ | now apply Hseq ].
    apply alt_lang in H. inversion H; subst; [ now apply Hseq | ].
    change (String c s) with (EmptyString ++ String c s).
    constructor; [ now apply nullable_lang | auto ].
  - apply alt_lang in H.
    inversion H; subst; [ apply lang_alt_l | apply lang_alt_r ]; auto.
  - apply seq_lang in H. inversion H; subst.
    change (String c (s0 ++ t)) with (String c s0 ++ t).
    constructor; auto.
Qed.

Lemma matches_lang (s : string) :
  forall r, Re.matches r s = true -> lang r s.
Proof.
  induction s as [ | c s IH ]; simpl; intros r H.
  - now apply nullable_lang.
  - now apply deriv_lang, IH.
Qed.

Lemma count_char_append (c : ascii) (s t : string) :
  count_char c (s ++ t) = (count_char c s + count_char c t)%nat.
Proof.
  induction s as [ | a s IH ]; simpl; [ reflexivity | rewrite IH; lia ].
Qed.

Lemma in_all_ascii (a : ascii) : In a all_ascii.
Proof.
  unfold all_ascii. rewrite <- (ascii_nat_embedding a).
  apply in_map, in_seq. pose proof (nat_ascii_bounded a). lia.
Qed.

Lemma only_spec (c : ascii) (p : ascii -> bool) (a : ascii) :
  only c p = true -> p a = true -> a = c.
Proof.
  unfold only. intros H Ha.
  rewrite forallb_forall in H. specialize (H a (in_all_ascii a)).
  rewrite Ha in H. simpl in H. now apply Ascii.eqb_eq.
Qed.

(** The bounds hold for every string of the language. *)
Lemma lang_count (c : ascii) (r : Re.re) (s : string) :
  lang r s ->
  (at_least c r <= count_char c s)%nat
  /\ forall m, at_most c r = Some m -> (count_char c s <= m)%nat.
Proof.
  induction 1 as [ | p a Hp | a b s t _ [La Ma] _ [Lb Mb]
                 | a b s _ [La Ma] | a b s _ [Lb Mb]
                 | a | a s t _ [La Ma] _ [Ls Ms] ]; simpl.
  - split; [ lia | intros m H; injection H as <-; lia ].
  - split.
    + destruct (only c p) eqn:Ho; [ | lia ].
      rewrite (@only_spec c p a Ho Hp), Ascii.eqb_refl. lia.
    + intros m H.
      destruct (Ascii.eqb_spec a c) as [-> | Hn].
      * rewrite Hp in H. injection H as <-. lia.
      * lia.
  - rewrite count_char_append. split; [ lia | ].
    intros m H.
    destruct (at_most c a) as [ma | ]; [ | discriminate ].
    destruct (at_most c b) as [mb | ]; [ | discriminate ].
    injection H as <-.
    specialize (Ma _ eq_refl). specialize (Mb _ eq_refl). lia.
  - split; [ lia | ].
    intros m H.
    destruct (at_most c a) as [ma | ]; [ | discriminate ].
    destruct (at_most c b) as [mb | ]; [ | discriminate ].
    injection H as <-. specialize (Ma _ eq_refl). lia.
  - split; [ lia | ].
    intros m H.
    destruct (at_most c a) as [ma | ]; [ | discriminate ].
    destruct (at_most c b) as [mb | ]; [ | discriminate ].
    injection H as <-. specialize (Mb _ eq_refl). lia.
  - split; [ lia | intros m H; lia ].
  - rewrite count_char_append. split; [ lia | ].
    intros m H.
    destruct (at_most c a) as [[ | ma] | ] eqn:E; try discriminate.
    simpl in Ms. rewrite E in Ms.
    specialize (Ma _ eq_refl). specialize (Ms _ H). lia.
Qed.

(** *** The e-mail validator *)

Lemma emailPattern_counts :
  at_least "@" Re.emailPattern = 1%nat
  /\ at_most "@" Re.emailPattern = Some 1%nat
  /\ at_most " " Re.emailPattern = Some 0%nat
  /\ Re.matches Re.emailPattern EmptyString = false.
Proof. repeat split; vm_compute; reflexivity. Qed.

(** X1. [validateEmail] accepts a value exactly when it is a string whose
    trimmed form matches [emailPattern].  The two checks after the pattern
    never fire: a string that matches has no space and one [@], so the
    answers about spaces and about the number of [@] are never given. *)
Theorem validateEmail_is_the_pattern :
  forall email,
    (validateEmail email = JBool true
     <-> exists s,
           email = JStr s
           /\ Re.matches Re.emailPattern (Str.trim s) = true)
    /\ validateEmail email <> JStr "Email cannot contain spaces"
    /\ validateEmail email <> JStr "Email must contain exactly one @ symbol".
Proof.
  intros email.
  destruct emailPattern_counts as (Hmin & Hmax & Hspace & Hempty).
  destruct email as [ | | b | n | s | r ];
    try (split; [ split; [ discriminate | intros (s & H & _); discriminate ]
                | split; discriminate ]).
  unfold validateEmail.
  destruct (Str.trim s) as [ | c t ] eqn:Et.
  - simpl. split; [ | split; discriminate ].
    split; [ discriminate | ].
    intros (s' & H & Hm). injection H as <-.
    rewrite Et, Hempty in Hm. discriminate.
  - cbn [Str.is_empty].
    destruct (Re.matches Re.emailPattern (String c t)) eqn:Em; cbn [negb].
    + pose proof (@matches_lang _ _ Em) as L.
      destruct (lang_count " " L) as [_ Hs].
      destruct (lang_count "@" L) as [Ha1 Ha2].
      specialize (Hs _ Hspace). specialize (Ha2 _ Hmax). rewrite Hmin in Ha1.
      assert (H0 : count_char " " (String c t) = 0%nat) by lia.
      assert (H1 : count_char "@" (String c t) = 1%nat) by lia.
      rewrite H0, H1. cbn.
      split; [ | split; discriminate ].
      split; [ intros _; exists s; split; [ reflexivity | ] | reflexivity ].
      rewrite Et. exact Em.
    + split; [ | split; discriminate ].
      split; [ discriminate | ].
      intros (s' & H & Hm). injection H as <-.
      rewrite Et, Em in Hm. discriminate.
Qed.

(** *** The IP validator *)

(** X2. The version [any], which is also what no option and an empty
    version mean, accepts a value exactly when [ipv4] or [ipv6] accepts
    it; a version that is none of the three accepts nothing. *)
Theorem validateIp_versions :
  forall ip,
    (validateIp ip None = JBool true
     <-> validateIp ip (Some {| io_version := Some "ipv4" |}) = JBool true
         \/ validateIp ip (Some {| io_version := Some "ipv6" |}) = JBool true)
    /\ validateIp ip (Some {| io_version := Some "any" |}) = validateIp ip None
    /\ validateIp ip (Some {| io_version := Some EmptyString |})
       = validateIp ip None
    /\ validateIp ip (Some {| io_version := None |}) = validateIp ip None
    /\ forall version,
         version <> "ipv4" -> version <> "ipv6" -> version <> "any" ->
         validateIp ip (Some {| io_version := Some version |}) = JBool true ->
         version = EmptyString.
Proof.
  intros ip.
  destruct ip as [ | | b | n | s | r ];
    try (repeat split; try reflexivity; try discriminate;
         intros; try discriminate; destruct H; discriminate).
  unfold validateIp.
  destruct (Str.is_empty (Str.trim s)).
  { repeat split; try reflexivity; try discriminate;
      intros; try discriminate; destruct H; discriminate. }
  cbn [or_string io_version Str.is_empty].
  split; [ | split; [ reflexivity | split; [ reflexivity | split;
                                             [ reflexivity | ] ] ] ].
  - cbn.
    destruct (Re.matches Re.ipv4Pattern (Str.trim s)),
             (Re.matches Re.ipv6Pattern (Str.trim s)); cbn;
      split; intros H; try reflexivity; try discriminate; auto;
      destruct H; discriminate.
  - intros version H4 H6 Hany.
    destruct version as [ | c v ]; [ reflexivity | ].
    cbn [Str.is_empty].
    apply String.eqb_neq in H4, H6, Hany.
    rewrite H4, H6, Hany. cbn. discriminate.
Qed.

(** *** Trimming *)

Lemma trimEnd_idempotent (s : string) : Str.trimEnd (Str.trimEnd s) = Str.trimEnd s.
Proof.
  induction s as [ | c r IH ]; simpl; [ reflexivity | ].
  destruct (Str.trimEnd r) as [ | d t ] eqn:E.
  - destruct (Str.is_space c) eqn:Ec; simpl; [ reflexivity | ].
    now rewrite Ec.
  - simpl in *. now rewrite IH.
Qed.

Lemma trimStart_fixed (s : string) :
  stops Str.is_space s -> Str.trimStart s = s.
Proof.
  destruct s as [ | c r ]; simpl; [ reflexivity | ].
  intros H. now rewrite H.
Qed.

Lemma trimStart_stops (s : string) : stops Str.is_space (Str.trimStart s).
Proof.
  induction s as [ | c r IH ]; simpl; [ exact I | ].
  destruct (Str.is_space c) eqn:E; [ exact IH | exact E ].
Qed.

Lemma trimEnd_stops (s : string) :
  stops Str.is_space s -> stops Str.is_space (Str.trimEnd s).
Proof.
  destruct s as [ | c r ]; simpl; [ trivial | ].
  intros H. destruct (Str.trimEnd r); [ rewrite H | ]; exact H.
Qed.

Lemma trim_idempotent (s : string) : Str.trim (Str.trim s) = Str.trim s.
Proof.
  unfold Str.trim.
  rewrite (@trimStart_fixed _ (@trimEnd_stops _ (trimStart_stops s))).
  apply trimEnd_idempotent.
Qed.

(** *** What coercion returns *)

(** X3. A value other than [undefined] and [null] that [coerceValue]
    returns has the target type: a string for [string], a finite number
    for [number] and [port], a boolean for [boolean]; for the other types
    it is the value itself.  So for [string], [number] and [boolean] the
    built-in validator of the type accepts whatever coercion returns. *)
Theorem coerced_value_has_target_type :
  forall host value type coerced,
    coerceValue host value type = Returns coerced ->
    value <> JUndefined ->
    value <> JNull ->
    match type with
    | Tstring =>
        (exists s, coerced = JStr s)
        /\ builtInValidator host Tstring coerced = Returns (JBool true)
    | Tnumber =>
        (exists n, coerced = JNum n /\ Num.isFinite n = true)
        /\ builtInValidator host Tnumber coerced = Returns (JBool true)
    | Tboolean =>
        (exists b, coerced = JBool b)
        /\ builtInValidator host Tboolean coerced = Returns (JBool true)
    | Tport => exists n, coerced = JNum n /\ Num.isFinite n = true
    | _ => coerced = value
    end.
Proof.
  intros host value type coerced H Hu Hn.
  destruct value as [ | | b | n | s | r ]; try contradiction;
    [ | | | discriminate ];
    destruct type; simpl in H;
    repeat match type of H with
           | (if ?c then _ else _) = _ => destruct c eqn:?
           end;
    try discriminate;
    try (injection H as <-);
    try reflexivity;
    try (split; [ eexists; reflexivity | reflexivity ]);
    try (eexists; split; [ reflexivity | ]);
    try (split; [ eexists; split; [ reflexivity | ] | ]);
    try match goal with
        | G : Num.isNaN ?n || negb (Num.isFinite ?n) = false |- _ =>
            destruct n; simpl in G; try discriminate; reflexivity
        end.
Qed.

(** The port ['8080'] and what the theorem says of it. *)
Lemma coerced_value_has_target_type_witness :
  coerceValue Sample.host (JStr "8080") Tport = Returns (JNum (Num.of_Z 8080))
  /\ exists n, JNum (Num.of_Z 8080) = JNum n /\ Num.isFinite n = true.
Proof.
  split; [ reflexivity | ].
  apply (@coerced_value_has_target_type Sample.host (JStr "8080") Tport
           (JNum (Num.of_Z 8080))).
  - reflexivity.
  - discriminate.
  - discriminate.
Defined.

(** X4. On a string, [coerceValue] is idempotent: a value that it returns
    coerces to itself under the same type. *)
Theorem coerceValue_idempotent_on_strings :
  forall host s type coerced,
    coerceValue host (JStr s) type = Returns coerced ->
    coerceValue host coerced type = Returns coerced.
Proof.
  intros host s type coerced H.
  destruct type; simpl in H; try (injection H as <-; reflexivity).
  - injection H as <-. simpl. now rewrite trim_idempotent.
  - destruct (Num.isNaN (parseFloat s) || negb (Num.isFinite (parseFloat s)))
      eqn:G; [ discriminate | ].
    injection H as <-. simpl. now rewrite G.
  - repeat match type of H with
           | (if ?c then _ else _) = _ => destruct c eqn:?
           end;
      try discriminate; injection H as <-; reflexivity.
  - destruct (Num.isNaN (parseFloat s) || negb (Num.isFinite (parseFloat s)))
      eqn:G; [ discriminate | ].
    injection H as <-. simpl. now rewrite G.
Qed.

(** The string ['  yes '] under [boolean], and ['  padded  '] under
    [string]. *)
Lemma coerceValue_idempotent_on_strings_witness :
  coerceValue Sample.host (JStr "  padded  ") Tstring = Returns (JStr "padded")
  /\ coerceValue Sample.host (JStr "padded") Tstring = Returns (JStr "padded").
Proof.
  split; [ reflexivity | ].
  exact (@coerceValue_idempotent_on_strings Sample.host "  padded  " Tstring
           (JStr "padded") eq_refl).
Defined.

(** *** The range of ports *)

(** The number of binary digits of a positive integer bounds it. *)
Lemma digits2_pos_bound (p : positive) : Zpos p < 2 ^ Zpos (digits2_pos p).
Proof.
  induction p as [ p IH | p IH | ]; simpl digits2_pos;
    try rewrite Pos2Z.inj_succ, Z.pow_succ_r by lia; lia.
Qed.

(** Rounding never lowers the exponent it is given. *)
Lemma shr_exponent mrs e n : e <= snd (shr mrs e n).
Proof. unfold shr. destruct n; simpl; lia. Qed.

Lemma shr_fexp_exponent m e l :
  e <= snd (shr_fexp Num.prec Num.emax m e l).
Proof. unfold shr_fexp. apply shr_exponent. Qed.

Lemma binary_round_aux_exponent sx mx ex lx :
  match binary_round_aux Num.prec Num.emax sx mx ex lx with
  | S754_finite s _ e => s = sx /\ ex <= e
  | S754_infinity s => s = sx
  | S754_zero _ | S754_nan => True
  end.
Proof.
  unfold binary_round_aux.
  pose proof (shr_fexp_exponent mx ex lx) as H1.
  destruct (shr_fexp Num.prec Num.emax mx ex lx) as [mrs' e'].
  match goal with
  | |- context [shr_fexp Num.prec Num.emax ?m e' ?l] =>
      pose proof (shr_fexp_exponent m e' l) as H2;
      destruct (shr_fexp Num.prec Num.emax m e' l) as [mrs'' e'']
  end.
  simpl in H1, H2.
  destruct (shr_m mrs''); auto.
  destruct (e'' <=? Num.emax - Num.prec); auto. split; [ reflexivity | lia ].
Qed.

Lemma shl_align_exponent mx ex ex' :
  snd (shl_align mx ex ex') = ex \/ snd (shl_align mx ex ex') = ex'.
Proof. unfold shl_align. destruct (ex' - ex); simpl; auto. Qed.

Lemma of_Z_large (p : positive) :
  65536 <= Zpos p ->
  match Num.of_Z (Zpos p) with
  | S754_finite s _ e => s = false /\ -36 <= e
  | S754_infinity s => s = false
  | S754_zero _ | S754_nan => True
  end.
Proof.
  intros H. unfold Num.of_Z, binary_normalize, binary_round.
  assert (D : 17 <= Zpos (digits2_pos p)).
  { pose proof (digits2_pos_bound p) as B.
    destruct (Z_lt_le_dec (Zpos (digits2_pos p)) 17) as [ L | L ]; [ | exact L ].
    assert (2 ^ Zpos (digits2_pos p) <= 2 ^ 16) by (apply Z.pow_le_mono_r; lia).
    change (2 ^ 16) with 65536 in *. lia. }
  destruct (shl_align p 0 (fexp Num.prec Num.emax (Zpos (digits2_pos p) + 0))) as [mz ez] eqn:E.
  assert (Hez : -36 <= ez).
  { pose proof (shl_align_exponent p 0
                  (fexp Num.prec Num.emax (Zpos (digits2_pos p) + 0))) as S.
    rewrite E in S. simpl snd in S.
    unfold fexp, SpecFloat.emin, Num.prec, Num.emax in S. lia. }
  pose proof (binary_round_aux_exponent false (Zpos mz) ez loc_Exact) as R.
  destruct (binary_round_aux Num.prec Num.emax false (Zpos mz) ez loc_Exact);
    auto.
  destruct R. split; [ assumption | lia ].
Qed.

Lemma of_Z_negative (p : positive) :
  match Num.of_Z (Zneg p) with
  | S754_finite s _ _ => s = true
  | S754_infinity s => s = true
  | S754_zero _ | S754_nan => True
  end.
Proof.
  unfold Num.of_Z, binary_normalize, binary_round.
  destruct (shl_align p 0 (fexp Num.prec Num.emax (Zpos (digits2_pos p) + 0))) as [mz ez].
  pose proof (binary_round_aux_exponent true (Zpos mz) ez loc_Exact) as R.
  destruct (binary_round_aux Num.prec Num.emax true (Zpos mz) ez loc_Exact);
    auto.
  destruct R. assumption.
Qed.

Lemma digits2_pos_lower (p : positive) : 2 ^ (Zpos (digits2_pos p) - 1) <= Zpos p.
Proof.
  induction p as [ p IH | p IH | ]; simpl digits2_pos;
    try (rewrite Pos2Z.inj_succ;
         replace (Z.succ (Zpos (digits2_pos p)) - 1)
           with (Z.succ (Zpos (digits2_pos p) - 1)) by lia;
         rewrite Z.pow_succ_r by lia); lia.
Qed.

Lemma iter_xO_value (p k : positive) :
  Zpos (Pos.iter xO p k) = Zpos p * 2 ^ Zpos k.
Proof.
  induction k as [ | k IH ] using Pos.peano_ind.
  - simpl. lia.
  - rewrite Pos.iter_succ, Pos2Z.inj_succ, Z.pow_succ_r by lia.
    rewrite Pos2Z.inj_xO, IH. lia.
Qed.

Lemma iter_xO_digits (p k : positive) :
  Zpos (digits2_pos (Pos.iter xO p k)) = Zpos (digits2_pos p) + Zpos k.
Proof.
  induction k as [ | k IH ] using Pos.peano_ind.
  - simpl. lia.
  - rewrite Pos.iter_succ. simpl digits2_pos. lia.
Qed.

(** An integer of at most 52 bits is a binary64 number as it stands: its
    digits, shifted to the top of the 53-bit significand. *)
Lemma of_Z_exact (p k : positive) :
  Zpos (digits2_pos p) + Zpos k = 53 ->
  Num.of_Z (Zpos p) = S754_finite false (Pos.iter xO p k) (Zneg k).
Proof.
  intros D.
  unfold Num.of_Z, binary_normalize, binary_round, shl_align.
  replace (fexp Num.prec Num.emax (Zpos (digits2_pos p) + 0) - 0) with (Zneg k)
    by (unfold fexp, SpecFloat.emin, Num.prec, Num.emax; lia).
  replace (fexp Num.prec Num.emax (Zpos (digits2_pos p) + 0)) with (Zneg k)
    by (unfold fexp, SpecFloat.emin, Num.prec, Num.emax; lia).
  unfold binary_round_aux, shr_fexp.
  unfold Zdigits2 at 1. rewrite iter_xO_digits, D.
  replace (fexp Num.prec Num.emax (53 + Zneg k) - Zneg k) with 0
    by (unfold fexp, SpecFloat.emin, Num.prec, Num.emax; lia).
  cbn [shr shr_record_of_loc shr_m loc_of_shr_record round_nearest_even].
  unfold Zdigits2. rewrite iter_xO_digits, D.
  replace (fexp Num.prec Num.emax (53 + Zneg k) - Zneg k) with 0
    by (unfold fexp, SpecFloat.emin, Num.prec, Num.emax; lia).
  cbn [shr shr_record_of_loc shr_m].
  replace (Zneg k <=? Num.emax - Num.prec) with true
    by (symmetry; apply Z.leb_le; unfold Num.prec, Num.emax; lia).
  reflexivity.
Qed.

Lemma SFltb_finite (m1 m2 : positive) (e1 e2 : Z) :
  SFltb (S754_finite false m1 e1) (S754_finite false m2 e2)
  = (e1 <? e2) || ((e1 =? e2) && (m1 <? m2)%positive).
Proof.
  unfold SFltb, SFcompare, Pos.ltb, Pos.compare.
  destruct (Z.compare_spec e1 e2) as [ E | E | E ].
  - subst e2. rewrite Z.ltb_irrefl, Z.eqb_refl. simpl.
    destruct (Pos.compare_cont Eq m1 m2); reflexivity.
  - apply Z.ltb_lt in E. rewrite E. reflexivity.
  - replace (e1 <? e2) with false by (symmetry; apply Z.ltb_ge; lia).
    replace (e1 =? e2) with false by (symmetry; apply Z.eqb_neq; lia).
    reflexivity.
Qed.

(** On an integer, [validatePort] answers [true] exactly from 1 to
    65535. *)
Lemma validatePort_of_Z :
  forall z, validatePort (JNum (Num.of_Z z)) = JBool true <-> 1 <= z <= 65535.
Proof.
  intros z. split.
  - intros H.
    destruct (Z_lt_le_dec z 1) as [ L | L ].
    + exfalso. destruct z as [ | p | p ]; try lia.
      * vm_compute in H. discriminate H.
      * pose proof (of_Z_negative p) as N. unfold validatePort in H.
        change (Num.of_Z 1) with (S754_finite false 4503599627370496 (-52)) in H.
        destruct (Num.of_Z (Z.neg p)) as [ s | s | | s m e ];
          [ destruct s; vm_compute in H; discriminate H
          | destruct s; vm_compute in H; discriminate H
          | vm_compute in H; discriminate H
          | ].
        subst s. cbn [Num.isNaN] in H.
           destruct (negb (Num.isInteger (S754_finite true m e)));
             discriminate H.
    + destruct (Z_lt_le_dec 65535 z) as [ G | G ]; [ exfalso | lia ].
      destruct z as [ | p | p ]; try lia.
      pose proof (@of_Z_large p ltac:(lia)) as N. unfold validatePort in H.
      change (Num.of_Z 1) with (S754_finite false 4503599627370496 (-52)) in H.
      change (Num.of_Z 65535) with (S754_finite false 9007061815787520 (-37)) in H.
      destruct (Num.of_Z (Z.pos p)) as [ s | s | | s m e ];
        [ destruct s; vm_compute in H; discriminate H
        | destruct s; vm_compute in H; discriminate H
        | vm_compute in H; discriminate H
        | ].
      destruct N as [-> N]. cbn [Num.isNaN] in H.
      unfold Num.gt in H. rewrite (SFltb_finite 9007061815787520 m (-37) e) in H.
      replace (-37 <? e) with true in H by (symmetry; apply Z.ltb_lt; lia).
      rewrite orb_true_l, orb_true_r in H. discriminate H.
  - intros [L G]. destruct z as [ | p | p ]; try lia.
    pose proof (digits2_pos_lower p) as Lo.
    pose proof (digits2_pos_bound p) as Up.
    assert (D : Zpos (digits2_pos p) <= 16).
    { destruct (Z_lt_le_dec 16 (Zpos (digits2_pos p))) as [ B | B ]; [ | lia ].
      assert (2 ^ 16 <= 2 ^ (Zpos (digits2_pos p) - 1))
        by (apply Z.pow_le_mono_r; lia).
      change (2 ^ 16) with 65536 in *. lia. }
    destruct (53 - Zpos (digits2_pos p)) as [ | k | k ] eqn:K; try lia.
    rewrite (@of_Z_exact p k) by lia.
    pose proof (iter_xO_value p k) as V.
    pose proof (iter_xO_digits p k) as Dg.
    pose proof (digits2_pos_lower (Pos.iter xO p k)) as Lo'.
    rewrite Dg in Lo'. replace (Zpos (digits2_pos p) + Zpos k - 1) with 52 in Lo' by lia.
    unfold validatePort. cbn [Num.isNaN].
    assert (I : Num.isInteger (S754_finite false (Pos.iter xO p k) (Zneg k)) = true).
    { unfold Num.isInteger. cbn [Z.leb Z.compare Z.opp].
      rewrite V, Z.mod_mul by lia. reflexivity. }
    rewrite I. cbn [negb orb].
    change (Num.of_Z 1) with (S754_finite false 4503599627370496 (-52)).
    change (Num.of_Z 65535) with (S754_finite false 9007061815787520 (-37)).
    unfold Num.lt, Num.gt. rewrite !SFltb_finite.
    replace (Zneg k <? -52) with false by (symmetry; apply Z.ltb_ge; lia).
    replace (-37 <? Zneg k) with false by (symmetry; apply Z.ltb_ge; lia).
    replace (Pos.iter xO p k <? 4503599627370496)%positive with false
      by (symmetry; apply Pos.ltb_ge; unfold Pos.le;
          rewrite Pos2Z.inj_compare; apply Z.compare_le_iff; exact Lo').
    rewrite andb_false_r. cbn [orb].
    destruct (-37 =? Zneg k) eqn:E; [ | reflexivity ].
    apply Z.eqb_eq in E.
    replace (9007061815787520 <? Pos.iter xO p k)%positive with false;
      [ reflexivity | ].
    symmetry. apply Pos.ltb_ge.
    unfold Pos.le. rewrite Pos2Z.inj_compare. apply Z.compare_le_iff.
    rewrite V.
    replace (Zpos k) with 37 by (clear - E; lia).
    change (2 ^ 37) with 137438953472. clear - G. lia.
Qed.

(** *** Ports written in decimal digits *)

Lemma digit_is_no_sign (c : ascii) :
  Str.is_digit c = true ->
  Str.is_space c = false /\ Ascii.eqb c "+" = false
  /\ Ascii.eqb c "-" = false /\ Ascii.eqb c "I" = false
  /\ 0 <= Str.digit_value c.
Proof.
  destruct c as [[ | ] [ | ] [ | ] [ | ] [ | ] [ | ] [ | ] [ | ]];
    intros H; try discriminate H; repeat split; discriminate.
Qed.

Lemma span_digits_head (c : ascii) (r : string) :
  Str.span Str.is_digit (String c r) = (String c r, EmptyString) ->
  Str.is_digit c = true /\ Str.span Str.is_digit r = (r, EmptyString).
Proof.
  simpl. destruct (Str.is_digit c); [ | discriminate ].
  destruct (Str.span Str.is_digit r) as [a b]. intros H.
  injection H as -> ->. split; reflexivity.
Qed.

Lemma digits_value_from_nonneg (s : string) :
  Str.span Str.is_digit s = (s, EmptyString) ->
  forall acc, 0 <= acc -> 0 <= Str.digits_value_from acc s.
Proof.
  induction s as [ | c r IH ]; intros H acc Hacc;
    cbn [Str.digits_value_from]; [ exact Hacc | ].
  apply span_digits_head in H. destruct H as [Hc Hr].
  apply (IH Hr). pose proof (digit_is_no_sign c Hc) as (_ & _ & _ & _ & D).
  lia.
Qed.

Lemma of_decimal_integer (z : Z) :
  0 <= z -> Num.of_decimal false z 0 = Num.of_Z z.
Proof.
  intros H. destruct z as [ | p | p ]; try lia; [ reflexivity | ].
  unfold Num.of_decimal, Num.of_Z, binary_normalize. simpl Z.leb. cbv iota.
  change (Z.to_pos (10 ^ 0)) with 1%positive. now rewrite Pos.mul_1_r.
Qed.

(** On a non-empty string of decimal digits, [parseFloat] and
    [parseInt(_, 10)] both give the number nearest to its value. *)
Lemma parse_digits (s : string) :
  s <> EmptyString ->
  Str.span Str.is_digit s = (s, EmptyString) ->
  parseFloat s = Num.of_Z (Str.digits_value s)
  /\ parseInt10 s = Num.of_Z (Str.digits_value s).
Proof.
  intros Hne Hs. destruct s as [ | c r ]; [ congruence | ].
  pose proof (@digits_value_from_nonneg _ Hs 0 ltac:(lia)) as Hv.
  destruct (span_digits_head Hs) as [Hc _].
  destruct (digit_is_no_sign c Hc) as (Hsp & Hplus & Hminus & HI & _).
  assert (Ht : Str.trimStart (String c r) = String c r)
    by (simpl; now rewrite Hsp).
  assert (Hsign : scan_sign (String c r) = (false, String c r))
    by (simpl; now rewrite Hplus, Hminus).
  split.
  - unfold parseFloat, scan_literal. rewrite Ht, Hsign.
    assert (Hinf : Str.strip_prefix "Infinity" (String c r) = None).
    { cbn [Str.strip_prefix]. rewrite Ascii.eqb_sym in HI. now rewrite HI. }
    rewrite Hinf, Hs. simpl scan_fraction. simpl Str.is_empty. cbv iota.
    simpl. rewrite append_empty.
    apply of_decimal_integer. exact Hv.
  - unfold parseInt10. rewrite Ht, Hsign, Hs. simpl Str.is_empty. cbv iota.
    apply of_decimal_integer. exact Hv.
Qed.

(** A number that [validatePort] accepts is finite. *)
Lemma validatePort_finite (n : number) :
  validatePort (JNum n) = JBool true ->
  Num.isNaN n || negb (Num.isFinite n) = false.
Proof.
  unfold validatePort. destruct n; simpl; try discriminate; reflexivity.
Qed.

(** X5. [validatePort] answers [true] on an integer exactly from 1 to
    65535, and on a string of decimal digits exactly when its value is
    in that range: zero, negative integers and integers from 65536 on are
    all refused, however large. *)
Theorem validatePort_integer_range :
  (forall z, validatePort (JNum (Num.of_Z z)) = JBool true <-> 1 <= z <= 65535)
  /\ forall s,
       s <> EmptyString ->
       Str.span Str.is_digit s = (s, EmptyString) ->
       (validatePort (JStr s) = JBool true
        <-> 1 <= Str.digits_value s <= 65535).
Proof.
  split; [ exact validatePort_of_Z | ].
  intros s Hne Hs.
  rewrite <- validatePort_of_Z.
  destruct (parse_digits Hne Hs) as [_ <-]. reflexivity.
Qed.

(** X14. A port field with neither transform nor validator, given a
    string of decimal digits: when the value of the digits is from 1 to
    65535 the field is accepted and [validatedData] holds that number;
    otherwise the [try] block records an error. *)
Theorem port_field_accepts_1_to_65535 :
  forall host fieldName envVarName effectiveSchema s acc,
    eff_type effectiveSchema = Tport ->
    eff_transform effectiveSchema = None ->
    eff_validator effectiveSchema = None ->
    s <> EmptyString ->
    Str.span Str.is_digit s = (s, EmptyString) ->
    let port := Str.digits_value s in
    let run :=
      tryBlock host fieldName envVarName effectiveSchema (JStr s) acc in
    (1 <= port <= 65535 ->
     run = (fst acc, set (snd acc) fieldName (JNum (Num.of_Z port))))
    /\ (~ 1 <= port <= 65535 -> exists e, run = push acc e).
Proof.
  intros host fieldName envVarName effectiveSchema s acc Ht Hx Hv Hne Hs
    port run.
  destruct (parse_digits Hne Hs) as [Hf _]. fold port in Hf.
  split.
  - intros Hrange. apply validatePort_of_Z in Hrange.
    unfold run, tryBlock. rewrite Ht, Hx, Hv. simpl coercible. cbv iota.
    unfold coerceValue. cbv iota. simpl ToString. cbv zeta. rewrite Hf.
    rewrite (@validatePort_finite _ Hrange).
    unfold builtInValidator. rewrite Hrange. reflexivity.
  - intros Hout.
    destruct (tryBlock_outcome host fieldName envVarName effectiveSchema
                (JStr s) acc)
      as [(final & (coerced & Hc & Hxf & Hb & _) & _) | (_ & e & He)];
      [ exfalso | now exists e ].
    unfold coerced_value, transformed_value in *.
    rewrite Ht in Hc, Hb. rewrite Hx in Hxf. injection Hxf as <-.
    simpl in Hc. rewrite Hf in Hc.
    destruct (Num.isNaN (Num.of_Z port) || negb (Num.isFinite (Num.of_Z port)));
      [ discriminate | ].
    injection Hc as <-. unfold builtInValidator in Hb. injection Hb as Hb.
    apply validatePort_of_Z in Hb. contradiction.
Qed.

(** The field [PORT] given ['8080']. *)
Lemma port_field_accepts_1_to_65535_witness :
  tryBlock Sample.host "PORT" "PORT"
    (spread (compileField Sample.host (field Tport) Tport)) (JStr "8080")
    ([], [])
  = ([], [("PORT", JNum (Num.of_Z 8080))]).
Proof.
  refine (proj1 (@port_field_accepts_1_to_65535 Sample.host "PORT" "PORT"
                   (spread (compileField Sample.host (field Tport) Tport))
                   "8080" ([], []) eq_refl eq_refl eq_refl _ eq_refl) _).
  - discriminate.
  - vm_compute. split; discriminate.
Defined.

(** *** Fields that can never be accepted *)

(** The errors recorded before a run of the loop are still there after
    it. *)
Lemma validateFields_keeps_errors :
  forall host envOverrides env entries acc acc',
    validateFields host envOverrides env entries acc = Returns acc' ->
    exists more, fst acc' = (fst acc ++ more)%list.
Proof.
  intros host envOverrides env entries acc acc' H.
  destruct (validateFields_outcome host envOverrides env entries acc)
    as [(acc1 & per & H1 & _ & _ & Hfst) | (n & fs & e & _ & _ & H1)];
    rewrite H1 in H; [ | discriminate ].
  injection H as <-. now exists (concat per).
Qed.

(** A field whose turn records an error whatever was recorded before makes
    the list of errors non-empty. *)
Lemma validateFields_error_of_field :
  forall host envOverrides env entries fieldName fieldSchema,
    In (fieldName, fieldSchema) entries ->
    (forall acc, exists e,
       validateField host envOverrides env acc fieldName fieldSchema
       = Returns (push acc e)) ->
    forall acc acc',
      validateFields host envOverrides env entries acc = Returns acc' ->
      fst acc' <> [].
Proof.
  intros host envOverrides env entries fieldName fieldSchema Hin Hfield.
  induction entries as [ | [n fs] rest IH ]; [ contradiction | ].
  intros acc acc' H. simpl in H.
  destruct Hin as [ Heq | Hin ].
  - injection Heq as -> ->.
    destruct (Hfield acc) as (e & He). rewrite He in H. simpl in H.
    destruct (@validateFields_keeps_errors _ _ _ _ _ _ H) as (more & ->).
    simpl. destruct (fst acc); discriminate.
  - destruct (validateField host envOverrides env acc n fs) as [acc1 | e];
      [ | discriminate ].
    simpl in H. exact (IH Hin acc1 acc' H).
Qed.

(** The [try] block of a field whose type is [regex] records an error,
    whatever the value. *)
Lemma tryBlock_regex :
  forall host fieldName envVarName effectiveSchema value acc,
    eff_type effectiveSchema = Tregex ->
    exists e,
      tryBlock host fieldName envVarName effectiveSchema value acc
      = push acc e.
Proof.
  intros host fieldName envVarName effectiveSchema value acc Ht.
  destruct (tryBlock_outcome host fieldName envVarName effectiveSchema value acc)
    as [(final & (coerced & _ & _ & Hb & _) & _) | (_ & e & He)].
  - rewrite Ht in Hb. simpl in Hb. destruct final; discriminate.
  - now exists e.
Qed.

(** X6. A field whose type is [regex] is never accepted by [validateEnv]:
    the built-in validator of the type is called with the value alone, so
    with no pattern, and a value that is present always leaves an error;
    the call has [success = false] and no [data]. *)
Theorem regex_field_is_never_accepted :
  forall host compiledSchema envVars environment fieldName fieldSchema r,
    In (fieldName, fieldSchema) (schema compiledSchema) ->
    eff_type (effectiveSchemaOf (resolveOverrides compiledSchema environment)
                fieldName fieldSchema) = Tregex ->
    env_get (match envVars with Some e => e | None => process_env host end)
            (Str.toUpperCase fieldName) <> JUndefined ->
    validateEnv host compiledSchema envVars environment = Returns r ->
    success r = false /\ data r = None /\ errors r <> [].
Proof.
  intros host compiledSchema envVars environment fieldName fieldSchema r
    Hin Ht Hv H.
  unfold validateEnv in H.
  destruct (validateFields _ _ _ _ _) as [[errs validatedData] | e] eqn:E;
    simpl in H; [ | discriminate ].
  assert (Herr : errs <> []).
  { change errs with (fst (errs, validatedData)).
    refine (@validateFields_error_of_field host _ _ _ _ _ Hin _ _ _ E).
    intros acc. unfold validateField.
    rewrite (@is_undefined_false _ Hv).
    destruct (@tryBlock_regex host fieldName (Str.toUpperCase fieldName) _
                (env_get (match envVars with
                          | Some e => e
                          | None => process_env host
                          end) (Str.toUpperCase fieldName)) acc Ht)
      as (e & ->).
    now exists e. }
  injection H as <-. simpl.
  destruct errs; [ contradiction | ]. repeat split. discriminate.
Qed.

(** The field [API_KEY] with the pattern [/^abc$/] and the value ['abc'],
    which the pattern matches. *)
Lemma regex_field_is_never_accepted_witness :
  exists r,
    validateEnv Sample.host
      {| schema := [("API_KEY",
                     compileField Sample.host
                       (with_pattern (field Tregex) (Some abc_only)) Tregex)];
         _environments := None |}
      (Some [("API_KEY", JStr "abc")]) None = Returns r
    /\ success r = false /\ data r = None /\ errors r <> [].
Proof.
  eexists. split; [ reflexivity | ].
  eapply (@regex_field_is_never_accepted Sample.host
            {| schema := [("API_KEY",
                           compileField Sample.host
                             (with_pattern (field Tregex) (Some abc_only))
                             Tregex)];
               _environments := None |}
            (Some [("API_KEY", JStr "abc")]) None "API_KEY").
  - left; reflexivity.
  - reflexivity.
  - discriminate.
  - reflexivity.
Defined.

(** *** Options that change nothing *)

(** Two copies of a field that differ by their validators only, the two
    validators agreeing on every value that the built-in validator of the
    type accepts, go through the [try] block alike. *)
Lemma tryBlock_validators_agree :
  forall host fieldName envVarName e1 e2 value acc,
    eff_type e1 = eff_type e2 ->
    eff_transform e1 = eff_transform e2 ->
    (forall v,
       builtInValidator host (eff_type e1) v = Returns (JBool true) ->
       callValidator (eff_validator e1) v = callValidator (eff_validator e2) v) ->
    tryBlock host fieldName envVarName e1 value acc
    = tryBlock host fieldName envVarName e2 value acc.
Proof.
  intros host fieldName envVarName e1 e2 value acc Ht Hx Hv.
  unfold tryBlock. rewrite <- Ht, <- Hx.
  destruct (if coercible (eff_type e1)
            then coerceValue host value (eff_type e1)
            else Returns value) as [coerced | ]; [ | reflexivity ].
  destruct (match eff_transform e1 with
            | Some transform => transform coerced
            | None => Returns coerced
            end) as [final | ]; [ | reflexivity ].
  destruct (builtInValidator host (eff_type e1) final) as [result | ] eqn:B;
    [ | reflexivity ].
  destruct (is_true result) eqn:T; [ | reflexivity ].
  apply is_true_spec in T. subst result. simpl negb. cbv iota.
  specialize (Hv final B). unfold callValidator in Hv. now rewrite Hv.
Qed.

(** X7. The options [common] of a port field and [allowPlus] of an e-mail
    field change nothing: they make [defineSchema] put [validatePort] or
    [validateEmail] in front of the field's validator, a check that
    [validateEnv] has already made when it reaches that validator.  So
    long as no override changes the type, a field validates alike with
    and without them. *)
Theorem common_and_allowPlus_are_inert :
  forall host fieldDef common allowPlus type envOverrides env acc fieldName,
    (type = Tport \/ type = Temail) ->
    eff_type (effectiveSchemaOf envOverrides fieldName
                (compileField host fieldDef type)) = type ->
    validateField host envOverrides env acc fieldName
      (compileField host (with_allowPlus (with_common fieldDef common) allowPlus)
                    type)
    = validateField host envOverrides env acc fieldName
        (compileField host fieldDef type).
Proof.
  intros host fieldDef common allowPlus type envOverrides env acc fieldName
    Htype Heff.
  set (optioned := with_allowPlus (with_common fieldDef common) allowPlus).
  assert (Hagree : forall v,
            builtInValidator host type v = Returns (JBool true) ->
            callValidator (cf_validator (compileField host optioned type)) v
            = callValidator (cf_validator (compileField host fieldDef type)) v).
  { intros v Hb. unfold compileField, callValidator. simpl.
    assert (Hinner :
              forall w, builtInValidator host type w = Returns (JBool true) ->
              callValidator
                (typeSpecificValidator host optioned type
                   (match def_validate fieldDef with
                    | Some validate => Some (customValidator validate)
                    | None => None
                    end)) w
              = callValidator
                  (typeSpecificValidator host fieldDef type
                     (match def_validate fieldDef with
                      | Some validate => Some (customValidator validate)
                      | None => None
                      end)) w).
    { intros w Hw.
      assert (Hchk : forall (check : jsval -> jsval) (original : option userfn),
                check w = JBool true ->
                checkThen (fun value => Returns (check value)) original w
                = callValidator original w).
      { intros check original Hc. unfold checkThen, callValidator. simpl.
        rewrite Hc. reflexivity. }
      destruct Htype as [ -> | -> ]; simpl in Hw; injection Hw as Hw;
        unfold typeSpecificValidator; simpl;
        destruct common, allowPlus, (def_common fieldDef),
          (def_allowPlus fieldDef); unfold callValidator at 1 2;
        rewrite ?Hchk by exact Hw; reflexivity. }
    destruct (def_enum fieldDef) as [ [ | x l ] | ];
      try exact (Hinner v Hb).
    unfold enumValidator. destruct (negb (includes (x :: l) v));
      [ reflexivity | ].
    exact (Hinner v Hb). }
  unfold validateField, effectiveSchemaOf in *.
  destruct (get envOverrides fieldName) as [ override | ].
  - simpl eff_required. simpl eff_default.
    destruct (is_undefined (env_get env (Str.toUpperCase fieldName)));
      [ destruct (assigned_or _ _); [ reflexivity | ];
        destruct (default_defined _); [ | reflexivity ];
        destruct (invokeDefault _); [ | reflexivity ]; simpl bind | ];
      f_equal; apply tryBlock_validators_agree; try reflexivity;
      intros v Hb; apply Hagree; simpl eff_type in Hb, Heff;
      rewrite <- Heff; exact Hb.
  - simpl eff_required. simpl eff_default.
    destruct (is_undefined (env_get env (Str.toUpperCase fieldName)));
      [ destruct (match def_required fieldDef with Some b => b | None => false end);
        [ reflexivity | ];
        destruct (default_defined _); [ | reflexivity ];
        destruct (invokeDefault _); [ | reflexivity ]; simpl bind | ];
      f_equal; apply tryBlock_validators_agree; try reflexivity;
      intros v Hb; apply Hagree; exact Hb.
Qed.

(** The port field [{ type: 'port', common: ['80'] }] given ['8080']. *)
Lemma common_and_allowPlus_are_inert_witness :
  validateField Sample.host [] [("PORT", JStr "8080")] ([], []) "PORT"
    (compileField Sample.host
       (with_allowPlus (with_common (field Tport) (Some ["80"])) None) Tport)
  = validateField Sample.host [] [("PORT", JStr "8080")] ([], []) "PORT"
      (compileField Sample.host (field Tport) Tport)
  /\ validateField Sample.host [] [("PORT", JStr "8080")] ([], []) "PORT"
       (compileField Sample.host (field Tport) Tport)
     = Returns ([], [("PORT", JNum (Num.of_Z 8080))]).
Proof.
  split; [ | reflexivity ].
  apply (@common_and_allowPlus_are_inert Sample.host (field Tport)
           (Some ["80"]) None Tport [] [("PORT", JStr "8080")] ([], []) "PORT").
  - left; reflexivity.
  - reflexivity.
Defined.

(** *** What the validated data holds *)

Lemma get_set {A : Type} (o : object A) (k : string) (a : A) (k' : string) :
  get (set o k a) k' = if String.eqb k' k then Some a else get o k'.
Proof.
  induction o as [ | [k0 a0] r IH ]; simpl.
  - reflexivity.
  - destruct (String.eqb k k0) eqn:E; simpl.
    + apply String.eqb_eq in E. subst k0.
      destruct (String.eqb k' k); reflexivity.
    + rewrite IH. destruct (String.eqb k' k0) eqn:E0; [ | reflexivity ].
      apply String.eqb_eq in E0. subst k0.
      destruct (String.eqb k' k) eqn:E1; [ | reflexivity ].
      apply String.eqb_eq in E1. subst k'. rewrite String.eqb_refl in E.
      discriminate.
Qed.

(** One turn of the loop leaves [validatedData] as it was, or writes under
    the name of the field a value that went through every stage, starting
    from the variable of the field or, when there is none, from its
    default. *)
Lemma validateField_data :
  forall host envOverrides env acc fieldName fieldSchema acc',
    validateField host envOverrides env acc fieldName fieldSchema
    = Returns acc' ->
    snd acc' = snd acc
    \/ exists input final,
         let effectiveSchema :=
           effectiveSchemaOf envOverrides fieldName fieldSchema in
         let variable := env_get env (Str.toUpperCase fieldName) in
         snd acc' = set (snd acc) fieldName final
         /\ all_stages_pass host effectiveSchema input final
         /\ (if is_undefined variable
             then invokeDefault (eff_default effectiveSchema) = Returns input
             else input = variable).
Proof.
  intros host envOverrides env acc fieldName fieldSchema acc' H.
  unfold validateField in H. cbv zeta.
  set (effectiveSchema := effectiveSchemaOf envOverrides fieldName fieldSchema)
    in *.
  set (variable := env_get env (Str.toUpperCase fieldName)) in *.
  assert (T : forall input,
            (if is_undefined variable
             then invokeDefault (eff_default effectiveSchema) = Returns input
             else input = variable) ->
            Returns (tryBlock host fieldName (Str.toUpperCase fieldName)
                       effectiveSchema input acc) = Returns acc' ->
            snd acc' = snd acc
            \/ exists input final,
                 snd acc' = set (snd acc) fieldName final
                 /\ all_stages_pass host effectiveSchema input final
                 /\ (if is_undefined variable
                     then invokeDefault (eff_default effectiveSchema)
                          = Returns input
                     else input = variable)).
  { intros input Hin Hrun. injection Hrun as <-.
    destruct (tryBlock_outcome host fieldName (Str.toUpperCase fieldName)
                effectiveSchema input acc)
      as [(final & Hpass & ->) | (_ & e & ->)].
    - right. exists input, final. repeat split; assumption.
    - left. reflexivity. }
  destruct (is_undefined variable) eqn:U.
  - destruct (eff_required effectiveSchema).
    + injection H as <-. left. reflexivity.
    + destruct (default_defined (eff_default effectiveSchema)).
      * destruct (invokeDefault (eff_default effectiveSchema)) as [input | ]
          eqn:D; [ | discriminate ].
        simpl in H. exact (T input eq_refl H).
      * injection H as <-. left. reflexivity.
  - exact (T variable eq_refl H).
Qed.

(** X8. Every value in the [data] of a result belongs to a field of the
    schema and went through all the stages of that field: it is what
    coercion and the transform made of the variable of the field, or of
    its default when the variable is missing, and both the built-in
    validator of the type and the field's own validator answered [true]
    on it. *)
Theorem validated_data_passed_every_stage :
  forall host compiledSchema envVars environment r validatedData
         fieldName value,
    validateEnv host compiledSchema envVars environment = Returns r ->
    data r = Some validatedData ->
    get validatedData fieldName = Some value ->
    exists fieldSchema input,
      let effectiveSchema :=
        effectiveSchemaOf (resolveOverrides compiledSchema environment)
                          fieldName fieldSchema in
      let variable :=
        env_get (match envVars with Some e => e | None => process_env host end)
                (Str.toUpperCase fieldName) in
      In (fieldName, fieldSchema) (schema compiledSchema)
      /\ all_stages_pass host effectiveSchema input value
      /\ (if is_undefined variable
          then invokeDefault (eff_default effectiveSchema) = Returns input
          else input = variable).
Proof.
  intros host compiledSchema envVars environment r validatedData fieldName
    value H Hdata Hget.
  unfold validateEnv in H. cbv zeta.
  set (env := match envVars with Some e => e | None => process_env host end)
    in *.
  set (envOverrides := resolveOverrides compiledSchema environment) in *.
  destruct (validateFields host envOverrides env (schema compiledSchema)
              ([], [])) as [[errs written] | e] eqn:E;
    simpl in H; [ | discriminate ].
  injection H as <-. simpl in Hdata.
  destruct (is_nil errs); [ | discriminate ].
  injection Hdata as <-.
  assert (G : forall entries acc acc',
            validateFields host envOverrides env entries acc = Returns acc' ->
            forall k v,
              get (snd acc') k = Some v ->
              get (snd acc) k = Some v
              \/ exists fieldSchema input,
                   In (k, fieldSchema) entries
                   /\ all_stages_pass host
                        (effectiveSchemaOf envOverrides k fieldSchema) input v
                   /\ (if is_undefined (env_get env (Str.toUpperCase k))
                       then invokeDefault
                              (eff_default
                                 (effectiveSchemaOf envOverrides k fieldSchema))
                            = Returns input
                       else input = env_get env (Str.toUpperCase k))).
  { induction entries as [ | [n fs] rest IH ]; intros acc acc' Hrun k v Hk.
    - injection Hrun as <-. left. exact Hk.
    - simpl in Hrun.
      destruct (validateField host envOverrides env acc n fs) as [acc1 | ]
        eqn:F; [ | discriminate ].
      simpl in Hrun.
      destruct (IH acc1 acc' Hrun k v Hk)
        as [ Hk1 | (fs' & input & Hin & Hpass & Hsrc) ].
      + destruct (@validateField_data _ _ _ _ _ _ _ F)
          as [ Hsame | (input & final & Hset & Hpass & Hsrc) ].
        * left. now rewrite <- Hsame.
        * rewrite Hset, get_set in Hk1.
          destruct (String.eqb k n) eqn:Ekn.
          -- apply String.eqb_eq in Ekn. subst n. injection Hk1 as <-.
             right. exists fs, input. split; [ now left | ].
             split; assumption.
          -- left. exact Hk1.
      + right. exists fs', input. split; [ now right | ].
        split; assumption. }
  destruct (G _ _ _ E fieldName value Hget)
    as [ Hnone | (fs & input & Hin & Hpass & Hsrc) ].
  - discriminate.
  - exists fs, input. repeat split; assumption.
Qed.

(** The port ['8080'] of [PORT]: the data hold the number 8080, which the
    port validator accepts. *)
Lemma validated_data_passed_every_stage_witness :
  validateEnv Sample.host (port_number Sample.host)
    (Some [("PORT", JStr "8080")]) None
  = Returns (accepted [("PORT", JNum (Num.of_Z 8080))])
  /\ exists fieldSchema input,
       In ("PORT", fieldSchema) (schema (port_number Sample.host))
       /\ all_stages_pass Sample.host
            (effectiveSchemaOf (resolveOverrides (port_number Sample.host) None)
                               "PORT" fieldSchema)
            input (JNum (Num.of_Z 8080))
       /\ input = JStr "8080".
Proof.
  split; [ reflexivity | ].
  exact (@validated_data_passed_every_stage Sample.host
           (port_number Sample.host) (Some [("PORT", JStr "8080")]) None
           (accepted [("PORT", JNum (Num.of_Z 8080))])
           [("PORT", JNum (Num.of_Z 8080))] "PORT" (JNum (Num.of_Z 8080))
           eq_refl eq_refl eq_refl).
Defined.

(** A key of [validatedData] stays there. *)
Lemma validateFields_keeps_keys :
  forall host envOverrides env entries acc acc' k,
    validateFields host envOverrides env entries acc = Returns acc' ->
    get (snd acc) k <> None -> get (snd acc') k <> None.
Proof.
  intros host envOverrides env entries.
  induction entries as [ | [n fs] rest IH ]; intros acc acc' k H Hk.
  - injection H as <-. exact Hk.
  - simpl in H.
    destruct (validateField host envOverrides env acc n fs) as [acc1 | ] eqn:F;
      [ | discriminate ].
    simpl in H. apply (IH acc1 acc' k H).
    destruct (@validateField_data _ _ _ _ _ _ _ F)
      as [ -> | (input & final & -> & _) ]; [ exact Hk | ].
    rewrite get_set. destruct (String.eqb k n); [ discriminate | exact Hk ].
Qed.

(** A turn of the loop that records no error, for a field that has a
    variable or a default, writes the field. *)
Lemma validateField_writes :
  forall host envOverrides env acc fieldName fieldSchema acc',
    validateField host envOverrides env acc fieldName fieldSchema
    = Returns acc' ->
    fst acc' = fst acc ->
    is_undefined (env_get env (Str.toUpperCase fieldName)) = false
    \/ default_defined
         (eff_default (effectiveSchemaOf envOverrides fieldName fieldSchema))
       = true ->
    get (snd acc') fieldName <> None.
Proof.
  intros host envOverrides env acc fieldName fieldSchema acc' H Hfst Hprov.
  assert (P : forall e, fst (push acc e) <> fst acc).
  { intros e. unfold push. simpl. intros C.
    rewrite <- (app_nil_r (fst acc)) in C at 2.
    apply app_inv_head in C. discriminate. }
  assert (T : forall input,
            Returns (tryBlock host fieldName (Str.toUpperCase fieldName)
                       (effectiveSchemaOf envOverrides fieldName fieldSchema)
                       input acc) = Returns acc' ->
            get (snd acc') fieldName <> None).
  { intros input Hrun. injection Hrun as Hrun.
    destruct (tryBlock_outcome host fieldName (Str.toUpperCase fieldName)
                (effectiveSchemaOf envOverrides fieldName fieldSchema)
                input acc) as [(final & _ & Hset) | (_ & e & Hpush)].
    - rewrite Hset in Hrun. subst acc'. simpl.
      rewrite get_set, String.eqb_refl. discriminate.
    - rewrite Hpush in Hrun. subst acc'. exfalso. exact (P e Hfst). }
  unfold validateField in H.
  destruct (is_undefined (env_get env (Str.toUpperCase fieldName))).
  - destruct Hprov as [ Hprov | Hprov ]; [ discriminate | ].
    rewrite Hprov in H.
    destruct (eff_required _).
    + injection H as <-. exfalso. exact (P _ Hfst).
    + destruct (invokeDefault _) as [input | ]; [ | discriminate ].
      simpl in H. exact (T input H).
  - exact (T _ H).
Qed.

(** X9. When [validateEnv] succeeds, every field of the schema that has a
    variable, or a default to stand for it, has an entry in [data]. *)
Theorem provided_fields_are_in_data :
  forall host compiledSchema envVars environment r validatedData
         fieldName fieldSchema,
    validateEnv host compiledSchema envVars environment = Returns r ->
    data r = Some validatedData ->
    In (fieldName, fieldSchema) (schema compiledSchema) ->
    is_undefined
      (env_get (match envVars with Some e => e | None => process_env host end)
               (Str.toUpperCase fieldName)) = false
    \/ default_defined
         (eff_default
            (effectiveSchemaOf (resolveOverrides compiledSchema environment)
                               fieldName fieldSchema)) = true ->
    exists value, get validatedData fieldName = Some value.
Proof.
  intros host compiledSchema envVars environment r validatedData fieldName
    fieldSchema H Hdata Hin Hprov.
  unfold validateEnv in H.
  set (env := match envVars with Some e => e | None => process_env host end)
    in *.
  set (envOverrides := resolveOverrides compiledSchema environment) in *.
  destruct (validateFields host envOverrides env (schema compiledSchema)
              ([], [])) as [[errs written] | e] eqn:E;
    simpl in H; [ | discriminate ].
  injection H as <-. simpl in Hdata.
  destruct errs as [ | err errs ]; [ | discriminate ].
  injection Hdata as <-.
  assert (G : forall entries acc acc',
            validateFields host envOverrides env entries acc = Returns acc' ->
            fst acc' = fst acc ->
            In (fieldName, fieldSchema) entries ->
            get (snd acc') fieldName <> None).
  { induction entries as [ | [n fs] rest IH ]; intros acc acc' Hrun Hfst Hmem;
      [ contradiction | ].
    simpl in Hrun.
    destruct (validateField host envOverrides env acc n fs) as [acc1 | ]
      eqn:F; [ | discriminate ].
    simpl in Hrun.
    assert (Hfst1 : fst acc1 = fst acc /\ fst acc' = fst acc1).
    { destruct (validateField_outcome host envOverrides env acc n fs)
        as [(a & added & Ha & _ & Hadd) | (e & _ & Ha)];
        rewrite F in Ha; [ injection Ha as <- | discriminate ].
      destruct (@validateFields_keeps_errors _ _ _ _ _ _ Hrun) as (more & Hm).
      rewrite Hm, Hadd, <- app_assoc in Hfst.
      rewrite <- (app_nil_r (fst acc)) in Hfst at 2.
      apply app_inv_head in Hfst. apply app_eq_nil in Hfst.
      destruct Hfst as [-> ->].
      rewrite Hm, Hadd, !app_nil_r. split; reflexivity. }
    destruct Hfst1 as [Hfst1 Hfst2].
    destruct Hmem as [ Heq | Hmem ].
    - injection Heq as -> ->.
      apply (@validateFields_keeps_keys _ _ _ _ _ _ _ Hrun).
      exact (@validateField_writes _ _ _ _ _ _ _ F Hfst1 Hprov).
    - exact (IH acc1 acc' Hrun Hfst2 Hmem). }
  destruct (get written fieldName) as [ value | ] eqn:W.
  - now exists value.
  - exfalso. exact (G _ _ _ E eq_refl Hin W).
Qed.

(** The field [PORT] of type [number] given ['8080']. *)
Lemma provided_fields_are_in_data_witness :
  validateEnv Sample.host (port_number Sample.host)
    (Some [("PORT", JStr "8080")]) None
  = Returns (accepted [("PORT", JNum (Num.of_Z 8080))])
  /\ exists value, get [("PORT", JNum (Num.of_Z 8080))] "PORT" = Some value.
Proof.
  split; [ reflexivity | ].
  apply (@provided_fields_are_in_data Sample.host (port_number Sample.host)
           (Some [("PORT", JStr "8080")]) None
           (accepted [("PORT", JNum (Num.of_Z 8080))])
           [("PORT", JNum (Num.of_Z 8080))] "PORT"
           (compileField Sample.host (field Tnumber) Tnumber)).
  - reflexivity.
  - reflexivity.
  - left; reflexivity.
  - left; reflexivity.
Defined.

(** *** The variables that are read *)

(** X10. [validateEnv] reads one variable per field of the schema, the one
    named by the field name in upper case: two sets of variables that
    agree on those give the same result, whatever else they hold. *)
Theorem validateEnv_reads_the_named_variables :
  forall host compiledSchema env1 env2 environment,
    (forall fieldName fieldSchema,
       In (fieldName, fieldSchema) (schema compiledSchema) ->
       env_get env1 (Str.toUpperCase fieldName)
       = env_get env2 (Str.toUpperCase fieldName)) ->
    validateEnv host compiledSchema (Some env1) environment
    = validateEnv host compiledSchema (Some env2) environment.
Proof.
  intros host compiledSchema env1 env2 environment H.
  unfold validateEnv.
  set (envOverrides := resolveOverrides compiledSchema environment).
  assert (G : forall entries acc,
            (forall n fs, In (n, fs) entries ->
               env_get env1 (Str.toUpperCase n)
               = env_get env2 (Str.toUpperCase n)) ->
            validateFields host envOverrides env1 entries acc
            = validateFields host envOverrides env2 entries acc).
  { induction entries as [ | [n fs] rest IH ]; intros acc Hagree;
      [ reflexivity | ].
    simpl. unfold validateField.
    rewrite (Hagree n fs (or_introl eq_refl)).
    destruct (if is_undefined (env_get env2 (Str.toUpperCase n)) then _ else _)
      as [acc1 | e]; [ | reflexivity ].
    simpl. apply IH. intros n' fs' Hin. apply (Hagree n' fs'). now right. }
  now rewrite (G (schema compiledSchema) ([], []) H).
Qed.

(** The field [PORT] with and without a variable [port] in lower case and
    a variable [EXTRA] beside it. *)
Lemma validateEnv_reads_the_named_variables_witness :
  validateEnv Sample.host (port_number Sample.host)
    (Some [("port", JStr "nothing"); ("PORT", JStr "8080");
           ("EXTRA", JStr "1")]) None
  = validateEnv Sample.host (port_number Sample.host)
      (Some [("PORT", JStr "8080")]) None.
Proof.
  apply validateEnv_reads_the_named_variables.
  intros fieldName fieldSchema [ H | [] ].
  injection H as <- _. reflexivity.
Defined.

(** *** Compiling a schema *)

Lemma set_fresh {A : Type} (o : object A) (k : string) (a : A) :
  ~ In k (List.map fst o) -> set o k a = (o ++ [(k, a)])%list.
Proof.
  induction o as [ | [k0 a0] r IH ]; simpl; intros H; [ reflexivity | ].
  destruct (String.eqb k k0) eqn:E.
  - apply String.eqb_eq in E. subst k0. exfalso. apply H. now left.
  - rewrite IH; [ reflexivity | ]. intros Hin. apply H. now right.
Qed.

(** The loop of [defineSchema] on entries that all compile, with names
    that are new. *)
Lemma compileFields_all :
  forall host entries compiledSchema,
    NoDup (List.map fst entries) ->
    (forall k, In k (List.map fst entries) ->
               ~ In k (List.map fst compiledSchema)) ->
    Forall (fun e => is_field (fst e) = true -> typed_definition (snd e) <> None)
           entries ->
    compileFields host entries compiledSchema
    = Returns (compiledSchema ++ compiledEntries host entries)%list.
Proof.
  intros host entries.
  induction entries as [ | [n entry] rest IH ];
    intros compiledSchema Hnd Hfresh Hall; simpl.
  - now rewrite app_nil_r.
  - inversion Hnd as [ | ? ? Hn Hnd' ]; subst.
    inversion Hall as [ | ? ? Hhead Hall' ]; subst. simpl in Hhead.
    unfold is_field in *.
    destruct (String.eqb n "_environments"); simpl in *.
    + apply IH; auto.
    + specialize (Hhead eq_refl).
      destruct entry as [ d | v ]; simpl in *; [ | congruence ].
      destruct (def_type d) as [ t | ]; [ | congruence ].
      rewrite IH; auto.
      * rewrite set_fresh by (apply Hfresh; now left).
        now rewrite <- app_assoc.
      * intros k Hk. rewrite set_fresh by (apply Hfresh; now left).
        rewrite map_app, in_app_iff. simpl.
        intros [ Hin | [ <- | [] ] ].
        -- revert Hin. apply Hfresh. now right.
        -- contradiction.
Qed.

(** X11. A schema whose entries other than [_environments] are all
    definitions with a type compiles: [defineSchema] returns the fields
    in the order of the schema, each compiled from its own definition,
    and hands the block [_environments] over as it is, unread. *)
Theorem defineSchema_compiles_every_field :
  forall host schema,
    NoDup (List.map fst (sch_fields schema)) ->
    Forall (fun e => is_field (fst e) = true -> typed_definition (snd e) <> None)
           (sch_fields schema) ->
    defineSchema host schema
    = Returns {| schema := compiledEntries host (sch_fields schema);
                 _environments := sch_environments schema |}.
Proof.
  intros host schema Hnd Hall. unfold defineSchema.
  rewrite compileFields_all; auto.
Qed.

(** A port and a flag, with an override for an environment. *)
Lemma defineSchema_compiles_every_field_witness :
  defineSchema Sample.host
    {| sch_fields := [("PORT", EntryDefinition (field Tport));
                      ("DEBUG", EntryDefinition (field Tboolean))];
       sch_environments :=
         Some [("production", [("PORT", required_override)])] |}
  = Returns
      {| schema := [("PORT", compileField Sample.host (field Tport) Tport);
                    ("DEBUG",
                     compileField Sample.host (field Tboolean) Tboolean)];
         _environments :=
           Some [("production", [("PORT", required_override)])] |}.
Proof.
  apply (@defineSchema_compiles_every_field Sample.host
           {| sch_fields := [("PORT", EntryDefinition (field Tport));
                             ("DEBUG", EntryDefinition (field Tboolean))];
              sch_environments :=
                Some [("production", [("PORT", required_override)])] |}).
  - repeat constructor; simpl; intuition discriminate.
  - repeat constructor; discriminate.
Defined.

(** X12. [defineSchema] stops at the first entry, other than
    [_environments], that is not a definition with a type, and throws a
    [SchemaError] whose path is the name of that entry; what comes after
    it is not looked at. *)
Theorem defineSchema_stops_at_first_bad_field :
  forall host schema before fieldName entry after,
    sch_fields schema = (before ++ (fieldName, entry) :: after)%list ->
    Forall (fun e => is_field (fst e) = true -> typed_definition (snd e) <> None)
           before ->
    is_field fieldName = true ->
    typed_definition entry = None ->
    defineSchema host schema = Throws (schemaErrorOf fieldName entry).
Proof.
  intros host schema before fieldName entry after Hs Hall Hf Hbad.
  unfold defineSchema. rewrite Hs.
  assert (G : forall compiledSchema,
            compileFields host (before ++ (fieldName, entry) :: after)%list
                          compiledSchema
            = Throws (schemaErrorOf fieldName entry)).
  { clear Hs. induction before as [ | [n e] rest IH ]; intros compiledSchema.
    - simpl. unfold is_field in Hf.
      destruct (String.eqb fieldName "_environments"); [ discriminate | ].
      destruct entry as [ d | v ]; simpl in *.
      + destruct (def_type d); [ discriminate | reflexivity ].
      + destruct v; reflexivity.
    - inversion Hall as [ | ? ? Hhead Hall' ]; subst. simpl in Hhead.
      simpl. unfold is_field in Hhead.
      destruct (String.eqb n "_environments"); simpl in *.
      + apply IH; assumption.
      + specialize (Hhead eq_refl).
        destruct e as [ d | v ]; simpl in *; [ | congruence ].
        destruct (def_type d) as [ t | ]; [ | congruence ].
        apply IH; assumption. }
  now rewrite G.
Qed.

(** A schema whose second entry has no type. *)
Lemma defineSchema_stops_at_first_bad_field_witness :
  defineSchema Sample.host
    {| sch_fields := [("PORT", EntryDefinition (field Tport));
                      ("DEBUG", EntryDefinition emptyDefinition);
                      ("HOST", EntryValue JNull)];
       sch_environments := None |}
  = Throws (ThrownSchemaError
              ("Field " ++ dq ++ "DEBUG" ++ dq ++ " must specify a type")
              "DEBUG").
Proof.
  apply (@defineSchema_stops_at_first_bad_field Sample.host
           {| sch_fields := [("PORT", EntryDefinition (field Tport));
                             ("DEBUG", EntryDefinition emptyDefinition);
                             ("HOST", EntryValue JNull)];
              sch_environments := None |}
           [("PORT", EntryDefinition (field Tport))] "DEBUG"
           (EntryDefinition emptyDefinition) [("HOST", EntryValue JNull)]).
  - reflexivity.
  - repeat constructor; discriminate.
  - reflexivity.
  - reflexivity.
Defined.

(** *** Whitespace around a value *)


(** *** The protocols of a URL field *)



(** *** Reading an env file *)

Lemma trimStart_app (a : string) (c : ascii) (b : string) :
  Str.is_space c = false ->
  Str.trimStart (a ++ String c b) = Str.trimStart a ++ String c b.
Proof.
  intros Hc. induction a as [ | x a IH ]; simpl.
  - now rewrite Hc.
  - destruct (Str.is_space x); [ exact IH | reflexivity ].
Qed.

Lemma trimEnd_app (a : string) (c : ascii) (b : string) :
  Str.is_space c = false ->
  Str.trimEnd (a ++ String c b) = a ++ String c (Str.trimEnd b).
Proof.
  intros Hc. induction a as [ | x a IH ].
  - simpl. destruct (Str.trimEnd b); [ now rewrite Hc | reflexivity ].
  - change ((String x a) ++ String c b) with (String x (a ++ String c b)).
    cbn [Str.trimEnd]. rewrite IH.
    destruct a; reflexivity.
Qed.

(** Trimming the two ends in either order gives the same string. *)
Lemma trimStart_trimEnd (s : string) :
  Str.trimStart (Str.trimEnd s) = Str.trimEnd (Str.trimStart s).
Proof.
  induction s as [ | c r IH ]; [ reflexivity | ].
  cbn [Str.trimEnd Str.trimStart].
  destruct (Str.is_space c) eqn:Hc.
  - rewrite <- IH. destruct (Str.trimEnd r) eqn:E; [ reflexivity | ].
    cbn [Str.trimStart]. now rewrite Hc.
  - cbn [Str.trimEnd].
    destruct (Str.trimEnd r); rewrite ?Hc; cbn [Str.trimStart];
      now rewrite Hc.
Qed.

Lemma trim_trimEnd (s : string) : Str.trim (Str.trimEnd s) = Str.trim s.
Proof.
  unfold Str.trim. now rewrite trimStart_trimEnd, trimEnd_idempotent.
Qed.

Lemma trim_trimStart (s : string) : Str.trim (Str.trimStart s) = Str.trim s.
Proof.
  unfold Str.trim. now rewrite (@trimStart_fixed _ (trimStart_stops s)).
Qed.

Lemma split_nonempty (sep : ascii) (s : string) : split sep s <> [].
Proof.
  destruct s as [ | c r ]; simpl; [ discriminate | ].
  destruct (Ascii.eqb c sep); [ discriminate | ].
  destruct (split sep r); discriminate.
Qed.

(** The first piece ends at the first separator. *)
Lemma split_app (sep : ascii) (a b : string) :
  has_char a sep = false ->
  split sep (a ++ String sep b) = a :: split sep b.
Proof.
  induction a as [ | x a IH ]; simpl; intros H.
  - now rewrite Ascii.eqb_refl.
  - apply orb_false_iff in H. destruct H as [Hx Ha].
    rewrite Hx, (IH Ha). reflexivity.
Qed.

Lemma split_none (sep : ascii) (a : string) :
  has_char a sep = false -> split sep a = [a].
Proof.
  induction a as [ | x a IH ]; simpl; intros H; [ reflexivity | ].
  apply orb_false_iff in H. destruct H as [Hx Ha].
  now rewrite Hx, (IH Ha).
Qed.

Lemma join_cons (sep x y : string) (l : list string) :
  Str.join sep (x :: y :: l) = x ++ sep ++ Str.join sep (y :: l).
Proof. reflexivity. Qed.

(** Joining the pieces with the separator gives the string back. *)
Lemma join_split (sep : ascii) (s : string) :
  Str.join (String sep EmptyString) (split sep s) = s.
Proof.
  induction s as [ | c r IH ]; [ reflexivity | ].
  simpl split. pose proof (split_nonempty sep r) as N.
  destruct (split sep r) as [ | p ps ]; [ contradiction | ].
  destruct (Ascii.eqb c sep) eqn:E.
  - apply Ascii.eqb_eq in E. subst c.
    rewrite join_cons, IH. reflexivity.
  - destruct ps as [ | q qs ].
    + simpl in *. now rewrite IH.
    + rewrite join_cons in *. cbn [append]. f_equal. exact IH.
Qed.

Lemma has_char_app (a b : string) (c : ascii) :
  has_char (a ++ b) c = has_char a c || has_char b c.
Proof.
  induction a as [ | x a IH ]; simpl; [ reflexivity | ].
  now rewrite IH, orb_assoc.
Qed.

(** A line with a [=], read by the loop of [EnvFileLoader.load]. *)
Lemma loadLine_binding (envVars : object string) (name value : string) :
  has_char name "=" = false ->
  loadLine envVars (name ++ "=" ++ value)
  = if startsWith (Str.trimStart name) "#" then envVars
    else set envVars (Str.trim name) (Str.trim value).
Proof.
  intros Hname. unfold loadLine.
  assert (Ht : Str.trim (name ++ "=" ++ value)
               = Str.trimStart name ++ "=" ++ Str.trimEnd value).
  { unfold Str.trim. change (name ++ "=" ++ value) with (name ++ String "=" value).
    rewrite trimStart_app by reflexivity.
    now rewrite trimEnd_app by reflexivity. }
  rewrite Ht.
  assert (He : Str.is_empty (Str.trimStart name ++ "=" ++ Str.trimEnd value)
               = false) by (destruct (Str.trimStart name); reflexivity).
  assert (Hs : startsWith (Str.trimStart name ++ "=" ++ Str.trimEnd value) "#"
               = startsWith (Str.trimStart name) "#")
    by (destruct (Str.trimStart name); reflexivity).
  assert (Hh : has_char (Str.trimStart name ++ "=" ++ Str.trimEnd value) "="
               = true).
  { rewrite has_char_app. simpl. now rewrite orb_true_r. }
  rewrite He, Hs, Hh. simpl negb. rewrite andb_true_r. cbn [andb].
  destruct (startsWith (Str.trimStart name) "#"); [ reflexivity | ].
  cbn [negb].
  assert (Hn : has_char (Str.trimStart name) "=" = false).
  { clear - Hname. induction name as [ | x a IH ]; [ reflexivity | ].
    simpl in Hname. apply orb_false_iff in Hname. destruct Hname as [Hx Ha].
    simpl. destruct (Str.is_space x); [ exact (IH Ha) | ].
    simpl. now rewrite Hx, Ha. }
  change (Str.trimStart name ++ "=" ++ Str.trimEnd value)
    with (Str.trimStart name ++ String "=" (Str.trimEnd value)).
  rewrite (@split_app _ _ _ Hn).
  change "="%string with (String "="%char EmptyString).
  now rewrite join_split, trim_trimStart, trim_trimEnd.
Qed.

(** A line without [=] is passed over. *)
Lemma loadLine_no_equals (envVars : object string) (line : string) :
  has_char line "=" = false -> loadLine envVars line = envVars.
Proof.
  intros H. unfold loadLine.
  assert (Ht : has_char (Str.trim line) "=" = false).
  { unfold Str.trim.
    assert (S : forall s, has_char s "=" = false ->
                          has_char (Str.trimStart s) "=" = false).
    { induction s as [ | x a IH ]; [ reflexivity | ].
      simpl. intros Hs. apply orb_false_iff in Hs. destruct Hs as [Hx Ha].
      destruct (Str.is_space x); [ exact (IH Ha) | ].
      simpl. now rewrite Hx, Ha. }
    assert (E : forall s, has_char s "=" = false ->
                          has_char (Str.trimEnd s) "=" = false).
    { induction s as [ | x a IH ]; [ reflexivity | ].
      simpl. intros Hs. apply orb_false_iff in Hs. destruct Hs as [Hx Ha].
      specialize (IH Ha).
      destruct (Str.trimEnd a).
      - destruct (Str.is_space x); [ reflexivity | ].
        simpl. now rewrite Hx.
      - simpl in *. now rewrite Hx, IH. }
    apply E, S, H. }
  rewrite Ht, andb_false_r. reflexivity.
Qed.

(** X16. A line of an env file binds a variable when it holds a [=] and
    does not start, after whitespace, with [#]: the name is what comes
    before the first [=], the value all that comes after it, further [=]
    included, both without the whitespace around them; quotes are kept.
    The binding replaces an earlier one of the name.  Every other line
    changes nothing. *)
Theorem env_file_line_binds_name_to_rest :
  forall envVars,
    (forall name value,
       has_char name "=" = false ->
       startsWith (Str.trimStart name) "#" = false ->
       loadLine envVars (name ++ "=" ++ value)
       = set envVars (Str.trim name) (Str.trim value)
       /\ get (loadLine envVars (name ++ "=" ++ value)) (Str.trim name)
          = Some (Str.trim value))
    /\ (forall name value,
          has_char name "=" = false ->
          startsWith (Str.trimStart name) "#" = true ->
          loadLine envVars (name ++ "=" ++ value) = envVars)
    /\ (forall line,
          has_char line "=" = false -> loadLine envVars line = envVars).
Proof.
  intros envVars. split; [ | split ].
  - intros name value Hn Hc.
    rewrite (@loadLine_binding envVars _ value Hn), Hc.
    split; [ reflexivity | ].
    now rewrite get_set, String.eqb_refl.
  - intros name value Hn Hc.
    now rewrite (@loadLine_binding envVars _ value Hn), Hc.
  - intros line. apply loadLine_no_equals.
Qed.

(** *** From a schema to an example file and back *)

Lemma load_line (line rest : string) (envVars : object string) :
  has_char line lf = false ->
  fold_left loadLine (split lf (line ++ newline ++ rest)) envVars
  = fold_left loadLine (split lf rest) (loadLine envVars line).
Proof.
  intros H. unfold newline. cbn [append].
  now rewrite (@split_app _ _ _ H).
Qed.

(** A line that starts with [#] is passed over. *)
Lemma loadLine_comment (envVars : object string) (line : string) :
  startsWith line "#" = true -> loadLine envVars line = envVars.
Proof.
  intros H. unfold loadLine, Str.trim.
  destruct line as [ | c r ]; [ discriminate | ].
  simpl in H. apply Ascii.eqb_eq in H. subst c.
  cbn [Str.trimStart]. change (Str.is_space "#") with false. cbv iota.
  assert (E : exists r', Str.trimEnd (String "#" r) = String "#" r').
  { cbn [Str.trimEnd]. destruct (Str.trimEnd r); eexists; reflexivity. }
  destruct E as (r' & ->). reflexivity.
Qed.

Lemma plain_name_spec (fieldName : string) :
  plain_name fieldName = true ->
  has_char fieldName "=" = false /\ has_char fieldName lf = false
  /\ Str.trim fieldName = fieldName /\ Str.trimStart fieldName = fieldName
  /\ startsWith fieldName "#" = false.
Proof.
  unfold plain_name. intros H.
  apply andb_true_iff in H. destruct H as [H H4].
  apply andb_true_iff in H. destruct H as [H H3].
  apply andb_true_iff in H. destruct H as [H1 H2].
  apply negb_true_iff in H1, H2, H4. apply String.eqb_eq in H3.
  repeat split; try assumption.
  apply trimStart_fixed. rewrite <- H3. unfold Str.trim.
  apply trimEnd_stops, trimStart_stops.
Qed.

(** The loop of [generateExampleContent] adds to the content it is given
    lines that the loop of [EnvFileLoader.load] reads as the bindings of
    the fields. *)
Lemma exampleFields_load :
  forall host includeComments entries content result,
    Forall (fun entry =>
              startsWith (fst entry) "_" = false ->
              plain_name (fst entry) = true
              /\ one_line_each host (snd entry) = true) entries ->
    exampleFields host includeComments entries content = Returns result ->
    exists body,
      result = content ++ body
      /\ forall tail envVars,
           fold_left loadLine (split lf (body ++ tail)) envVars
           = fold_left loadLine (split lf tail)
               (fold_left
                  (fun envVars '(fieldName, fieldSchema) =>
                     if startsWith fieldName "_" then envVars
                     else
                       match exampleValue fieldSchema with
                       | Returns v =>
                           set envVars fieldName (Str.trim (ToString host v))
                       | Throws _ => envVars
                       end)
                  entries envVars).
Proof.
  intros host includeComments entries.
  induction entries as [ | [n fs] rest IH ]; intros content result Hall Hgen.
  - injection Hgen as <-. exists EmptyString. split.
    + now rewrite append_empty.
    + reflexivity.
  - inversion Hall as [ | ? ? Hhead Hrest ]; subst. simpl in Hhead.
    cbn [exampleFields] in Hgen. unfold exampleLines in Hgen.
    cbn [fold_left].
    destruct (startsWith n "_") eqn:Hskip.
    + cbn [bind] in Hgen. exact (IH content result Hrest Hgen).
    + destruct (Hhead eq_refl) as [Hplain Hone].
      destruct (plain_name_spec _ Hplain) as (Hne & Hnl & Htrim & Hstart & Hhash).
      unfold one_line_each in Hone.
      apply andb_true_iff in Hone. destruct Hone as [Hv Hd].
      destruct (exampleValue fs) as [v | e] eqn:Ev; [ | discriminate ].
      apply negb_true_iff in Hv.
      cbn [bind] in Hgen.
      assert (Hline : forall tail envVars,
                fold_left loadLine
                  (split lf ((n ++ "=" ++ ToString host v ++ newline ++ newline)
                             ++ tail)) envVars
                = fold_left loadLine (split lf tail)
                    (set envVars n (Str.trim (ToString host v)))).
      { intros tail envVars.
        replace ((n ++ "=" ++ ToString host v ++ newline ++ newline) ++ tail)
          with ((n ++ "=" ++ ToString host v) ++ newline
                ++ (EmptyString ++ newline ++ tail))
          by (rewrite !append_assoc; reflexivity).
        rewrite load_line.
        2: { rewrite !has_char_app, Hnl, Hv. reflexivity. }
        rewrite load_line by reflexivity.
        rewrite (@loadLine_binding envVars n (ToString host v) Hne).
        rewrite Hstart, Hhash, Htrim. reflexivity. }
      destruct (cf_description fs) as [ d | ] eqn:Ed.
      * destruct (includeComments && negb (Str.is_empty d)) eqn:Ec.
        -- destruct (IH _ result Hrest Hgen) as (body & -> & Hbody).
           exists (("# " ++ d ++ newline)
                   ++ (n ++ "=" ++ ToString host v ++ newline ++ newline)
                   ++ body).
           split; [ now rewrite !append_assoc | ].
           intros tail envVars.
           replace ((("# " ++ d ++ newline)
                     ++ (n ++ "=" ++ ToString host v ++ newline ++ newline)
                     ++ body) ++ tail)
             with (("# " ++ d) ++ newline
                   ++ ((n ++ "=" ++ ToString host v ++ newline ++ newline)
                       ++ (body ++ tail)))
             by (rewrite !append_assoc; reflexivity).
           rewrite load_line.
           2: { apply negb_true_iff in Hd. rewrite has_char_app, Hd.
                reflexivity. }
           rewrite loadLine_comment by reflexivity.
           rewrite Hline. apply Hbody.
        -- destruct (IH _ result Hrest Hgen) as (body & -> & Hbody).
           exists ((n ++ "=" ++ ToString host v ++ newline ++ newline) ++ body).
           split; [ now rewrite !append_assoc | ].
           intros tail envVars. rewrite append_assoc, Hline. apply Hbody.
      * destruct (IH _ result Hrest Hgen) as (body & -> & Hbody).
        exists ((n ++ "=" ++ ToString host v ++ newline ++ newline) ++ body).
        split; [ now rewrite !append_assoc | ].
        intros tail envVars. rewrite append_assoc, Hline. apply Hbody.
Qed.

(** X17. The example file that [generateExampleContent] writes for a
    schema, read back by [EnvFileLoader.load], gives the variables of
    the schema and no other: each field whose name does not start with
    [_] is bound to the text of its example value, without the whitespace
    around it.  This holds when the names of those fields can be names
    in an env file, and neither an example value nor a description runs
    over several lines. *)
Theorem generated_example_loads_back :
  forall host compiledSchema includeComments filePath content,
    Forall (fun entry =>
              startsWith (fst entry) "_" = false ->
              plain_name (fst entry) = true
              /\ one_line_each host (snd entry) = true)
           (schema compiledSchema) ->
    generateExampleContent host compiledSchema includeComments
    = Returns content ->
    EnvFileLoader_load filePath (Some content)
    = Returns (exampleVariables host (schema compiledSchema)).
Proof.
  intros host compiledSchema includeComments filePath content Hall Hgen.
  unfold generateExampleContent in Hgen.
  destruct (@exampleFields_load host includeComments _ _ _ Hall Hgen)
    as (body & -> & Hbody).
  unfold EnvFileLoader_load, exampleVariables. f_equal.
  replace (("# Environment Variables Example" ++ newline
            ++ "# Generated by env-guard" ++ newline ++ newline) ++ body)
    with ("# Environment Variables Example" ++ newline
          ++ ("# Generated by env-guard" ++ newline
              ++ (EmptyString ++ newline ++ (body ++ EmptyString)))).
  2: { rewrite !append_assoc, append_empty. reflexivity. }
  rewrite load_line by reflexivity.
  rewrite loadLine_comment by reflexivity.
  rewrite load_line by reflexivity.
  rewrite loadLine_comment by reflexivity.
  rewrite load_line by reflexivity.
  rewrite Hbody. reflexivity.
Qed.

(** A port with a default and a described address:
    [{ PORT: { type: 'port', default: 8080 ... },
       HOST: { type: 'ip', description: 'bind address' } }]. *)
Lemma generated_example_loads_back_witness :
  exists content,
    generateExampleContent Sample.host
      {| schema :=
           [("PORT",
             compileField Sample.host
               (with_default (field Tport) (Some (DefaultValue (JStr " 8080"))))
               Tport);
            ("HOST",
             compileField Sample.host
               (with_description (field Tip) (Some "bind address")) Tip)];
         _environments := None |} true
    = Returns content
    /\ EnvFileLoader_load "example.env" (Some content)
       = Returns [("PORT", "8080"); ("HOST", "127.0.0.1")].
Proof.
  eexists. split; [ reflexivity | ].
  apply (@generated_example_loads_back Sample.host
           {| schema :=
                [("PORT",
                  compileField Sample.host
                    (with_default (field Tport)
                                  (Some (DefaultValue (JStr " 8080"))))
                    Tport);
                 ("HOST",
                  compileField Sample.host
                    (with_description (field Tip) (Some "bind address")) Tip)];
              _environments := None |} true "example.env").
  - repeat constructor.
  - reflexivity.
Defined.

(** *** What the check command counts *)

Lemma compileFields_no_environments :
  forall host entries compiledSchema compiled,
    get compiledSchema "_environments" = None ->
    compileFields host entries compiledSchema = Returns compiled ->
    get compiled "_environments" = None.
Proof.
  intros host entries.
  induction entries as [ | [n entry] rest IH ]; intros acc compiled Hacc H.
  - injection H as <-. exact Hacc.
  - simpl in H. destruct (String.eqb n "_environments") eqn:E.
    + exact (IH acc compiled Hacc H).
    + destruct entry as [ d | v ]; [ | destruct v; discriminate ].
      destruct (def_type d) as [ t | ]; [ | discriminate ].
      apply (IH _ compiled) in H; [ exact H | ].
      rewrite get_set. rewrite String.eqb_sym, E. exact Hacc.
Qed.

(** X18. The check command reads the environments in the compiled fields,
    where [defineSchema] never puts them: for every schema that compiles
    it counts no environment, whatever the block [_environments] of the
    schema holds, which [defineSchema] returns beside the fields. *)
Theorem check_counts_no_environment :
  forall host schema compiled,
    defineSchema host schema = Returns compiled ->
    CheckCommand_environmentCount compiled = 0%nat
    /\ _environments compiled = sch_environments schema.
Proof.
  intros host schema compiled H. unfold defineSchema in H.
  destruct (compileFields host (sch_fields schema) []) as [fields | ] eqn:E;
    [ | discriminate ].
  injection H as <-. unfold CheckCommand_environmentCount. simpl.
  now rewrite (@compileFields_no_environments host _ [] fields eq_refl E).
Qed.

(** The schema of [DATABASE_URL] with its override for [production]. *)
Lemma check_counts_no_environment_witness :
  exists compiled,
    defineSchema Sample.host (database_url_schema (field Turl))
    = Returns compiled
    /\ CheckCommand_environmentCount compiled = 0%nat
    /\ _environments compiled
       = Some [("production", [("DATABASE_URL", required_override)])].
Proof.
  eexists. split; [ reflexivity | ].
  exact (@check_counts_no_environment Sample.host
           (database_url_schema (field Turl)) _ eq_refl).
Defined.

(** *** The example file against its schema *)

Lemma exampleVariables_keeps :
  forall host entries (envVars : object string) k,
    ~ In k (List.map fst entries) ->
    get (fold_left
           (fun envVars '(fieldName, fieldSchema) =>
              if startsWith fieldName "_" then envVars
              else
                match exampleValue fieldSchema with
                | Returns v =>
                    set envVars fieldName (Str.trim (ToString host v))
                | Throws _ => envVars
                end)
           entries envVars) k
    = get envVars k.
Proof.
  intros host entries.
  induction entries as [ | [n fs] rest IH ]; intros envVars k Hk;
    [ reflexivity | ].
  cbn [fold_left]. rewrite IH by (intros C; apply Hk; now right).
  destruct (startsWith n "_"); [ reflexivity | ].
  destruct (exampleValue fs); [ | reflexivity ].
  rewrite get_set. destruct (String.eqb k n) eqn:E; [ | reflexivity ].
  apply String.eqb_eq in E. subst n. exfalso. apply Hk. now left.
Qed.

(** With distinct names, the example file gives each field its own
    example. *)
Lemma exampleVariables_get :
  forall host entries fieldName fieldSchema v,
    NoDup (List.map fst entries) ->
    In (fieldName, fieldSchema) entries ->
    startsWith fieldName "_" = false ->
    exampleValue fieldSchema = Returns v ->
    get (exampleVariables host entries) fieldName
    = Some (Str.trim (ToString host v)).
Proof.
  intros host entries fieldName fieldSchema v Hnd Hin Hs Hv.
  unfold exampleVariables. generalize (@nil (string * string)).
  induction entries as [ | [n fs] rest IH ]; intros envVars; [ contradiction | ].
  inversion Hnd as [ | ? ? Hn Hnd' ]; subst.
  cbn [fold_left]. destruct Hin as [ Heq | Hin ].
  - injection Heq as -> ->. rewrite Hs, Hv.
    rewrite exampleVariables_keeps by exact Hn.
    now rewrite get_set, String.eqb_refl.
  - apply IH; assumption.
Qed.

Lemma asVariables_get (envVars : object string) (k : string) :
  env_get (asVariables envVars) k
  = match get envVars k with Some v => JStr v | None => JUndefined end.
Proof.
  unfold env_get, asVariables.
  induction envVars as [ | [n v] rest IH ]; simpl; [ reflexivity | ].
  destruct (String.eqb k n); [ reflexivity | exact IH ].
Qed.

(** The example of each type but [regex], as text, goes through the [try]
    block of a field of that type. *)
Lemma example_passes :
  forall host fieldName envVarName fieldSchema acc,
    Number_toString host (Num.of_Z 3000) = "3000" ->
    URL_parse host "https://example.com"
    = Some {| url_scheme := "https"; url_hostname := "example.com" |} ->
    JSON_parse host
      ("{" ++ dq ++ "key" ++ dq ++ ": " ++ dq ++ "value" ++ dq ++ "}")
    = JsonParsed ->
    plain_field fieldSchema = true ->
    exists final,
      tryBlock host fieldName envVarName (spread fieldSchema)
        (JStr (Str.trim (ToString host (generateExampleValue fieldSchema)))) acc
      = (fst acc, set (snd acc) fieldName final).
Proof.
  intros host fieldName envVarName fieldSchema acc Hnum Hurl Hjson Hplain.
  unfold plain_field in Hplain.
  apply andb_true_iff in Hplain. destruct Hplain as [Hplain Hx].
  apply andb_true_iff in Hplain. destruct Hplain as [Hplain Hv].
  apply andb_true_iff in Hplain. destruct Hplain as [Ht _].
  destruct (cf_validator fieldSchema) eqn:Ev; [ discriminate | ].
  destruct (cf_transform fieldSchema) eqn:Ex; [ discriminate | ].
  unfold tryBlock, generateExampleValue. simpl eff_type. simpl eff_transform.
  simpl eff_validator. rewrite Ev, Ex.
  destruct (cf_type fieldSchema); try discriminate Ht;
    cbn [ToString]; rewrite ?Hnum; eexists;
    first
      [ reflexivity
      | cbn [coercible]; cbv iota; unfold builtInValidator, validateUrl;
        do 2 change (Str.trim "https://example.com") with "https://example.com";
        cbn [Str.is_empty]; rewrite Hurl; reflexivity
      | cbn [coercible]; cbv iota; unfold builtInValidator, validateJson;
        do 2 change (Str.trim ("{" ++ dq ++ "key" ++ dq ++ ": " ++ dq
                               ++ "value" ++ dq ++ "}"))
          with ("{" ++ dq ++ "key" ++ dq ++ ": " ++ dq ++ "value" ++ dq ++ "}");
        rewrite Hjson; reflexivity ].
Qed.

Lemma exampleFields_returns :
  forall host includeComments entries content,
    Forall (fun entry => startsWith (fst entry) "_" = false ->
                         plain_field (snd entry) = true) entries ->
    exists result,
      exampleFields host includeComments entries content = Returns result.
Proof.
  intros host includeComments entries.
  induction entries as [ | [n fs] rest IH ]; intros content Hall.
  - now exists content.
  - inversion Hall as [ | ? ? Hhead Hrest ]; subst. simpl in Hhead.
    cbn [exampleFields]. unfold exampleLines.
    destruct (startsWith n "_").
    + cbn [bind]. apply IH. exact Hrest.
    + specialize (Hhead eq_refl). unfold plain_field in Hhead.
      apply andb_true_iff in Hhead. destruct Hhead as [Hhead _].
      apply andb_true_iff in Hhead. destruct Hhead as [Hhead _].
      apply andb_true_iff in Hhead. destruct Hhead as [_ Hd].
      apply negb_true_iff in Hd. unfold exampleValue. rewrite Hd.
      cbn [bind]. apply IH. exact Hrest.
Qed.

(** X19. The example file generated for a schema validates against the
    schema, under these provisos.  The names of the fields are distinct,
    in upper case, do not start with [_] (the generator leaves such a
    field out, so that a required one would be reported missing), and
    can be names in an env file: no [=], no line feed, no whitespace
    around them, no [#] in front.  Every field has a type other than
    [regex] and neither default, validator nor transform, and neither its
    example value nor its description holds a line feed.  The host prints
    3000 as [3000], parses [https://example.com] as a URL and accepts the
    JSON example.  Then [generateExampleContent] returns a text,
    [EnvFileLoader.load] reads variables from it, and [validateEnv],
    given these variables and no environment, succeeds. *)
Theorem generated_example_validates :
  forall host compiledSchema includeComments filePath,
    Number_toString host (Num.of_Z 3000) = "3000" ->
    URL_parse host "https://example.com"
    = Some {| url_scheme := "https"; url_hostname := "example.com" |} ->
    JSON_parse host
      ("{" ++ dq ++ "key" ++ dq ++ ": " ++ dq ++ "value" ++ dq ++ "}")
    = JsonParsed ->
    NoDup (List.map fst (schema compiledSchema)) ->
    Forall (fun entry =>
              startsWith (fst entry) "_" = false
              /\ plain_name (fst entry) = true
              /\ Str.toUpperCase (fst entry) = fst entry
              /\ plain_field (snd entry) = true
              /\ one_line_each host (snd entry) = true)
           (schema compiledSchema) ->
    exists content envVars validatedData,
      generateExampleContent host compiledSchema includeComments
      = Returns content
      /\ EnvFileLoader_load filePath (Some content) = Returns envVars
      /\ validateEnv host compiledSchema (Some (asVariables envVars)) None
         = Returns (accepted validatedData).
Proof.
  intros host compiledSchema includeComments filePath Hnum Hurl Hjson Hnd Hall.
  assert (Hplain : Forall (fun entry => startsWith (fst entry) "_" = false ->
                                        plain_field (snd entry) = true)
                          (schema compiledSchema)).
  { eapply Forall_impl; [ | exact Hall ]. intros a (_ & _ & _ & H & _) _.
    exact H. }
  assert (Hlines : Forall (fun entry =>
                             startsWith (fst entry) "_" = false ->
                             plain_name (fst entry) = true
                             /\ one_line_each host (snd entry) = true)
                          (schema compiledSchema)).
  { eapply Forall_impl; [ | exact Hall ]. intros a (_ & H1 & _ & _ & H2) _.
    split; assumption. }
  unfold generateExampleContent.
  destruct (@exampleFields_returns host includeComments _
              ("# Environment Variables Example" ++ newline
               ++ "# Generated by env-guard" ++ newline ++ newline) Hplain)
    as (content & Hgen).
  destruct (@exampleFields_load host includeComments _ _ _ Hlines Hgen)
    as (body & Hcontent & Hbody).
  exists content, (exampleVariables host (schema compiledSchema)).
  assert (Hload : EnvFileLoader_load filePath (Some content)
                  = Returns (exampleVariables host (schema compiledSchema))).
  { rewrite Hcontent. unfold EnvFileLoader_load, exampleVariables. f_equal.
    replace (("# Environment Variables Example" ++ newline
              ++ "# Generated by env-guard" ++ newline ++ newline) ++ body)
      with ("# Environment Variables Example" ++ newline
            ++ ("# Generated by env-guard" ++ newline
                ++ (EmptyString ++ newline ++ (body ++ EmptyString)))).
    2: { rewrite !append_assoc, append_empty. reflexivity. }
    rewrite load_line by reflexivity.
    rewrite loadLine_comment by reflexivity.
    rewrite load_line by reflexivity.
    rewrite loadLine_comment by reflexivity.
    rewrite load_line by reflexivity.
    rewrite Hbody. reflexivity. }
  set (env := asVariables (exampleVariables host (schema compiledSchema))).
  assert (G : forall entries acc,
            (forall n fs, In (n, fs) entries ->
                          In (n, fs) (schema compiledSchema)) ->
            exists written,
              validateFields host [] env entries acc
              = Returns (fst acc, written)).
  { induction entries as [ | [n fs] rest IH ]; intros acc Hsub.
    - exists (snd acc). now destruct acc.
    - assert (Hin : In (n, fs) (schema compiledSchema))
        by (apply Hsub; now left).
      rewrite Forall_forall in Hall.
      destruct (Hall _ Hin) as (Hs & Hname & Hup & Hfield & _).
      simpl in Hs, Hname, Hup, Hfield.
      assert (Hex : exampleValue fs = Returns (generateExampleValue fs)).
      { unfold exampleValue. unfold plain_field in Hfield.
        apply andb_true_iff in Hfield. destruct Hfield as [Hfield _].
        apply andb_true_iff in Hfield. destruct Hfield as [Hfield _].
        apply andb_true_iff in Hfield. destruct Hfield as [_ Hd].
        apply negb_true_iff in Hd. now rewrite Hd. }
      cbn [validateFields]. unfold validateField.
      rewrite Hup. unfold env. rewrite asVariables_get.
      rewrite (@exampleVariables_get host _ n fs _ Hnd Hin Hs Hex).
      cbn [is_undefined]. cbv iota.
      unfold effectiveSchemaOf. cbn [get].
      destruct (@example_passes host n n fs acc Hnum Hurl Hjson Hfield)
        as (final & ->).
      cbn [bind].
      destruct (IH (fst acc, set (snd acc) n final)) as (written & Hw).
      { intros n' fs' H'. apply Hsub. now right. }
      exists written. exact Hw. }
  destruct (G (schema compiledSchema) ([], []) (fun _ _ H => H))
    as (written & Hw).
  exists written. split; [ exact Hgen | ]. split; [ exact Hload | ].
  unfold validateEnv. unfold resolveOverrides. cbn [some_nonempty].
  cbv iota. fold env. rewrite Hw. reflexivity.
Qed.

(** A port and an address, on the sample host. *)
Lemma generated_example_validates_witness :
  exists content envVars validatedData,
    generateExampleContent Sample.host
      {| schema := [("PORT", compileField Sample.host (field Tport) Tport);
                    ("HOST", compileField Sample.host (field Tip) Tip)];
         _environments := None |} false
    = Returns content
    /\ EnvFileLoader_load "example.env" (Some content) = Returns envVars
    /\ validateEnv Sample.host
         {| schema := [("PORT", compileField Sample.host (field Tport) Tport);
                       ("HOST", compileField Sample.host (field Tip) Tip)];
            _environments := None |}
         (Some (asVariables envVars)) None
       = Returns (accepted validatedData).
Proof.
  apply (@generated_example_validates Sample.host
           {| schema := [("PORT", compileField Sample.host (field Tport) Tport);
                         ("HOST", compileField Sample.host (field Tip) Tip)];
              _environments := None |} false "example.env").
  - reflexivity.
  - reflexivity.
  - reflexivity.
  - repeat constructor; simpl; intuition discriminate.
  - repeat constructor.
Defined.

(** *** What a transform may return *)

(** X20. The transform of a field runs before the built-in validator of
    its type, which therefore sees what the transform returns: when a
    field of type [string], [url], [email], [ip], [json] or [regex] has a
    transform that returns something other than a string (as
    [JSON.parse] does on a [json] field), the field is refused with one
    [FormatError] that carries the transformed value and the message of
    the built-in validator; the field's own validator is not called. *)
Theorem transform_must_return_a_string :
  forall host fieldName envVarName effectiveSchema value coerced final acc,
    In (eff_type effectiveSchema) [Tstring; Turl; Temail; Tip; Tjson; Tregex] ->
    coerced_value host effectiveSchema value = Returns coerced ->
    transformed_value effectiveSchema coerced = Returns final ->
    typeof final <> TyString ->
    exists message,
      builtInValidator host (eff_type effectiveSchema) final
      = Returns (JStr message)
      /\ tryBlock host fieldName envVarName effectiveSchema value acc
         = push acc
             (format_error fieldName envVarName final (JStr message)
                "Validation failed").
Proof.
  intros host fieldName envVarName effectiveSchema value coerced final acc
    Ht Hc Hx Hf.
  pose proof (tryBlock_first_failure host fieldName envVarName effectiveSchema
                value acc) as (_ & F).
  cbv zeta in F.
  destruct (F _ Hc) as (_ & F1). destruct (F1 _ Hx) as (_ & F2 & _).
  assert (B : exists message,
            builtInValidator host (eff_type effectiveSchema) final
            = Returns (JStr message)).
  { simpl in Ht.
    destruct Ht as [ <- | [ <- | [ <- | [ <- | [ <- | [ <- | [] ] ] ] ] ] ];
      destruct final; try (exfalso; apply Hf; reflexivity);
      eexists; reflexivity. }
  destruct B as (message & B). exists message. split; [ exact B | ].
  apply F2; [ exact B | discriminate ].
Qed.

(** The field [{ type: 'json', default: '[]', transform: JSON.parse }],
    whose transform gives an array. *)
Lemma transform_must_return_a_string_witness :
  tryBlock Sample.host "ALLOWED_HOSTS" "ALLOWED_HOSTS"
    (spread (compileField Sample.host
               (with_transform (field Tjson)
                               (Some (fun _ => Returns (JObj 0))))
               Tjson))
    (JStr "[]") ([], [])
  = push ([], [])
      (format_error "ALLOWED_HOSTS" "ALLOWED_HOSTS" (JObj 0)
         (JStr "JSON must be a string") "Validation failed").
Proof.
  destruct (@transform_must_return_a_string Sample.host "ALLOWED_HOSTS"
              "ALLOWED_HOSTS"
              (spread (compileField Sample.host
                         (with_transform (field Tjson)
                                         (Some (fun _ => Returns (JObj 0))))
                         Tjson))
              (JStr "[]") (JStr "[]") (JObj 0) ([], []))
    as (message & Hb & Hrun).
  - right; right; right; right; left; reflexivity.
  - reflexivity.
  - reflexivity.
  - discriminate.
  - injection Hb as <-. exact Hrun.
Defined.
